(** * DeepSpeedLight: gradient reduction, step control and checkpoints

    A shallow embedding of [deepspeed/pt/deepspeed_light.py] (class
    [DeepSpeedLight]) and the properties its specification states about it.

    Python integers are [Z] ([%] is [Z.modulo], which like Python's takes the
    sign of the divisor), Python floats are exact rationals [Q], strings are
    [string].  The file system and the parameter groups are finite maps
    ([gmap string _]); a checkpoint dictionary, whose items are listed in
    order, is an association list.  A method that can raise returns a
    [result]; methods that mutate the engine or talk to a collaborator run in
    the monad [M] over a [World], which holds the engine, the file system and
    the trace of the calls and messages the methods issue. *)

From Stdlib Require Import ZArith QArith List String Ascii Bool Lia DecimalString.
From Stdlib Require Import Permutation DecimalZ DecimalPos.
From stdpp Require Import gmap strings.

Set Default Proof Using "Type".
Set Warnings "-register-all".

(** ** Exceptions and results *)

Inductive exn : Type :=
| AssertionError (msg : string)
| NotImplementedError (msg : string)
| NameError (name : string)
| AttributeError (name : string)
| ZeroDivisionError
| KeyError (key : string)
| IndexError
| TypeError (what : string)
| FileNotFoundError (path : string)
| FileExistsError (path : string)
| NotADirectoryError (path : string)
| IsADirectoryError (path : string)
| PermissionError (path : string)
| RuntimeError (msg : string).

Inductive result (A : Type) : Type :=
| Return (a : A)
| Raise (e : exn).

Arguments Return {A} a.
Arguments Raise {A} e.

Definition rbind {A B} (r : result A) (k : A -> result B) : result B :=
  match r with
  | Return a => k a
  | Raise e => Raise e
  end.

Definition returns {A} (r : result A) : bool :=
  match r with Return _ => true | Raise _ => false end.

(** ** Python text helpers *)

Module Py.
Local Open Scope string_scope.
Local Open Scope Z_scope.

(** [str(n)] for an int: decimal digits, a leading [-] when negative. *)
Definition str_int (n : Z) : string :=
  NilZero.string_of_int (Z.to_int n).

Fixpoint zeros (k : nat) : string :=
  match k with
  | O => ""
  | S k' => String "0" (zeros k')
  end.

(** ['{:0wd}'.format(n)]: sign-aware zero padding to a minimum width [w]. *)
Definition format_0d (w : nat) (n : Z) : string :=
  let digits := str_int (Z.abs n) in
  let sign := if n <? 0 then "-" else "" in
  sign +:+ zeros (w - String.length sign - String.length digits) +:+ digits.

(** ['{}'.format(n)] for an int. *)
Definition format_d (n : Z) : string := str_int n.

(** [a % b] on ints. *)
Definition modulo (a b : Z) : result Z :=
  if b =? 0 then Raise ZeroDivisionError else Return (a mod b).

(** [x > 0.0] *)
Definition positive (x : Q) : bool := negb (Qle_bool x 0).

(** The tag of a checkpoint is any object; [str(tag)] is what names the
    directory.  Strings and ints are the tags the docstrings name. *)
Inductive tag : Type :=
| TagStr (s : string)
| TagInt (n : Z).

Definition str (t : tag) : string :=
  match t with
  | TagStr s => s
  | TagInt n => str_int n
  end.

End Py.

(** ** [os.path] on POSIX *)

Module PosixPath.
Local Open Scope string_scope.

Definition sep : string := "/".

Definition is_sep (c : ascii) : bool := Ascii.eqb c "/".

Definition startswith_sep (s : string) : bool :=
  match s with
  | String c _ => is_sep c
  | EmptyString => false
  end.

Fixpoint endswith_sep (s : string) : bool :=
  match s with
  | EmptyString => false
  | String c EmptyString => is_sep c
  | String _ r => endswith_sep r
  end.

(** One round of the loop of [posixpath.join]. *)
Definition join_step (path b : string) : string :=
  if startswith_sep b then b
  else if String.eqb path "" || endswith_sep path then path +:+ b
  else path +:+ sep +:+ b.

Definition join (a : string) (p : list string) : string :=
  fold_left join_step p a.

Fixpoint has_sep (s : string) : bool :=
  match s with
  | EmptyString => false
  | String c r => is_sep c || has_sep r
  end.

(** [p[:p.rfind('/') + 1]] *)
Fixpoint head_to_last_sep (p : string) : string :=
  match p with
  | EmptyString => ""
  | String c r =>
      if has_sep r then String c (head_to_last_sep r)
      else if is_sep c then "/" else ""
  end.

Fixpoint all_sep (s : string) : bool :=
  match s with
  | EmptyString => true
  | String c r => is_sep c && all_sep r
  end.

(** [s.rstrip('/')] *)
Fixpoint rstrip_sep (s : string) : string :=
  match s with
  | EmptyString => ""
  | String c r =>
      let r' := rstrip_sep r in
      if String.eqb r' "" && is_sep c then "" else String c r'
  end.

Definition dirname (p : string) : string :=
  let head := head_to_last_sep p in
  if negb (String.eqb head "") && negb (all_sep head)
  then rstrip_sep head else head.

End PosixPath.

(** ** Values stored in checkpoints *)

(** The objects the engine puts into, and reads from, a checkpoint
    dictionary.  Tensors carry their elements; what a collaborator's
    [state_dict()] holds is opaque to the engine and travels as a value. *)
Inductive PyVal : Type :=
| PyNone
| PyBool (b : bool)
| PyInt (n : Z)
| PyFloat (q : Q)
| PyStr (s : string)
| PyTensor (elems : list Q)
| PyList (items : list PyVal)
| PyDict (items : list (string * PyVal)).

(** ** Configuration

    [DeepSpeedConfig] is a class of [deepspeed_config.py]; the fields are the
    attributes the getters of the engine read, under the names the getters
    use. *)

Record ZeroConfig : Type := {
  reduce_scatter : bool;
  overlap_comm : bool;
  reduce_bucket_size : Z;
  allgather_bucket_size : Z;
  allgather_partitions : bool;
  contiguous_gradients : bool;
  load_from_fp32_weights : bool
}.

Record DeepSpeedConfig : Type := {
  tensorboard_enabled : bool;
  wall_clock_breakdown : bool;
  memory_breakdown : bool;
  sparse_gradients_enabled : bool;
  zero_enabled : bool;
  zero_optimization_stage : Z;
  zero_config : ZeroConfig;
  fp16_enabled : bool;
  amp_enabled : bool;
  loss_scale : Q;
  dynamic_loss_scale_args : PyVal;
  gradient_accumulation_steps : Z;
  allreduce_always_fp32 : bool;
  prescale_gradients : bool;
  gradient_predivide_factor : Q;
  steps_per_print : Z;
  gradient_clipping : Q
}.

(** ** Collaborators, as far as the engine reads them *)

(** The wrapped optimizer.  [overflow] is [None] when the object has no such
    attribute ([hasattr(self.optimizer, 'overflow')] is false);
    [optimizer_state_dict] is what [state_dict()] returns and
    [dp_process_group_rank] is
    [torch.distributed.get_rank(group=self.optimizer.dp_process_group)]. *)
Record Optimizer : Type := {
  overflow : option bool;
  param_groups : list (gmap string PyVal);
  optimizer_state_dict : PyVal;
  dp_process_group_rank : Z
}.

Record LRScheduler : Type := {
  lr_scheduler_state_dict : PyVal
}.

(** The wrapped module, as far as the engine itself reads and assigns it:
    [module_state_dict] is what [state_dict()] returns for the state the
    engine put there.  The tensors behind it, which the optimizer and the
    clipping of gradients change in place, are not followed. *)
Record TorchModule : Type := {
  module_state_dict : PyVal
}.

(** The model-parallel unit, when the client supplies one. *)
Record Mpu : Type := {
  get_model_parallel_rank : Z;
  get_data_parallel_rank : Z
}.

(** Keyword arguments of the three shapes of [optimizer.load_state_dict]. *)
Inductive OptimizerLoad : Type :=
| LoadPlain (sd : PyVal)
| LoadFp16 (sd : PyVal) (load_optimizer_states : bool)
| LoadZero (state_dict_list : list PyVal) (load_optimizer_states : bool)
           (load_from_fp32_weights : bool).

(** What the collaborators do when called is outside the engine: the update
    rule, the schedule formula and the restoring of state are parameters of
    the development. *)
Class Collaborators : Type := {
  optimizer_step : Optimizer -> Optimizer;
  optimizer_zero_grad : Optimizer -> Optimizer;
  optimizer_load_state_dict : Optimizer -> OptimizerLoad -> result Optimizer;
  lr_scheduler_step : LRScheduler -> LRScheduler;
  lr_scheduler_load_state_dict : LRScheduler -> PyVal -> result LRScheduler;
  module_load_state_dict : TorchModule -> PyVal -> bool -> result TorchModule
}.

(** ** The engine *)

Record DeepSpeedLight : Type := {
  _config : DeepSpeedConfig;
  mpu : option Mpu;
  module : TorchModule;
  optimizer : option Optimizer;
  lr_scheduler : option LRScheduler;
  global_rank : Z;
  world_size : Z;
  dp_world_size : Z;
  mp_world_size : Z;
  global_steps : Z;
  micro_steps : Z;
  skipped_steps : Z;
  sample_count : Z;
  gradient_average : bool;
  csr_tensor_module_names : list string;
  loaded_checkpoint_mp_world_size : option Z;
  loaded_checkpoint_dp_world_size : option Z;
  save_non_zero_checkpoint : bool;
  save_zero_checkpoint : bool
}.

(** Assignments to the attributes the methods below write. *)

Definition set_module (v : TorchModule) (e : DeepSpeedLight) : DeepSpeedLight :=
  Build_DeepSpeedLight (_config e) (mpu e) v (optimizer e) (lr_scheduler e)
    (global_rank e) (world_size e) (dp_world_size e) (mp_world_size e)
    (global_steps e) (micro_steps e) (skipped_steps e) (sample_count e)
    (gradient_average e) (csr_tensor_module_names e)
    (loaded_checkpoint_mp_world_size e) (loaded_checkpoint_dp_world_size e)
    (save_non_zero_checkpoint e) (save_zero_checkpoint e).

Definition set_optimizer (v : option Optimizer) (e : DeepSpeedLight) : DeepSpeedLight :=
  Build_DeepSpeedLight (_config e) (mpu e) (module e) v (lr_scheduler e)
    (global_rank e) (world_size e) (dp_world_size e) (mp_world_size e)
    (global_steps e) (micro_steps e) (skipped_steps e) (sample_count e)
    (gradient_average e) (csr_tensor_module_names e)
    (loaded_checkpoint_mp_world_size e) (loaded_checkpoint_dp_world_size e)
    (save_non_zero_checkpoint e) (save_zero_checkpoint e).

Definition set_lr_scheduler (v : option LRScheduler) (e : DeepSpeedLight) : DeepSpeedLight :=
  Build_DeepSpeedLight (_config e) (mpu e) (module e) (optimizer e) v
    (global_rank e) (world_size e) (dp_world_size e) (mp_world_size e)
    (global_steps e) (micro_steps e) (skipped_steps e) (sample_count e)
    (gradient_average e) (csr_tensor_module_names e)
    (loaded_checkpoint_mp_world_size e) (loaded_checkpoint_dp_world_size e)
    (save_non_zero_checkpoint e) (save_zero_checkpoint e).

Definition set_global_steps (v : Z) (e : DeepSpeedLight) : DeepSpeedLight :=
  Build_DeepSpeedLight (_config e) (mpu e) (module e) (optimizer e)
    (lr_scheduler e) (global_rank e) (world_size e) (dp_world_size e)
    (mp_world_size e) v (micro_steps e) (skipped_steps e) (sample_count e)
    (gradient_average e) (csr_tensor_module_names e)
    (loaded_checkpoint_mp_world_size e) (loaded_checkpoint_dp_world_size e)
    (save_non_zero_checkpoint e) (save_zero_checkpoint e).

Definition set_micro_steps (v : Z) (e : DeepSpeedLight) : DeepSpeedLight :=
  Build_DeepSpeedLight (_config e) (mpu e) (module e) (optimizer e)
    (lr_scheduler e) (global_rank e) (world_size e) (dp_world_size e)
    (mp_world_size e) (global_steps e) v (skipped_steps e) (sample_count e)
    (gradient_average e) (csr_tensor_module_names e)
    (loaded_checkpoint_mp_world_size e) (loaded_checkpoint_dp_world_size e)
    (save_non_zero_checkpoint e) (save_zero_checkpoint e).

Definition set_skipped_steps (v : Z) (e : DeepSpeedLight) : DeepSpeedLight :=
  Build_DeepSpeedLight (_config e) (mpu e) (module e) (optimizer e)
    (lr_scheduler e) (global_rank e) (world_size e) (dp_world_size e)
    (mp_world_size e) (global_steps e) (micro_steps e) v (sample_count e)
    (gradient_average e) (csr_tensor_module_names e)
    (loaded_checkpoint_mp_world_size e) (loaded_checkpoint_dp_world_size e)
    (save_non_zero_checkpoint e) (save_zero_checkpoint e).

Definition set_csr_tensor_module_names (v : list string) (e : DeepSpeedLight) : DeepSpeedLight :=
  Build_DeepSpeedLight (_config e) (mpu e) (module e) (optimizer e)
    (lr_scheduler e) (global_rank e) (world_size e) (dp_world_size e)
    (mp_world_size e) (global_steps e) (micro_steps e) (skipped_steps e)
    (sample_count e) (gradient_average e) v
    (loaded_checkpoint_mp_world_size e) (loaded_checkpoint_dp_world_size e)
    (save_non_zero_checkpoint e) (save_zero_checkpoint e).

Definition set_loaded_checkpoint_mp_world_size (v : option Z) (e : DeepSpeedLight) : DeepSpeedLight :=
  Build_DeepSpeedLight (_config e) (mpu e) (module e) (optimizer e)
    (lr_scheduler e) (global_rank e) (world_size e) (dp_world_size e)
    (mp_world_size e) (global_steps e) (micro_steps e) (skipped_steps e)
    (sample_count e) (gradient_average e) (csr_tensor_module_names e) v
    (loaded_checkpoint_dp_world_size e) (save_non_zero_checkpoint e)
    (save_zero_checkpoint e).

Definition set_loaded_checkpoint_dp_world_size (v : option Z) (e : DeepSpeedLight) : DeepSpeedLight :=
  Build_DeepSpeedLight (_config e) (mpu e) (module e) (optimizer e)
    (lr_scheduler e) (global_rank e) (world_size e) (dp_world_size e)
    (mp_world_size e) (global_steps e) (micro_steps e) (skipped_steps e)
    (sample_count e) (gradient_average e) (csr_tensor_module_names e)
    (loaded_checkpoint_mp_world_size e) v (save_non_zero_checkpoint e)
    (save_zero_checkpoint e).

(** ** The world an engine method runs in *)

Inductive level : Type := Info | Warning | Error | Stdout.

(** What a method does that leaves no mark on the engine record: messages,
    timers, summaries, and calls on collaborators. *)
Inductive event : Type :=
| Log (l : level) (template : string) (args : list string)
| TimerStart (name : string)
| TimerStop (name : string)
| TimersLog (names : list string)
| TputTimerStop (report_progress : bool)
| SummaryScalar (name : string)
| SummaryFlush
| ClipGradNorm (master_params : bool) (max_norm : Q)
| CallOptimizerStep
| CallOptimizerZeroGrad
| CallModuleZeroGrad
| CallLRSchedulerStep
| CallOptimizerLoad (args : OptimizerLoad)
| CallModuleLoad (strict : bool)
| CallLRSchedulerLoad
| Barrier.

(** Files hold the objects [torch.save] wrote; paths are compared as
    written.  [denied] are the directories [os.makedirs] may not create. *)
Record FileSystem : Type := {
  files : gmap string PyVal;
  dirs : gset string;
  denied : gset string
}.

Record World : Type := {
  self : DeepSpeedLight;
  fs : FileSystem;
  trace : list event
}.

(** ** The monad of engine methods

    A method takes the world and leaves a result and the world as it is when
    the method returns or raises: what was assigned before an exception
    stays assigned. *)

Definition M (A : Type) : Type := World -> result A * World.

Definition ret {A} (a : A) : M A := fun w => (Return a, w).

Definition raise {A} (e : exn) : M A := fun w => (Raise e, w).

Definition bind {A B} (m : M A) (k : A -> M B) : M B :=
  fun w =>
    match m w with
    | (Return a, w') => k a w'
    | (Raise e, w') => (Raise e, w')
    end.

Declare Scope engine_scope.
Delimit Scope engine_scope with engine.

Notation "x <- m ;; k" := (bind m (fun x => k))
  (at level 100, m at next level, right associativity) : engine_scope.
Notation "m ;;; k" := (bind m (fun _ => k))
  (at level 100, right associativity) : engine_scope.

Local Open Scope engine_scope.

Definition lift {A} (r : result A) : M A := fun w => (r, w).

Definition get_self : M DeepSpeedLight := fun w => (Return (self w), w).

Definition set_self (f : DeepSpeedLight -> DeepSpeedLight) : M unit :=
  fun w => (Return tt, {| self := f (self w); fs := fs w; trace := trace w |}).

Definition get_fs : M FileSystem := fun w => (Return (fs w), w).

Definition set_fs (f : FileSystem -> FileSystem) : M unit :=
  fun w => (Return tt, {| self := self w; fs := f (fs w); trace := trace w |}).

Definition emit (e : event) : M unit :=
  fun w => (Return tt, {| self := self w; fs := fs w; trace := trace w ++ [e] |}).

(** [try: body except: handler] with a bare [except]. *)
Definition try_except {A} (body : M A) (handler : M A) : M A :=
  fun w =>
    match body w with
    | (Return a, w') => (Return a, w')
    | (Raise _, w') => handler w'
    end.

Definition when (b : bool) (m : M unit) : M unit :=
  if b then m else ret tt.

(** [for x in xs: body x] *)
Fixpoint for_each {A} (xs : list A) (body : A -> M unit) : M unit :=
  match xs with
  | [] => ret tt
  | x :: xs' => body x ;;; for_each xs' body
  end.

(** ** Names bound at module level

    The names the [import] statements and the module-level definitions of
    [deepspeed_light.py] bind.  Evaluating any other global name raises
    [NameError], as none of the names used below is a builtin. *)

Definition module_globals : list string :=
  [ "torch"; "os"; "warnings"; "dist"; "Module"; "_get_global_rank"; "amp";
    "SummaryWriter"; "ThroughputTimer"; "SynchronizedWallClockTimer";
    "FP16_DeepSpeedZeroOptimizer"; "FP16_DeepSpeedZeroOptimizer_Stage1";
    "logger"; "deepspeed_activation_checkpointing"; "FP16_Optimizer";
    "FP16_UnfusedOptimizer"; "FusedLamb"; "DeepSpeedConfig";
    "ADAM_OPTIMIZER"; "LAMB_OPTIMIZER"; "DEEPSPEED_OPTIMIZERS";
    "DeepSpeedDataLoader"; "ROUTE_TRAIN"; "ROUTE_PREDICT"; "ROUTE_EVAL";
    "TORCH_DISTRIBUTED_DEFAULT_PORT"; "ZERO_OPTIMIZATION_OPTIMIZER_STATES";
    "ZERO_OPTIMIZATION_GRADIENTS"; "lr_schedules"; "CSRTensor";
    "MEMORY_OPT_ALLREDUCE_SIZE"; "SUMMARY_WRITER_DIR_NAME"; "flatten";
    "unflatten"; "warned_flatten"; "split_half_float_double_csr";
    "_initialize_parameter_parallel_groups"; "print_configuration";
    "DeepSpeedLight" ]%string.

Definition global_name (name : string) : M unit :=
  if existsb (String.eqb name) module_globals then ret tt
  else raise (NameError name).

(** [<obj>.<method>(msg)] on a logging object bound to the global [obj]:
    the name is looked up first, then the message is built and written. *)
Definition log_via (obj : string) (l : level) (template : string)
    (args : list string) : M unit :=
  global_name obj ;;; emit (Log l template args).

Definition print (template : string) (args : list string) : M unit :=
  emit (Log Stdout template args).

(** ** Running a method *)

Lemma bind_return {A B} (m : M A) (k : A -> M B) (w w1 : World) (a : A) :
  m w = (Return a, w1) -> bind m k w = k a w1.
Proof. intros Hm. unfold bind. now rewrite Hm. Qed.

Lemma log_via_logger_run (l : level) (t : string) (args : list string)
    (w : World) :
  log_via "logger" l t args w
  = (Return tt,
     {| self := self w; fs := fs w; trace := trace w ++ [Log l t args] |}).
Proof. reflexivity. Qed.

(** ** A small engine to evaluate the methods on *)

Module Sample.
Local Open Scope Z_scope.

Definition zero_config0 : ZeroConfig :=
  {| reduce_scatter := true; overlap_comm := false;
     reduce_bucket_size := 500000000; allgather_bucket_size := 500000000;
     allgather_partitions := true; contiguous_gradients := false;
     load_from_fp32_weights := true |}.

Definition config0 : DeepSpeedConfig :=
  {| tensorboard_enabled := false; wall_clock_breakdown := false;
     memory_breakdown := false; sparse_gradients_enabled := false;
     zero_enabled := false; zero_optimization_stage := 0;
     zero_config := zero_config0; fp16_enabled := true;
     amp_enabled := false; loss_scale := 0%Q;
     dynamic_loss_scale_args := PyNone;
     gradient_accumulation_steps := 1; allreduce_always_fp32 := false;
     prescale_gradients := false; gradient_predivide_factor := 1%Q;
     steps_per_print := 10; gradient_clipping := 0%Q |}.

Definition optimizer0 (ovf : option bool) : Optimizer :=
  {| overflow := ovf; param_groups := [];
     optimizer_state_dict := PyDict []; dp_process_group_rank := 0 |}.

Definition engine0 : DeepSpeedLight :=
  {| _config := config0; mpu := None;
     module := {| module_state_dict := PyDict [] |};
     optimizer := Some (optimizer0 (Some false));
     lr_scheduler := Some {| lr_scheduler_state_dict := PyInt 0 |};
     global_rank := 0; world_size := 1; dp_world_size := 1;
     mp_world_size := 1; global_steps := 0; micro_steps := 0;
     skipped_steps := 0; sample_count := 0; gradient_average := true;
     csr_tensor_module_names := [];
     loaded_checkpoint_mp_world_size := None;
     loaded_checkpoint_dp_world_size := None;
     save_non_zero_checkpoint := true; save_zero_checkpoint := false |}.

(** The engine of a rank in a data-parallel group of [W] ranks, with
    predivide factor [f]. *)
Definition engine_of_group (W : Z) (f : Q) : DeepSpeedLight :=
  let c := config0 in
  let e := engine0 in
  Build_DeepSpeedLight
    (Build_DeepSpeedConfig (tensorboard_enabled c) (wall_clock_breakdown c)
       (memory_breakdown c) (sparse_gradients_enabled c) (zero_enabled c)
       (zero_optimization_stage c) (zero_config c) (fp16_enabled c)
       (amp_enabled c) (loss_scale c) (dynamic_loss_scale_args c)
       (gradient_accumulation_steps c) (allreduce_always_fp32 c)
       (prescale_gradients c) f (steps_per_print c) (gradient_clipping c))
    (mpu e) (module e) (optimizer e) (lr_scheduler e) (global_rank e)
    W W (mp_world_size e) (global_steps e) (micro_steps e) (skipped_steps e)
    (sample_count e) (gradient_average e) (csr_tensor_module_names e)
    (loaded_checkpoint_mp_world_size e) (loaded_checkpoint_dp_world_size e)
    (save_non_zero_checkpoint e) (save_zero_checkpoint e).

Definition fs0 : FileSystem :=
  {| files := ∅; dirs := ∅; denied := ∅ |}.

Definition world0 : World :=
  {| self := engine0; fs := fs0; trace := [] |}.

(** Collaborators for evaluation: an optimizer whose [step()] finds an
    overflow exactly when it was created with one pending. *)
Definition toy : Collaborators :=
  {| optimizer_step := fun o => o;
     optimizer_zero_grad := fun o => o;
     optimizer_load_state_dict := fun o _ => Return o;
     lr_scheduler_step := fun s =>
       match lr_scheduler_state_dict s with
       | PyInt n => {| lr_scheduler_state_dict := PyInt (n + 1) |}
       | _ => s
       end;
     lr_scheduler_load_state_dict := fun _ sd =>
       Return {| lr_scheduler_state_dict := sd |};
     module_load_state_dict := fun _ sd _ =>
       Return {| module_state_dict := sd |} |}.

Definition world_with (ovf : option bool) (K micro : Z) : World :=
  let cfg := config0 in
  let cfg' :=
    Build_DeepSpeedConfig (tensorboard_enabled cfg) (wall_clock_breakdown cfg)
      (memory_breakdown cfg) (sparse_gradients_enabled cfg) (zero_enabled cfg)
      (zero_optimization_stage cfg) (zero_config cfg) (fp16_enabled cfg)
      (amp_enabled cfg) (loss_scale cfg) (dynamic_loss_scale_args cfg)
      K (allreduce_always_fp32 cfg) (prescale_gradients cfg)
      (gradient_predivide_factor cfg) (steps_per_print cfg)
      (gradient_clipping cfg) in
  let e := engine0 in
  {| self :=
       set_micro_steps micro
         (set_optimizer (Some (optimizer0 ovf))
            (Build_DeepSpeedLight cfg' (mpu e) (module e) (optimizer e)
               (lr_scheduler e) (global_rank e) (world_size e)
               (dp_world_size e) (mp_world_size e) (global_steps e)
               (micro_steps e) (skipped_steps e) (sample_count e)
               (gradient_average e) (csr_tensor_module_names e)
               (loaded_checkpoint_mp_world_size e)
               (loaded_checkpoint_dp_world_size e)
               (save_non_zero_checkpoint e) (save_zero_checkpoint e)));
     fs := fs0; trace := [] |}.

End Sample.

(** * Checkpoint file names *)

Module Naming.
Local Open Scope string_scope.
Local Open Scope Z_scope.

Definition _get_rank_zero_ckpt_name (checkpoints_path : string) (tag : Py.tag)
    (mp_rank dp_rank : Z) : string :=
  let filename := "zero_pp_rank_" +:+ Py.format_d dp_rank in
  let zero_ckpt_name :=
    PosixPath.join checkpoints_path
      [ Py.str tag;
        filename +:+ "_mp_rank_" +:+ Py.format_0d 2 mp_rank
                 +:+ "optim_states.pt" ] in
  zero_ckpt_name.

(** [0 if self.mpu is None else self.mpu.get_model_parallel_rank()] *)
Definition mp_rank_of (e : DeepSpeedLight) : Z :=
  match mpu e with
  | None => 0
  | Some m => get_model_parallel_rank m
  end.

Definition _get_zero_ckpt_name (e : DeepSpeedLight) (checkpoints_path : string)
    (tag : Py.tag) : result string :=
  let mp_rank := mp_rank_of e in
  match optimizer e with
  | None => Raise (AttributeError "dp_process_group")
  | Some o =>
      let pp_rank := dp_process_group_rank o in
      Return (_get_rank_zero_ckpt_name checkpoints_path tag mp_rank pp_rank)
  end.

Definition _get_ckpt_name (e : DeepSpeedLight) (checkpoints_path : string)
    (tag : Py.tag) : string :=
  let mp_rank := mp_rank_of e in
  let ckpt_name :=
    PosixPath.join checkpoints_path
      [ Py.str tag;
        "mp_rank_" +:+ Py.format_0d 2 mp_rank +:+ "_model_states.pt" ] in
  ckpt_name.

(** The layout as the specification writes it. *)
Definition layout_model_states (dir T : string) (MP : Z) : string :=
  dir +:+ "/" +:+ T +:+ "/" +:+ "mp_rank_" +:+ Py.format_0d 2 MP
      +:+ "_model_states".

Definition layout_optim_states (dir T : string) (MP DP : Z) : string :=
  dir +:+ "/" +:+ T +:+ "/" +:+ "zero_pp_rank_" +:+ Py.format_d DP
      +:+ "_mp_rank_" +:+ Py.format_0d 2 MP +:+ "optim_states".

(** A path component that [os.path.join] glues with exactly one separator
    on each side. *)
Definition plain_dir (dir : string) : Prop :=
  dir <> "" /\ PosixPath.endswith_sep dir = false.

Definition plain_component (T : string) : Prop :=
  T <> "" /\ PosixPath.startswith_sep T = false
  /\ PosixPath.endswith_sep T = false.

(** ** Facts about strings and [os.path.join] *)

Lemma append_nil (b : string) : "" +:+ b = b.
Proof. reflexivity. Qed.

Lemma append_cons (x : ascii) (a b : string) :
  String x a +:+ b = String x (a +:+ b).
Proof. reflexivity. Qed.

Lemma append_assoc (a b c : string) : (a +:+ b) +:+ c = a +:+ (b +:+ c).
Proof.
  induction a as [|x a IH]; [reflexivity |].
  now rewrite !append_cons, IH.
Qed.

Lemma append_nonempty_r (a b : string) : b <> "" -> a +:+ b <> "".
Proof.
  intros Hb. destruct a as [|x a]; [exact Hb |].
  rewrite append_cons. discriminate.
Qed.

Lemma endswith_sep_append (a b : string) :
  b <> "" -> PosixPath.endswith_sep (a +:+ b) = PosixPath.endswith_sep b.
Proof.
  intros Hb. induction a as [|x a IH]; [reflexivity |].
  rewrite append_cons. simpl.
  destruct (a +:+ b) eqn:E.
  - exfalso. now apply (append_nonempty_r a b Hb).
  - exact IH.
Qed.

Lemma join_step_plain (path b : string) :
  path <> "" -> PosixPath.endswith_sep path = false ->
  PosixPath.startswith_sep b = false ->
  PosixPath.join_step path b = path +:+ "/" +:+ b.
Proof.
  intros Hne Hend Hstart. unfold PosixPath.join_step.
  rewrite Hstart, Hend.
  apply String.eqb_neq in Hne. now rewrite Hne.
Qed.

(** Joining a directory, a tag and a file name that are all plain puts one
    separator between each. *)
Lemma join_plain (dir T name : string) :
  plain_dir dir -> plain_component T ->
  PosixPath.startswith_sep name = false ->
  PosixPath.join dir [T; name] = dir +:+ "/" +:+ T +:+ "/" +:+ name.
Proof.
  intros [Hd1 Hd2] (HT1 & HT2 & HT3) Hname.
  unfold PosixPath.join; simpl fold_left.
  rewrite (join_step_plain dir T Hd1 Hd2 HT2).
  rewrite join_step_plain; [| | | exact Hname].
  - now rewrite !append_assoc.
  - apply append_nonempty_r. discriminate.
  - rewrite endswith_sep_append by discriminate.
    change ("/" +:+ T) with (String "/" T).
    destruct T as [|c T']; [now elim HT1 | exact HT3].
Qed.

(** A tag that starts with a separator replaces the directory. *)
Lemma join_absolute_tag (dir T name : string) :
  PosixPath.startswith_sep T = true ->
  PosixPath.join dir [T; name] = PosixPath.join T [name].
Proof.
  intros HT. unfold PosixPath.join; simpl.
  unfold PosixPath.join_step at 2. now rewrite HT.
Qed.

(** The text of an integer tag is a plain component: digits, after a sign
    when the integer is negative. *)
Lemma digits_have_no_sep (d : Decimal.uint) :
  PosixPath.has_sep (NilEmpty.string_of_uint d) = false.
Proof. induction d; cbn; try assumption; reflexivity. Qed.

Lemma no_sep_is_plain (T : string) :
  T <> "" -> PosixPath.has_sep T = false -> plain_component T.
Proof.
  intros Hne Hsep. split; [exact Hne |]. split.
  - destruct T as [|c T]; [reflexivity |]. cbn in *.
    now apply orb_false_iff in Hsep.
  - clear Hne. induction T as [|c T IH]; [reflexivity |].
    cbn in Hsep. apply orb_false_iff in Hsep as [Hc HT].
    cbn. destruct T; [exact Hc | now apply IH].
Qed.

Lemma int_tag_is_plain (n : Z) : plain_component (Py.str (Py.TagInt n)).
Proof.
  unfold Py.str, Py.str_int.
  assert (Huint : forall d, NilZero.string_of_uint d <> ""
                            /\ PosixPath.has_sep (NilZero.string_of_uint d) = false).
  { intros d. destruct d; cbn; (split; [discriminate |]);
      try reflexivity; apply digits_have_no_sep. }
  apply no_sep_is_plain.
  - destruct (Z.to_int n) as [d|d]; cbn; [apply Huint | discriminate].
  - destruct (Z.to_int n) as [d|d]; cbn; apply Huint.
Qed.

Example model_states_name_00 :
  _get_ckpt_name Sample.engine0 "ckpt" (Py.TagInt 1200)
  = "ckpt/1200/mp_rank_00_model_states.pt".
Proof. reflexivity. Qed.

Example optim_states_name_3_07 :
  _get_rank_zero_ckpt_name "/data/run/" (Py.TagStr "final") 7 3
  = "/data/run/final/zero_pp_rank_3_mp_rank_07optim_states.pt".
Proof. reflexivity. Qed.

(** ** The file names against the layout of the specification *)

(** C3, counterexample: the engine names the model-state file of tag [T]
    under [ckpt] with a [.pt] suffix, so the name is not the bare layout
    [<dir>/T/mp_rank_00_model_states]; the same holds for the shard file.
    And under [ckpt/], a directory written with its separator, the path has
    one separator where the layout has two. *)
Lemma ckpt_name_differs_from_bare_layout :
  _get_ckpt_name Sample.engine0 "ckpt" (Py.TagStr "T")
    = "ckpt/T/mp_rank_00_model_states.pt"
  /\ _get_ckpt_name Sample.engine0 "ckpt" (Py.TagStr "T")
    <> layout_model_states "ckpt" "T" (mp_rank_of Sample.engine0)
  /\ _get_rank_zero_ckpt_name "ckpt" (Py.TagStr "T") 0 3
    <> layout_optim_states "ckpt" "T" 0 3
  /\ _get_ckpt_name Sample.engine0 "ckpt/" (Py.TagStr "T")
    = "ckpt/T/mp_rank_00_model_states.pt"
  /\ _get_ckpt_name Sample.engine0 "ckpt/" (Py.TagStr "T")
    <> layout_model_states "ckpt/" "T" (mp_rank_of Sample.engine0) +:+ ".pt".
Proof. repeat split; vm_compute; congruence. Qed.

(** C3, as amended: for a directory that is not empty and does not end in a
    separator, and a tag whose text is not empty and neither starts nor ends
    with a separator, the model-state path is the layout
    [<dir>/T/mp_rank_{MP:02}_model_states] followed by [.pt] and the
    optimizer-shard path is [<dir>/T/zero_pp_rank_{DP}_mp_rank_{MP:02}optim_states]
    followed by [.pt], where MP is the engine's model-parallel rank (0
    without an mpu). *)
Theorem ckpt_names_are_layout_with_pt (e : DeepSpeedLight) (dir : string)
    (T : Py.tag) (DP : Z) :
  plain_dir dir -> plain_component (Py.str T) ->
  _get_ckpt_name e dir T
    = layout_model_states dir (Py.str T) (mp_rank_of e) +:+ ".pt"
  /\ _get_rank_zero_ckpt_name dir T (mp_rank_of e) DP
    = layout_optim_states dir (Py.str T) (mp_rank_of e) DP +:+ ".pt".
Proof.
  intros Hdir HT. unfold _get_ckpt_name, _get_rank_zero_ckpt_name.
  unfold layout_model_states, layout_optim_states.
  split.
  - rewrite (join_plain dir (Py.str T) _ Hdir HT) by reflexivity.
    now rewrite !append_assoc.
  - rewrite (join_plain dir (Py.str T) _ Hdir HT) by reflexivity.
    now rewrite !append_assoc.
Qed.

Lemma ckpt_names_are_layout_with_pt_witness :
  _get_ckpt_name Sample.engine0 "ckpt" (Py.TagInt 1200)
    = layout_model_states "ckpt" "1200" 0 +:+ ".pt"
  /\ _get_rank_zero_ckpt_name "ckpt" (Py.TagInt 1200) 0 3
    = layout_optim_states "ckpt" "1200" 0 3 +:+ ".pt".
Proof.
  apply (ckpt_names_are_layout_with_pt Sample.engine0 "ckpt" (Py.TagInt 1200) 3).
  - split; [discriminate | reflexivity].
  - split; [discriminate | split; reflexivity].
Defined.

End Naming.

(** * The training step *)

Module StepControl.
Local Open Scope string_scope.
Local Open Scope Z_scope.

Section WithCollaborators.
Context `{Collaborators}.

Definition is_gradient_accumulation_boundary : M bool :=
  e <- get_self ;;
  r <- lift (Py.modulo (micro_steps e + 1)
                       (gradient_accumulation_steps (_config e))) ;;
  ret (r =? 0).

(** [zero_grad]: every parameter of the module gets [grad = None]. *)
Definition zero_grad : M unit := emit CallModuleZeroGrad.

Definition clip_fp32_gradients : M unit :=
  e <- get_self ;;
  emit (ClipGradNorm false (gradient_clipping (_config e))).

Definition _get_optimizer_param (param_name : string) : M (list PyVal) :=
  e <- get_self ;;
  match optimizer e with
  | None => ret []
  | Some o =>
      ret (map (fun group : gmap string PyVal =>
                  match group !! param_name with
                  | Some v => v
                  | None => PyFloat 0
                  end) (param_groups o))
  end.

Definition get_lr : M (list PyVal) := _get_optimizer_param "lr".

Definition get_mom : M (list PyVal) := _get_optimizer_param "betas".

(** The message carries the rank and the two counters; the learning rates
    and momenta it also prints are read and left out. *)
Definition _report_progress (step : Z) : M unit :=
  e <- get_self ;;
  lr <- get_lr ;;
  mom <- get_mom ;;
  log_via "logger" Info "rank:{} step={}, skipped={}, lr={}, mom={}"
    [Py.str_int (global_rank e); Py.str_int step;
     Py.str_int (skipped_steps e)].

(** [self.optimizer.step()] and [self.optimizer.zero_grad()]: the
    optimizer is what the method leaves; the call is recorded.  What the
    method does to the parameters and gradients of the module, which the
    optimizer holds by reference, is outside the engine record. *)
Definition call_optimizer (ev : event) (f : Optimizer -> Optimizer) : M unit :=
  e <- get_self ;;
  match optimizer e with
  | None => raise (AttributeError "optimizer")
  | Some o => set_self (set_optimizer (Some (f o))) ;;; emit ev
  end.

(** [self.lr_scheduler.step()], under [if self.lr_scheduler is not None] *)
Definition step_lr_scheduler : M unit :=
  e <- get_self ;;
  match lr_scheduler e with
  | None => ret tt
  | Some sch =>
      set_self (set_lr_scheduler (Some (lr_scheduler_step sch))) ;;;
      emit CallLRSchedulerStep
  end.

(** The block of [step] under [if self.is_gradient_accumulation_boundary()]. *)
Definition take_model_step (report_progress : bool) : M unit :=
  e <- get_self ;;
  let cfg := _config e in
  when (Py.positive (gradient_clipping cfg))
    (if negb (fp16_enabled cfg) && negb (amp_enabled cfg)
     then clip_fp32_gradients
     else if amp_enabled cfg
     then emit (ClipGradNorm true (gradient_clipping cfg))
     else ret tt) ;;;
  call_optimizer CallOptimizerStep optimizer_step ;;;
  (if negb (zero_enabled cfg) && negb (fp16_enabled cfg)
      && negb (amp_enabled cfg)
   then zero_grad
   else call_optimizer CallOptimizerZeroGrad optimizer_zero_grad) ;;;
  e1 <- get_self ;;
  let overflow :=
    match optimizer e1 with
    | Some o => match overflow o with Some b => b | None => false end
    | None => false
    end in
  (if overflow
   then set_self (fun e2 => set_skipped_steps (skipped_steps e2 + 1) e2)
   else
     step_lr_scheduler ;;;
     e2 <- get_self ;;
     if report_progress
     then r <- lift (Py.modulo (global_steps e2 + 1)
                               (steps_per_print (_config e2))) ;;
          when (r =? 0) (_report_progress (global_steps e2 + 1))
     else ret tt) ;;;
  set_self (fun e3 => set_global_steps (global_steps e3 + 1) e3).

(** [step], up to the boundary test: timers and the assertion. *)
Definition step_prologue : M unit :=
  e <- get_self ;;
  when (wall_clock_breakdown (_config e))
    (emit (TimerStart "step_microstep") ;;; emit (TimerStart "step")) ;;;
  match optimizer e with
  | None =>
      raise (AssertionError
               "must provide optimizer during init in order to use step")
  | Some _ => ret tt
  end.

(** [self.global_rank == 0 if self.global_rank else True] *)
Definition report_progress_of (e : DeepSpeedLight) : bool :=
  if negb (global_rank e =? 0) then global_rank e =? 0 else true.

Definition timing_summaries : list string :=
  [ "Train/Samples/elapsed_time_ms_forward";
    "Train/Samples/elapsed_time_ms_backward";
    "Train/Samples/elapsed_time_ms_backward_inner";
    "Train/Samples/elapsed_time_ms_backward_allreduce";
    "Train/Samples/elapsed_time_ms_step" ].

(** [step], after the boundary block: throughput timer, summaries, timer
    logs and the micro-step counter.  The summaries are recorded as they are
    handed to the writer; the list [self.summary_events] they are first put
    in, which no method reads back, and the files of the writer are not
    part of the engine record. *)
Definition step_epilogue (report_progress : bool) : M unit :=
  e <- get_self ;;
  let cfg := _config e in
  emit (TputTimerStop report_progress) ;;;
  when (tensorboard_enabled cfg)
    (b <- is_gradient_accumulation_boundary ;;
     when (b && (global_rank e =? 0))
       (lr <- get_lr ;;
        match lr with
        | [] => raise IndexError
        | _ :: _ => emit (SummaryScalar "Train/Samples/lr") ;;; emit SummaryFlush
        end)) ;;;
  when (wall_clock_breakdown cfg)
    (emit (TimerStop "step") ;;;
     emit (TimerStop "step_microstep") ;;;
     emit (TimersLog [ "forward_microstep"; "backward_microstep";
                       "backward_inner_microstep";
                       "backward_allreduce_microstep"; "step_microstep" ]) ;;;
     b <- is_gradient_accumulation_boundary ;;
     when (b && tensorboard_enabled cfg && (global_rank e =? 0))
       (for_each timing_summaries (fun name => emit (SummaryScalar name)) ;;;
        emit SummaryFlush) ;;;
     when (wall_clock_breakdown cfg)
       (emit (TimersLog [ "forward"; "backward"; "backward_inner";
                          "backward_allreduce"; "step" ]))) ;;;
  set_self (fun e' => set_micro_steps (micro_steps e' + 1) e').

Definition step : M unit :=
  step_prologue ;;;
  e <- get_self ;;
  let report_progress := report_progress_of e in
  b <- is_gradient_accumulation_boundary ;;
  when b (take_model_step report_progress) ;;;
  step_epilogue report_progress.

(** The optimizer as it is when [step] reads its overflow attribute: after
    its [step()], and after its [zero_grad()] when that is the one called. *)
Definition optimizer_at_overflow_check (cfg : DeepSpeedConfig) (o : Optimizer)
    : Optimizer :=
  if negb (zero_enabled cfg) && negb (fp16_enabled cfg)
     && negb (amp_enabled cfg)
  then optimizer_step o
  else optimizer_zero_grad (optimizer_step o).

Definition is_lr_scheduler_step (ev : event) : bool :=
  match ev with
  | CallLRSchedulerStep => true
  | _ => false
  end.

(** How often [lr_scheduler.step()] was called so far. *)
Definition count_lr_scheduler_steps (tr : list event) : nat :=
  length (List.filter is_lr_scheduler_step tr).

Definition lr_scheduler_steps (w : World) : nat :=
  count_lr_scheduler_steps (trace w).

Arguments count_lr_scheduler_steps : simpl never.

(** The counters and the schedule, the part of the world [step] is
    specified on. *)
Definition progress (w : World) : Z * Z * option LRScheduler * nat :=
  (skipped_steps (self w), global_steps (self w), lr_scheduler (self w),
   lr_scheduler_steps w).

Definition keeps_progress {A} (m : M A) : Prop :=
  forall w, progress (snd (m w)) = progress w.

(** Two engines that differ at most in their optimizer. *)
Definition same_but_optimizer (e e' : DeepSpeedLight) : Prop :=
  set_optimizer None e = set_optimizer None e'.

End WithCollaborators.

(** ** What a method leaves untouched *)

Section Facts.
Context `{Collaborators}.

Lemma count_snoc_other (tr : list event) (ev : event) :
  is_lr_scheduler_step ev = false ->
  count_lr_scheduler_steps (tr ++ [ev]) = count_lr_scheduler_steps tr.
Proof.
  intros Hev. unfold count_lr_scheduler_steps.
  rewrite List.filter_app. cbn [List.filter]. now rewrite Hev, app_nil_r.
Qed.

Lemma count_snoc_lr_step (tr : list event) :
  count_lr_scheduler_steps (tr ++ [CallLRSchedulerStep])
  = S (count_lr_scheduler_steps tr).
Proof.
  unfold count_lr_scheduler_steps. rewrite List.filter_app. cbn [List.filter].
  rewrite length_app. cbn. lia.
Qed.

Lemma keeps_ret {A} (a : A) : keeps_progress (ret a).
Proof. intros w; reflexivity. Qed.

Lemma keeps_raise {A} (e : exn) : keeps_progress (@raise A e).
Proof. intros w; reflexivity. Qed.

Lemma keeps_lift {A} (r : result A) : keeps_progress (lift r).
Proof. intros w; reflexivity. Qed.

Lemma keeps_get_self : keeps_progress get_self.
Proof. intros w; reflexivity. Qed.

Lemma keeps_bind {A B} (m : M A) (k : A -> M B) :
  keeps_progress m -> (forall a, keeps_progress (k a)) ->
  keeps_progress (bind m k).
Proof.
  intros Hm Hk w. unfold bind. specialize (Hm w).
  destruct (m w) as [[a|e] w1]; simpl in *.
  - now rewrite Hk.
  - exact Hm.
Qed.

Lemma keeps_when (b : bool) (m : M unit) :
  keeps_progress m -> keeps_progress (when b m).
Proof. intros Hm. destruct b; [exact Hm | apply keeps_ret]. Qed.

Lemma keeps_emit (ev : event) :
  is_lr_scheduler_step ev = false -> keeps_progress (emit ev).
Proof.
  intros Hev w. unfold progress, lr_scheduler_steps, emit.
  cbn [snd self trace]. now rewrite count_snoc_other.
Qed.

Lemma keeps_global_name (name : string) : keeps_progress (global_name name).
Proof.
  unfold global_name.
  destruct (existsb _ _); [apply keeps_ret | apply keeps_raise].
Qed.

Lemma keeps_log_via (obj : string) (l : level) (t : string) (args : list string) :
  keeps_progress (log_via obj l t args).
Proof.
  apply keeps_bind; [apply keeps_global_name |].
  intros _. now apply keeps_emit.
Qed.

Lemma keeps_for_each {A} (xs : list A) (body : A -> M unit) :
  (forall x, keeps_progress (body x)) -> keeps_progress (for_each xs body).
Proof.
  intros Hb. induction xs as [|x xs IH]; simpl.
  - apply keeps_ret.
  - apply keeps_bind; [apply Hb | intros _; exact IH].
Qed.

Lemma keeps_set_micro_steps :
  keeps_progress (set_self (fun e' => set_micro_steps (micro_steps e' + 1) e')).
Proof. intros w; reflexivity. Qed.

Lemma keeps_is_boundary : keeps_progress is_gradient_accumulation_boundary.
Proof.
  apply keeps_bind; [apply keeps_get_self | intros e].
  apply keeps_bind; [apply keeps_lift | intros r; apply keeps_ret].
Qed.

Lemma keeps_get_optimizer_param (name : string) :
  keeps_progress (_get_optimizer_param name).
Proof.
  apply keeps_bind; [apply keeps_get_self | intros e].
  destruct (optimizer e); apply keeps_ret.
Qed.

Lemma keeps_report_progress (n : Z) : keeps_progress (_report_progress n).
Proof.
  apply keeps_bind; [apply keeps_get_self | intros e].
  apply keeps_bind; [apply keeps_get_optimizer_param | intros lr].
  apply keeps_bind; [apply keeps_get_optimizer_param | intros mom].
  apply keeps_log_via.
Qed.

Lemma keeps_step_epilogue (rp : bool) : keeps_progress (step_epilogue rp).
Proof.
  apply keeps_bind; [apply keeps_get_self | intros e].
  apply keeps_bind; [now apply keeps_emit | intros _].
  apply keeps_bind.
  { apply keeps_when.
    apply keeps_bind; [apply keeps_is_boundary | intros b].
    apply keeps_when.
    apply keeps_bind; [apply keeps_get_optimizer_param | intros lr].
    destruct lr; [apply keeps_raise |].
    apply keeps_bind; [now apply keeps_emit | intros _; now apply keeps_emit]. }
  intros _. apply keeps_bind; [| intros _; apply keeps_set_micro_steps].
  apply keeps_when.
  repeat (apply keeps_bind; [now apply keeps_emit | intros _]).
  apply keeps_bind; [apply keeps_is_boundary | intros b].
  apply keeps_bind.
  { apply keeps_when.
    apply keeps_bind; [| intros _; now apply keeps_emit].
    apply keeps_for_each. intros x. now apply keeps_emit. }
  intros _. apply keeps_when. now apply keeps_emit.
Qed.

End Facts.

(** ** The boundary predicate and the step *)

Section StepFacts.
Context `{Collaborators}.

(** The predicate reads the engine and changes nothing. *)
Lemma is_boundary_run (w : World) :
  is_gradient_accumulation_boundary w
  = (rbind (Py.modulo (micro_steps (self w) + 1)
                      (gradient_accumulation_steps (_config (self w))))
           (fun r => Return (r =? 0)), w).
Proof.
  unfold is_gradient_accumulation_boundary, bind, get_self, lift, ret.
  destruct (Py.modulo _ _); reflexivity.
Qed.

Lemma keeps_step_prologue : keeps_progress step_prologue.
Proof.
  apply keeps_bind; [apply keeps_get_self | intros e].
  apply keeps_bind.
  - apply keeps_when.
    apply keeps_bind; [now apply keeps_emit | intros _; now apply keeps_emit].
  - intros _. destruct (optimizer e); [apply keeps_ret | apply keeps_raise].
Qed.

Lemma step_prologue_run (w : World) (o : Optimizer) :
  optimizer (self w) = Some o ->
  exists w1, step_prologue w = (Return tt, w1)
             /\ self w1 = self w /\ progress w1 = progress w.
Proof.
  intros Ho. pose proof (keeps_step_prologue w) as Hk. revert Hk.
  unfold step_prologue, bind, get_self, when.
  destruct (wall_clock_breakdown _); cbn; rewrite Ho; cbn; intros Hk;
    eexists; (split; [reflexivity | split; [reflexivity | exact Hk]]).
Qed.

(** The clipping at the head of the boundary block only writes events. *)
Lemma clipping_run (cfg : DeepSpeedConfig) (w : World) :
  exists w1,
    when (Py.positive (gradient_clipping cfg))
      (if negb (fp16_enabled cfg) && negb (amp_enabled cfg)
       then clip_fp32_gradients
       else if amp_enabled cfg
            then emit (ClipGradNorm true (gradient_clipping cfg))
            else ret tt) w = (Return tt, w1)
    /\ self w1 = self w /\ lr_scheduler_steps w1 = lr_scheduler_steps w.
Proof.
  destruct (Py.positive _); cbn; [| eexists; repeat split].
  destruct (fp16_enabled cfg), (amp_enabled cfg); cbn;
    eexists; (split; [reflexivity | split; [reflexivity |]]);
    unfold lr_scheduler_steps; cbn [trace];
    now rewrite ?count_snoc_other by reflexivity.
Qed.

Lemma same_but_optimizer_fields (e e' : DeepSpeedLight) :
  same_but_optimizer e e' ->
  skipped_steps e = skipped_steps e' /\ global_steps e = global_steps e'
  /\ lr_scheduler e = lr_scheduler e' /\ _config e = _config e'.
Proof.
  intros He. unfold same_but_optimizer in He.
  repeat split;
    [ apply (f_equal skipped_steps) in He | apply (f_equal global_steps) in He
    | apply (f_equal lr_scheduler) in He | apply (f_equal _config) in He ];
    exact He.
Qed.

Ltac count_steps :=
  unfold lr_scheduler_steps; cbn [trace];
  rewrite ?count_snoc_lr_step; rewrite ?count_snoc_other by reflexivity;
  try reflexivity.

Lemma call_optimizer_run (ev : event) (f : Optimizer -> Optimizer)
    (w : World) (o : Optimizer) :
  optimizer (self w) = Some o ->
  call_optimizer ev f w
  = (Return tt, {| self := set_optimizer (Some (f o)) (self w);
                   fs := fs w; trace := trace w ++ [ev] |}).
Proof.
  intros Ho. unfold call_optimizer, bind, get_self. cbn.
  rewrite Ho. reflexivity.
Qed.

(** After the zeroing of the gradients the engine holds the optimizer whose
    overflow attribute is read next. *)
Lemma zero_gradients_run (cfg : DeepSpeedConfig) (w : World) (o : Optimizer) :
  optimizer (self w) = Some (optimizer_step o) ->
  exists w1,
    (if negb (zero_enabled cfg) && negb (fp16_enabled cfg)
        && negb (amp_enabled cfg)
     then zero_grad
     else call_optimizer CallOptimizerZeroGrad optimizer_zero_grad) w
    = (Return tt, w1)
    /\ optimizer (self w1) = Some (optimizer_at_overflow_check cfg o)
    /\ same_but_optimizer (self w1) (self w)
    /\ lr_scheduler_steps w1 = lr_scheduler_steps w.
Proof.
  intros Ho. unfold optimizer_at_overflow_check.
  destruct (negb (zero_enabled _) && _ && _).
  - eexists; split; [reflexivity |]. cbn [self]. repeat split; [exact Ho |].
    count_steps.
  - erewrite call_optimizer_run by exact Ho.
    eexists; split; [reflexivity |]. cbn [self]. repeat split.
    count_steps.
Qed.

Lemma get_optimizer_param_run (name : string) (w : World) :
  exists l, _get_optimizer_param name w = (Return l, w).
Proof.
  unfold _get_optimizer_param, bind, get_self.
  destruct (optimizer (self w)); eexists; reflexivity.
Qed.

Lemma report_progress_run (n : Z) (w : World) :
  exists w1, _report_progress n w = (Return tt, w1)
             /\ self w1 = self w
             /\ lr_scheduler_steps w1 = lr_scheduler_steps w.
Proof.
  unfold _report_progress, get_lr, get_mom.
  rewrite (bind_return get_self _ w w (self w)) by reflexivity.
  destruct (get_optimizer_param_run "lr" w) as [lr Hlr].
  destruct (get_optimizer_param_run "betas" w) as [mom Hmom].
  rewrite (bind_return _ _ _ _ _ Hlr), (bind_return _ _ _ _ _ Hmom).
  eexists; split; [reflexivity |]. cbn [self].
  split; [reflexivity | count_steps].
Qed.

Lemma step_lr_scheduler_run (w : World) :
  exists w1, step_lr_scheduler w = (Return tt, w1)
    /\ skipped_steps (self w1) = skipped_steps (self w)
    /\ global_steps (self w1) = global_steps (self w)
    /\ _config (self w1) = _config (self w)
    /\ match lr_scheduler (self w) with
       | None => lr_scheduler (self w1) = None
                 /\ lr_scheduler_steps w1 = lr_scheduler_steps w
       | Some sch => lr_scheduler (self w1) = Some (lr_scheduler_step sch)
                     /\ lr_scheduler_steps w1 = S (lr_scheduler_steps w)
       end.
Proof.
  unfold step_lr_scheduler, bind, get_self. cbn.
  destruct (lr_scheduler (self w)) as [sch|] eqn:E; cbn.
  - eexists; split; [reflexivity |]. cbn [self]. repeat split.
    count_steps.
  - eexists; split; [reflexivity |]. repeat split. exact E.
Qed.

(** The world in which the overflow attribute is read. *)
Lemma take_model_step_head (rp : bool) (w : World) (o : Optimizer) :
  optimizer (self w) = Some o ->
  exists w3,
    optimizer (self w3)
      = Some (optimizer_at_overflow_check (_config (self w)) o)
    /\ same_but_optimizer (self w3) (self w)
    /\ lr_scheduler_steps w3 = lr_scheduler_steps w
    /\ take_model_step rp w
       = ((e1 <- get_self ;;
           (if match optimizer e1 with
               | Some o => match overflow o with Some b => b | None => false end
               | None => false
               end
            then set_self (fun e2 => set_skipped_steps (skipped_steps e2 + 1) e2)
            else
              step_lr_scheduler ;;;
              e2 <- get_self ;;
              if rp
              then r <- lift (Py.modulo (global_steps e2 + 1)
                                        (steps_per_print (_config e2))) ;;
                   when (r =? 0) (_report_progress (global_steps e2 + 1))
              else ret tt) ;;;
           set_self (fun e3 => set_global_steps (global_steps e3 + 1) e3)) w3).
Proof.
  intros Ho. unfold take_model_step.
  rewrite (bind_return get_self _ w w (self w)) by reflexivity.
  destruct (clipping_run (_config (self w)) w) as (w1 & Hclip & Hself1 & Hn1).
  rewrite (bind_return _ _ _ _ _ Hclip).
  erewrite bind_return;
    [| apply (call_optimizer_run _ _ w1 o); now rewrite Hself1].
  edestruct (zero_gradients_run (_config (self w))) as (w3 & Hz & Ho3 & Hsame & Hn3);
    [| rewrite (bind_return _ _ _ _ _ Hz)]; [reflexivity |].
  exists w3. repeat split; try assumption.
  - unfold same_but_optimizer in *. rewrite Hsame. cbn [self].
    now rewrite Hself1.
  - rewrite Hn3. rewrite <- Hn1. count_steps.
Qed.

Lemma take_model_step_overflow (rp : bool) (w : World) (o : Optimizer) :
  optimizer (self w) = Some o ->
  overflow (optimizer_at_overflow_check (_config (self w)) o) = Some true ->
  exists w1, take_model_step rp w = (Return tt, w1)
    /\ progress w1 = (skipped_steps (self w) + 1, global_steps (self w) + 1,
                      lr_scheduler (self w), lr_scheduler_steps w)
    /\ _config (self w1) = _config (self w).
Proof.
  intros Ho Hovf.
  destruct (take_model_step_head rp w o Ho) as (w3 & Ho3 & Hsame & Hn3 & ->).
  apply same_but_optimizer_fields in Hsame as (Hs & Hg & Hl & Hc).
  unfold bind, get_self. rewrite Ho3, Hovf. cbn.
  eexists; split; [reflexivity |].
  unfold progress, lr_scheduler_steps in *. cbn.
  rewrite Hs, Hg, Hl. split; [f_equal; exact Hn3 | exact Hc].
Qed.

Lemma take_model_step_no_overflow (rp : bool) (w : World) (o : Optimizer) :
  optimizer (self w) = Some o ->
  overflow (optimizer_at_overflow_check (_config (self w)) o) <> Some true ->
  rp = false \/ steps_per_print (_config (self w)) <> 0 ->
  exists w1, take_model_step rp w = (Return tt, w1)
    /\ skipped_steps (self w1) = skipped_steps (self w)
    /\ global_steps (self w1) = global_steps (self w) + 1
    /\ _config (self w1) = _config (self w)
    /\ match lr_scheduler (self w) with
       | None => lr_scheduler (self w1) = None
                 /\ lr_scheduler_steps w1 = lr_scheduler_steps w
       | Some sch => lr_scheduler (self w1) = Some (lr_scheduler_step sch)
                     /\ lr_scheduler_steps w1 = S (lr_scheduler_steps w)
       end.
Proof.
  intros Ho Hovf Hrp.
  destruct (take_model_step_head rp w o Ho) as (w3 & Ho3 & Hsame & Hn3 & ->).
  apply same_but_optimizer_fields in Hsame as (Hs & Hg & Hl & Hc).
  rewrite (bind_return get_self _ w3 w3 (self w3)) by reflexivity.
  rewrite Ho3.
  assert (Hflag : match overflow (optimizer_at_overflow_check
                                    (_config (self w)) o) with
                  | Some b => b
                  | None => false
                  end = false).
  { destruct (overflow _) as [[|]|]; [congruence | reflexivity | reflexivity]. }
  rewrite Hflag.
  destruct (step_lr_scheduler_run w3) as (w4 & Hrun & Hs4 & Hg4 & Hc4 & Hsch).
  assert (Hreport : exists w5,
    (e2 <- get_self ;;
     if rp
     then r <- lift (Py.modulo (global_steps e2 + 1)
                               (steps_per_print (_config e2))) ;;
          when (r =? 0) (_report_progress (global_steps e2 + 1))
     else ret tt) w4 = (Return tt, w5)
    /\ self w5 = self w4 /\ lr_scheduler_steps w5 = lr_scheduler_steps w4).
  { rewrite (bind_return get_self _ w4 w4 (self w4)) by reflexivity.
    destruct rp; [| exists w4; repeat split].
    destruct Hrp as [Hrp|Hrp]; [discriminate |].
    unfold Py.modulo. rewrite Hc4, Hc.
    apply Z.eqb_neq in Hrp. rewrite Hrp.
    erewrite bind_return by reflexivity.
    destruct (_ mod _ =? 0); unfold when; [apply report_progress_run |].
    exists w4; repeat split. }
  destruct Hreport as (w5 & Hrep & Hself5 & Hn5).
  unfold bind at 1. unfold bind at 1. rewrite Hrun, Hrep.
  eexists; split; [reflexivity |].
  unfold lr_scheduler_steps in *. simpl.
  rewrite Hself5, Hs4, Hg4, Hs, Hg, Hc4, Hc. repeat split.
  rewrite Hl in Hsch. rewrite Hn5.
  destruct (lr_scheduler (self w)); destruct Hsch as [Ha Hb];
    (split; [exact Ha | now rewrite Hb, Hn3]).
Qed.

(** C4: with an accumulation-step count K >= 1,
    [is_gradient_accumulation_boundary] returns without touching the engine,
    and it returns true exactly when [(micro_steps + 1) % K == 0], that is
    when K divides the number of the micro step being taken; with K = 1 it
    is true at every micro step. *)
Theorem boundary_iff_micro_step_closes_cycle (w : World) :
  let m := micro_steps (self w) in
  let K := gradient_accumulation_steps (_config (self w)) in
  1 <= K ->
  exists b : bool,
    is_gradient_accumulation_boundary w = (Return b, w)
    /\ (b = true <-> (m + 1) mod K = 0)
    /\ (b = true <-> (K | m + 1))
    /\ (K = 1 -> b = true).
Proof.
  intros m K HK. rewrite is_boundary_run. fold m K.
  unfold Py.modulo. destruct (Z.eqb_spec K 0) as [HK0|HK0]; [lia |].
  cbn [rbind]. exists ((m + 1) mod K =? 0). split; [reflexivity |].
  split; [apply Z.eqb_eq |]. split.
  - rewrite Z.eqb_eq. now rewrite Z.mod_divide by exact HK0.
  - intros ->. rewrite Z.mod_1_r. reflexivity.
Qed.

(** Without summaries to write, the end of [step] cannot fail. *)
Lemma step_epilogue_returns (rp : bool) (w : World) :
  tensorboard_enabled (_config (self w)) = false ->
  gradient_accumulation_steps (_config (self w)) <> 0 ->
  fst (step_epilogue rp w) = Return tt.
Proof.
  intros Htb Hgas. unfold step_epilogue.
  rewrite (bind_return get_self _ w w (self w)) by reflexivity.
  rewrite Htb. cbn [when]. unfold bind at 1. cbn [emit].
  unfold bind at 1. cbn [ret].
  destruct (wall_clock_breakdown (_config (self w))); cbn [when];
    [| reflexivity].
  unfold bind at 1. unfold bind at 1. cbn [emit].
  unfold bind at 1. cbn [emit]. unfold bind at 1. cbn [emit].
  unfold bind at 1. rewrite is_boundary_run. cbn [self].
  unfold Py.modulo. apply Z.eqb_neq in Hgas. rewrite Hgas. cbn [rbind].
  rewrite andb_false_r. cbn. reflexivity.
Qed.

(** C1, as amended: a call of [step] at an accumulation boundary, with an
    optimizer present.  When the optimizer's overflow flag is set after its
    step, [skipped_steps] goes up by exactly 1, the scheduler is left as it
    was and its [step()] is not called, and [global_steps] goes up by exactly
    1 as well: the counter is advanced at every boundary, skipped or not.
    When the flag is not set (and the progress report cannot divide by a zero
    [steps_per_print]), [skipped_steps] stays, [global_steps] goes up by
    exactly 1, and the scheduler, when there is one, is advanced by exactly
    one call of its [step()].  In both cases [step] returns when no summary
    is to be written; the counters are as stated also when writing the
    summary fails. *)
Theorem step_at_boundary_counts (w : World) (o : Optimizer) :
  optimizer (self w) = Some o ->
  fst (is_gradient_accumulation_boundary w) = Return true ->
  let flag := overflow (optimizer_at_overflow_check (_config (self w)) o) in
  let w' := snd (step w) in
  (flag = Some true ->
   skipped_steps (self w') = skipped_steps (self w) + 1
   /\ global_steps (self w') = global_steps (self w) + 1
   /\ lr_scheduler (self w') = lr_scheduler (self w)
   /\ lr_scheduler_steps w' = lr_scheduler_steps w
   /\ (tensorboard_enabled (_config (self w)) = false ->
       fst (step w) = Return tt))
  /\ (flag <> Some true ->
      report_progress_of (self w) = false
      \/ steps_per_print (_config (self w)) <> 0 ->
      skipped_steps (self w') = skipped_steps (self w)
      /\ global_steps (self w') = global_steps (self w) + 1
      /\ match lr_scheduler (self w) with
         | None => lr_scheduler (self w') = None
                   /\ lr_scheduler_steps w' = lr_scheduler_steps w
         | Some sch => lr_scheduler (self w') = Some (lr_scheduler_step sch)
                       /\ lr_scheduler_steps w' = S (lr_scheduler_steps w)
         end
      /\ (tensorboard_enabled (_config (self w)) = false ->
          fst (step w) = Return tt)).
Proof.
  intros Ho Hb flag w'. subst flag w'. unfold step.
  destruct (step_prologue_run w o Ho) as (w1 & Hpro & Hself1 & Hp1).
  rewrite (bind_return _ _ _ _ _ Hpro).
  rewrite (bind_return get_self _ w1 w1 (self w1)) by reflexivity.
  rewrite is_boundary_run in Hb. cbn [fst] in Hb.
  assert (Hgas : gradient_accumulation_steps (_config (self w)) <> 0).
  { intros Hz. unfold Py.modulo in Hb. rewrite Hz in Hb. discriminate. }
  erewrite bind_return; [| rewrite is_boundary_run, Hself1, Hb; reflexivity].
  unfold when. rewrite Hself1.
  assert (Ho1 : optimizer (self w1) = Some o) by now rewrite Hself1.
  assert (Hn1 : lr_scheduler_steps w1 = lr_scheduler_steps w).
  { now apply (f_equal snd) in Hp1. }
  split.
  - intros Hflag. rewrite <- Hself1 in Hflag.
    destruct (take_model_step_overflow (report_progress_of (self w)) w1 o
                Ho1 Hflag) as (w2 & Hrun & Hp2 & Hc2).
    rewrite (bind_return _ _ _ _ _ Hrun).
    pose proof (keeps_step_epilogue (report_progress_of (self w)) w2) as Hk.
    rewrite Hp2 in Hk. unfold progress in Hk.
    injection Hk as -> -> -> ->. rewrite Hself1, Hn1.
    repeat split. intros Htb.
    apply step_epilogue_returns; rewrite Hc2, Hself1; assumption.
  - intros Hflag Hrp. rewrite <- Hself1 in Hflag, Hrp.
    destruct (take_model_step_no_overflow (report_progress_of (self w)) w1 o
                Ho1 Hflag) as (w2 & Hrun & Hs2 & Hg2 & Hc2 & Hsch).
    { now rewrite Hself1 in *. }
    rewrite (bind_return _ _ _ _ _ Hrun).
    pose proof (keeps_step_epilogue (report_progress_of (self w)) w2) as Hk.
    unfold progress in Hk. injection Hk as -> -> -> ->.
    rewrite Hs2, Hg2. rewrite Hself1 in *. rewrite Hn1 in Hsch.
    repeat split; [exact Hsch |]. intros Htb.
    apply step_epilogue_returns; rewrite Hc2; assumption.
Qed.

End StepFacts.

Lemma boundary_iff_micro_step_closes_cycle_witness :
  let w := Sample.world_with None 2 1 in
  exists b : bool,
    is_gradient_accumulation_boundary w = (Return b, w)
    /\ (b = true <-> (1 + 1) mod 2 = 0)
    /\ (b = true <-> (2 | 1 + 1))
    /\ (2 = 1 -> b = true).
Proof.
  intros w.
  apply (boundary_iff_micro_step_closes_cycle w).
  vm_compute. discriminate.
Defined.

(** The end-to-end scenario of the specification: accumulation over K = 2
    micro steps, four micro steps without overflow; two of them are
    boundaries and [global_steps] goes from 0 to 2. *)
Example four_micro_steps_two_boundaries :
  let run := @step Sample.toy ;;; @step Sample.toy ;;;
             @step Sample.toy ;;; @step Sample.toy in
  let w' := snd (run (Sample.world_with (Some false) 2 0)) in
  global_steps (self w') = 2 /\ micro_steps (self w') = 4
  /\ skipped_steps (self w') = 0 /\ lr_scheduler_steps w' = 2%nat.
Proof. vm_compute. repeat split. Qed.

(** C1, counterexample: one micro step per cycle, the optimizer reports an
    overflow; the step is a boundary, it is counted as skipped, and
    [global_steps] goes from 0 to 1 all the same. *)
Lemma overflow_step_advances_global_steps :
  let w := Sample.world_with (Some true) 1 0 in
  let w' := snd (@step Sample.toy w) in
  fst (is_gradient_accumulation_boundary w) = Return true
  /\ (exists o, optimizer (self w) = Some o
        /\ overflow (@optimizer_at_overflow_check Sample.toy
                       (_config (self w)) o) = Some true)
  /\ skipped_steps (self w') = skipped_steps (self w) + 1
  /\ global_steps (self w) = 0
  /\ global_steps (self w') = 1.
Proof.
  vm_compute. repeat split.
  eexists. split; reflexivity.
Qed.

Lemma step_at_boundary_counts_witness :
  let w := Sample.world_with (Some true) 1 0 in
  let w' := snd (@step Sample.toy w) in
  skipped_steps (self w') = skipped_steps (self w) + 1
  /\ global_steps (self w') = global_steps (self w) + 1
  /\ lr_scheduler (self w') = lr_scheduler (self w)
  /\ lr_scheduler_steps w' = lr_scheduler_steps w
  /\ (tensorboard_enabled (_config (self w)) = false ->
      fst (@step Sample.toy w) = Return tt).
Proof.
  intros w w'.
  apply (proj1 (@step_at_boundary_counts Sample.toy w
                  (Sample.optimizer0 (Some true)) eq_refl eq_refl)).
  reflexivity.
Defined.

End StepControl.

(** * Construction of the ZeRO optimizer *)

Module ZeroOptimizer.
Local Open Scope string_scope.
Local Open Scope Z_scope.

(** Modelled from the spec: the two stage constants are imported from
    [deepspeed_constants.py], which is not among the sources; the
    specification numbers the stages 1 (optimizer-state sharding only) and
    2 (gradient and optimizer-state sharding). *)
Definition ZERO_OPTIMIZATION_OPTIMIZER_STATES : Z := 1.
Definition ZERO_OPTIMIZATION_GRADIENTS : Z := 2.

(** The wrappers are built by classes of [zero_optimizer_stage1.py] and
    [deepspeed_zero_optimizer.py]; what the engine contributes is the choice
    of the class and the arguments it passes, which is what a wrapper holds
    here. *)
Record Stage1Args : Type := {
  s1_static_loss_scale : Q;
  s1_dynamic_loss_scale : bool;
  s1_dynamic_loss_args : PyVal;
  s1_clip_grad : Q;
  s1_all_gather_partitions : bool;
  s1_allgather_size : Z;
  s1_max_elements_per_comm : Z
}.

Record Stage2Args : Type := {
  s2_static_loss_scale : Q;
  s2_dynamic_loss_scale : bool;
  s2_dynamic_loss_args : PyVal;
  s2_clip_grad : Q;
  s2_contiguous_gradients : bool;
  s2_reduce_bucket_size : Z;
  s2_allgather_bucket_size : Z;
  s2_reduce_scatter : bool;
  s2_overlap_comm : bool;
  s2_postscale_gradients : bool;
  s2_gradient_predivide_factor : Q
}.

Inductive ZeroWrapper : Type :=
| FP16_DeepSpeedZeroOptimizer_Stage1 (inner : Optimizer) (args : Stage1Args)
| FP16_DeepSpeedZeroOptimizer (inner : Optimizer) (args : Stage2Args).

(** [self._config.loss_scale == 0] *)
Definition dynamic_loss_scale (cfg : DeepSpeedConfig) : bool :=
  Qeq_bool (loss_scale cfg) 0.

Definition postscale_gradients (cfg : DeepSpeedConfig) : bool :=
  negb (prescale_gradients cfg).

Definition assert (cond : bool) (msg : string) : M unit :=
  if cond then ret tt else raise (AssertionError msg).

Definition stage1_message : string :=
  "Stage 1 only supports reduce scatter mode".

Definition stage2_message : string :=
  "ZeRO stage 2 does not support gradient accumulation, if you need gradient accumulation please use stage 1".

Definition _configure_zero_optimizer (optimizer : Optimizer) : M ZeroWrapper :=
  e <- get_self ;;
  let cfg := _config e in
  let zero_stage := zero_optimization_stage cfg in
  log_via "logger" Info "Creating fp16 ZeRO stage {} optimizer"
    [Py.str_int zero_stage] ;;;
  if zero_stage =? ZERO_OPTIMIZATION_OPTIMIZER_STATES then
    assert (reduce_scatter (zero_config cfg)) stage1_message ;;;
    ret (FP16_DeepSpeedZeroOptimizer_Stage1 optimizer
           {| s1_static_loss_scale := loss_scale cfg;
              s1_dynamic_loss_scale := dynamic_loss_scale cfg;
              s1_dynamic_loss_args := dynamic_loss_scale_args cfg;
              s1_clip_grad := gradient_clipping cfg;
              s1_all_gather_partitions := allgather_partitions (zero_config cfg);
              s1_allgather_size := allgather_bucket_size (zero_config cfg);
              s1_max_elements_per_comm := reduce_bucket_size (zero_config cfg) |})
  else if zero_stage =? ZERO_OPTIMIZATION_GRADIENTS then
    assert (gradient_accumulation_steps cfg =? 1) stage2_message ;;;
    ret (FP16_DeepSpeedZeroOptimizer optimizer
           {| s2_static_loss_scale := loss_scale cfg;
              s2_dynamic_loss_scale := dynamic_loss_scale cfg;
              s2_dynamic_loss_args := dynamic_loss_scale_args cfg;
              s2_clip_grad := gradient_clipping cfg;
              s2_contiguous_gradients := contiguous_gradients (zero_config cfg);
              s2_reduce_bucket_size := reduce_bucket_size (zero_config cfg);
              s2_allgather_bucket_size := allgather_bucket_size (zero_config cfg);
              s2_reduce_scatter := reduce_scatter (zero_config cfg);
              s2_overlap_comm := overlap_comm (zero_config cfg);
              s2_postscale_gradients := postscale_gradients cfg;
              s2_gradient_predivide_factor := gradient_predivide_factor cfg |})
  else
    raise (NotImplementedError
             ("ZeRO stage " +:+ Py.str_int zero_stage +:+ " not implemented")).

(** The combinations the specification forbids, and the ones it allows. *)
Definition forbidden (cfg : DeepSpeedConfig) : Prop :=
  (zero_optimization_stage cfg = 1 /\ reduce_scatter (zero_config cfg) = false)
  \/ (zero_optimization_stage cfg = 2 /\ gradient_accumulation_steps cfg > 1).

Definition allowed (cfg : DeepSpeedConfig) : Prop :=
  (zero_optimization_stage cfg = 1 /\ reduce_scatter (zero_config cfg) = true)
  \/ (zero_optimization_stage cfg = 2 /\ gradient_accumulation_steps cfg = 1).

Definition is_assertion_error {A} (r : result A) : Prop :=
  match r with
  | Raise (AssertionError _) => True
  | _ => False
  end.

(** Configurations of the three kinds, to evaluate the method on. *)
Definition config_with (stage : Z) (rs : bool) (gas : Z) : DeepSpeedConfig :=
  let c := Sample.config0 in
  Build_DeepSpeedConfig (tensorboard_enabled c) (wall_clock_breakdown c)
    (memory_breakdown c) (sparse_gradients_enabled c) true stage
    (Build_ZeroConfig rs false 500000000 500000000 true false true)
    (fp16_enabled c) (amp_enabled c) (loss_scale c)
    (dynamic_loss_scale_args c) gas (allreduce_always_fp32 c)
    (prescale_gradients c) (gradient_predivide_factor c) (steps_per_print c)
    (gradient_clipping c).

Definition world_with_config (cfg : DeepSpeedConfig) : World :=
  let e := Sample.engine0 in
  {| self :=
       Build_DeepSpeedLight cfg (mpu e) (module e) None None (global_rank e)
         (world_size e) (dp_world_size e) (mp_world_size e) (global_steps e)
         (micro_steps e) (skipped_steps e) (sample_count e)
         (gradient_average e) (csr_tensor_module_names e)
         (loaded_checkpoint_mp_world_size e)
         (loaded_checkpoint_dp_world_size e) (save_non_zero_checkpoint e)
         (save_zero_checkpoint e);
     fs := Sample.fs0; trace := [] |}.

(** ** Rejected and accepted configurations *)

(** C5: [_configure_zero_optimizer], the method the constructor of the
    engine runs to build the ZeRO optimizer, leaves the engine as it is (no
    step has been taken or is taken by it) and: in every forbidden
    configuration, stage 1 without reduce-scatter or stage 2 with more than
    one accumulation step, it fails with an assertion error; in every allowed
    configuration, stage 1 with reduce-scatter or stage 2 with one
    accumulation step, it returns the wrapper of that stage. *)
Theorem zero_construction_rejects_exactly_forbidden (w : World)
    (o : Optimizer) :
  let cfg := _config (self w) in
  let out := _configure_zero_optimizer o w in
  self (snd out) = self w
  /\ (forbidden cfg -> is_assertion_error (fst out))
  /\ (allowed cfg ->
      exists z, fst out = Return z
                /\ match z with
                   | FP16_DeepSpeedZeroOptimizer_Stage1 inner _ =>
                       zero_optimization_stage cfg = 1 /\ inner = o
                   | FP16_DeepSpeedZeroOptimizer inner _ =>
                       zero_optimization_stage cfg = 2 /\ inner = o
                   end).
Proof.
  intros cfg out. subst cfg out. unfold _configure_zero_optimizer.
  unfold bind, get_self. rewrite log_via_logger_run.
  unfold ZERO_OPTIMIZATION_OPTIMIZER_STATES, ZERO_OPTIMIZATION_GRADIENTS.
  unfold forbidden, allowed, assert. cbv zeta.
  destruct (Z.eqb_spec (zero_optimization_stage (_config (self w))) 1) as [H1|H1].
  - destruct (reduce_scatter (zero_config (_config (self w)))); cbn.
    + split; [reflexivity |]. split.
      * intros [[_ Hrs]|[H2 _]]; [discriminate | lia].
      * intros _. eexists. split; [reflexivity |]. now split.
    + split; [reflexivity |]. split; [intros _; exact I |].
      intros [[_ Hrs]|[H2 _]]; [discriminate | lia].
  - destruct (Z.eqb_spec (zero_optimization_stage (_config (self w))) 2) as [H2|H2].
    + destruct (Z.eqb_spec (gradient_accumulation_steps (_config (self w))) 1) as [Hg|Hg]; cbn.
      * split; [reflexivity |]. split.
        -- intros [[H1' _]|[_ Hgas]]; [contradiction | lia].
        -- intros _. eexists. split; [reflexivity |]. now split.
      * split; [reflexivity |]. split; [intros _; exact I |].
        intros [[H1' _]|[_ Hgas]]; [contradiction | contradiction].
    + cbn. split; [reflexivity |]. split.
      * intros [[H1' _]|[H2' _]]; contradiction.
      * intros [[H1' _]|[H2' _]]; contradiction.
Qed.

Lemma zero_construction_rejects_exactly_forbidden_witness :
  is_assertion_error
    (fst (_configure_zero_optimizer (Sample.optimizer0 None)
            (world_with_config (config_with 2 true 4))))
  /\ exists z,
       fst (_configure_zero_optimizer (Sample.optimizer0 None)
              (world_with_config (config_with 1 true 4))) = Return z.
Proof.
  split.
  - apply (zero_construction_rejects_exactly_forbidden
             (world_with_config (config_with 2 true 4))
             (Sample.optimizer0 None)).
    right. split; [reflexivity | vm_compute; reflexivity].
  - destruct (proj2 (proj2 (zero_construction_rejects_exactly_forbidden
                              (world_with_config (config_with 1 true 4))
                              (Sample.optimizer0 None))))
      as (z & Hz & _).
    + left. split; reflexivity.
    + exists z. exact Hz.
Defined.

Example stage1_allreduce_rejected :
  fst (_configure_zero_optimizer (Sample.optimizer0 None)
         (world_with_config (config_with 1 false 1)))
  = Raise (AssertionError stage1_message).
Proof. reflexivity. Qed.

Example stage2_accumulation_rejected :
  fst (_configure_zero_optimizer (Sample.optimizer0 None)
         (world_with_config (config_with 2 true 4)))
  = Raise (AssertionError stage2_message).
Proof. reflexivity. Qed.

Example stage2_single_step_accepted :
  returns (fst (_configure_zero_optimizer (Sample.optimizer0 None)
                  (world_with_config (config_with 2 false 1)))) = true.
Proof. reflexivity. Qed.

End ZeroOptimizer.

(** * Dense gradient reduction *)

Module Reduce.
Local Open Scope Q_scope.

(** The ranks of the data-parallel group run the same code on tensors of the
    same shape.  A tensor of the group is held element by element: an element
    is the list of the values it has on the ranks, in rank order, so that
    what one rank does to its tensor is done to every value of every element
    and a collective combines the values of each element. *)
Definition Elem : Type := list Q.
Definition Tensor : Type := list Elem.

Definition numel (t : Tensor) : Z := Z.of_nat (length t).

(** [flatten]: the tensors of a bucket, one after the other, in one buffer.
    It concatenates, and the concatenation of no tensor at all is an error:
    [torch.cat] raises [RuntimeError] on an empty list. *)
Definition flatten (bucket : list Tensor) : result Tensor :=
  match bucket with
  | [] => Raise (RuntimeError "flatten: expected a non-empty list of tensors")
  | _ :: _ => Return (concat bucket)
  end.

(** [unflatten(flat, tensors)]: the buffer cut into views of the sizes of
    [tensors]. *)
Fixpoint unflatten (flat : Tensor) (tensors : list Tensor) : list Tensor :=
  match tensors with
  | [] => []
  | t :: rest =>
      firstn (length t) flat :: unflatten (skipn (length t) flat) rest
  end.

Definition mul_ (c : Q) (t : Tensor) : Tensor :=
  map (map (fun x => x * c)) t.

Definition div_ (c : Q) (t : Tensor) : Tensor :=
  map (map (fun x => x / c)) t.

Definition sum_ranks (e : Elem) : Q := fold_right Qplus 0 e.

(** [dist.all_reduce]: every rank ends with the sum over the ranks. *)
Definition all_reduce (t : Tensor) : Tensor :=
  map (fun e => repeat (sum_ranks e) (length e)) t.

(** A cast to single precision keeps every value: arithmetic is exact. *)
Definition float (t : Tensor) : Tensor := t.

(** [a / b] on Python numbers. *)
Definition py_div (a b : Q) : result Q :=
  if Qeq_bool b 0 then Raise ZeroDivisionError else Return (a / b).

Definition postscale_gradients (e : DeepSpeedLight) : bool :=
  negb (prescale_gradients (_config e)).

(** [allreduce_bucket] returns the reduced flat buffer.  [dp_world_size] is
    the size of a process group and is not zero; the prescale branch divides
    tensors by it, which has no exact value at zero. *)
Definition allreduce_bucket (e : DeepSpeedLight) (bucket : list Tensor)
    : result Tensor :=
  let f := gradient_predivide_factor (_config e) in
  let W := inject_Z (dp_world_size e) in
  rbind (flatten bucket) (fun tensor =>
  let tensor_to_allreduce :=
    if allreduce_always_fp32 (_config e) then float tensor else tensor in
  rbind
    (if postscale_gradients e then
       rbind
         (if negb (Qeq_bool f 1)
          then rbind (py_div 1 f) (fun c => Return (mul_ c tensor_to_allreduce))
          else Return tensor_to_allreduce)
         (fun scaled =>
            let summed := all_reduce scaled in
            if gradient_average e then
              if negb (Qeq_bool f W)
              then rbind (py_div f W) (fun c => Return (mul_ c summed))
              else Return summed
            else Return summed)
     else
       Return (all_reduce (div_ W tensor_to_allreduce)))
    (fun reduced =>
       (* [tensor.copy_(tensor_to_allreduce)] when a cast made a copy *)
       Return reduced)).

(** [allreduce_and_copy] leaves in each buffer of the bucket its part of the
    reduced flat buffer; the result lists the buffers as they are then. *)
Definition allreduce_and_copy (e : DeepSpeedLight) (small_bucket : list Tensor)
    : result (list Tensor) :=
  rbind (allreduce_bucket e small_bucket)
        (fun allreduced => Return (unflatten allreduced small_bucket)).

(** The loop of [allreduce_no_retain], from the tensors still to visit, the
    bucket being filled and its element count; the result lists the tensors
    from the bucket being filled on, as they are when the method returns. *)
Fixpoint allreduce_no_retain_from (e : DeepSpeedLight) (bucket : list Tensor)
    (small_bucket : list Tensor) (numel_so_far : Z) (numel_per_bucket : Z)
    : result (list Tensor) :=
  match bucket with
  | [] =>
      if (0 <? length small_bucket)%nat
      then allreduce_and_copy e small_bucket
      else Return []
  | tensor :: rest =>
      let small_bucket := small_bucket ++ [tensor] in
      let numel_so_far := (numel_so_far + numel tensor)%Z in
      if (numel_per_bucket <? numel_so_far)%Z
      then rbind (allreduce_and_copy e small_bucket)
             (fun synced =>
                rbind (allreduce_no_retain_from e rest [] 0 numel_per_bucket)
                      (fun later => Return (synced ++ later)))
      else allreduce_no_retain_from e rest small_bucket numel_so_far
             numel_per_bucket
  end.

Definition allreduce_no_retain (e : DeepSpeedLight) (bucket : list Tensor)
    (numel_per_bucket : Z) : result (list Tensor) :=
  allreduce_no_retain_from e bucket [] 0 numel_per_bucket.

(** The reduction the specification compares with: one collective call per
    tensor. *)
Fixpoint naive_allreduce (e : DeepSpeedLight) (bucket : list Tensor)
    : result (list Tensor) :=
  match bucket with
  | [] => Return []
  | tensor :: rest =>
      rbind (allreduce_and_copy e [tensor])
            (fun synced =>
               rbind (naive_allreduce e rest)
                     (fun later => Return (synced ++ later)))
  end.

(** The small buckets [allreduce_no_retain] hands to [allreduce_and_copy],
    in the order of the calls. *)
Fixpoint flushes_from (bucket : list Tensor) (small_bucket : list Tensor)
    (numel_so_far : Z) (numel_per_bucket : Z) : list (list Tensor) :=
  match bucket with
  | [] => if (0 <? length small_bucket)%nat then [small_bucket] else []
  | tensor :: rest =>
      let small_bucket := small_bucket ++ [tensor] in
      let numel_so_far := (numel_so_far + numel tensor)%Z in
      if (numel_per_bucket <? numel_so_far)%Z
      then small_bucket :: flushes_from rest [] 0 numel_per_bucket
      else flushes_from rest small_bucket numel_so_far numel_per_bucket
  end.

(** One [allreduce_and_copy] per small bucket, in order. *)
Fixpoint reduce_each (e : DeepSpeedLight) (groups : list (list Tensor))
    : result (list Tensor) :=
  match groups with
  | [] => Return []
  | small_bucket :: later_groups =>
      rbind (allreduce_and_copy e small_bucket)
            (fun synced =>
               rbind (reduce_each e later_groups)
                     (fun later => Return (synced ++ later)))
  end.

(** What [allreduce_bucket] does to a bucket that is not empty: an outcome
    that depends on the configuration only, either an exception or one
    function applied to every element of the flat buffer. *)
Inductive bucket_action (e : DeepSpeedLight) : Type :=
| Fails (ex : exn)
    (H : forall bucket, bucket <> [] -> allreduce_bucket e bucket = Raise ex)
| Elementwise (g : Elem -> Elem)
    (H : forall bucket, bucket <> [] ->
         allreduce_bucket e bucket = Return (map g (concat bucket))).

(** The tensor as rank [r] holds it. *)
Definition on_rank (r : nat) (t : Tensor) : list Q :=
  map (fun e => nth r e 0) t.

(** Rank [r] is one of the ranks that hold the tensor. *)
Definition holds (r : nat) (t : Tensor) : Prop :=
  Forall (fun e => (r < length e)%nat) t.

(** The average over the ranks, the value the specification gives. *)
Definition average (W : Q) (t : Tensor) : Tensor :=
  map (fun e => repeat (sum_ranks e / W) (length e)) t.

(** Equality of tensors up to the equality of rationals. *)
Definition tensor_eq (a b : Tensor) : Prop := Forall2 (Forall2 Qeq) a b.

(** The engine with the scaling mode chosen. *)
Definition with_prescale (b : bool) (e : DeepSpeedLight) : DeepSpeedLight :=
  let c := _config e in
  Build_DeepSpeedLight
    (Build_DeepSpeedConfig (tensorboard_enabled c) (wall_clock_breakdown c)
       (memory_breakdown c) (sparse_gradients_enabled c) (zero_enabled c)
       (zero_optimization_stage c) (zero_config c) (fp16_enabled c)
       (amp_enabled c) (loss_scale c) (dynamic_loss_scale_args c)
       (gradient_accumulation_steps c) (allreduce_always_fp32 c) b
       (gradient_predivide_factor c) (steps_per_print c)
       (gradient_clipping c))
    (mpu e) (module e) (optimizer e) (lr_scheduler e) (global_rank e)
    (world_size e) (dp_world_size e) (mp_world_size e) (global_steps e)
    (micro_steps e) (skipped_steps e) (sample_count e) (gradient_average e)
    (csr_tensor_module_names e) (loaded_checkpoint_mp_world_size e)
    (loaded_checkpoint_dp_world_size e) (save_non_zero_checkpoint e)
    (save_zero_checkpoint e).

(** ** The group seen from one rank

    What the operations on tensors of the group are for a rank: its own
    buffers are concatenated and scaled, and a collective leaves it the sum
    of the values of the ranks. *)

Lemma flatten_nonempty (bucket : list Tensor) :
  bucket <> [] -> flatten bucket = Return (concat bucket).
Proof. destruct bucket; [intros Hne; now elim Hne | reflexivity]. Qed.

Lemma on_rank_flatten (r : nat) (bucket : list Tensor) :
  on_rank r (concat bucket) = concat (map (on_rank r) bucket).
Proof.
  unfold on_rank. apply concat_map.
Qed.

Lemma on_rank_mul_ (r : nat) (c : Q) (t : Tensor) :
  holds r t -> on_rank r (mul_ c t) = map (fun x => x * c) (on_rank r t).
Proof.
  unfold on_rank, mul_, holds. intros Hr. rewrite !List.map_map.
  apply map_ext_in. intros e He.
  rewrite List.Forall_forall in Hr. specialize (Hr e He).
  rewrite (nth_indep _ 0 (0 * c)) by now rewrite List.length_map.
  now rewrite (map_nth (fun x => x * c)).
Qed.

Lemma on_rank_all_reduce (r : nat) (t : Tensor) :
  holds r t -> on_rank r (all_reduce t) = map sum_ranks t.
Proof.
  unfold on_rank, all_reduce, holds. intros Hr. rewrite List.map_map.
  apply map_ext_in. intros e He.
  rewrite List.Forall_forall in Hr. specialize (Hr e He).
  rewrite (nth_indep _ 0 (sum_ranks e)) by now rewrite repeat_length.
  apply nth_repeat.
Qed.

(** ** Bucketing against one call per tensor *)

Lemma firstn_length_app {A} (a b : list A) (n : nat) :
  n = length a -> firstn n (a ++ b) = a.
Proof.
  intros ->. now rewrite firstn_app, Nat.sub_diag, firstn_0, app_nil_r, firstn_all.
Qed.

Lemma skipn_length_app {A} (a b : list A) (n : nat) :
  n = length a -> skipn n (a ++ b) = b.
Proof.
  intros ->. now rewrite skipn_app, Nat.sub_diag, skipn_all.
Qed.

Lemma unflatten_map_flatten (g : Elem -> Elem) (bucket : list Tensor) :
  unflatten (map g (concat bucket)) bucket = map (map g) bucket.
Proof.
  induction bucket as [|t rest IH]; [reflexivity |].
  cbn [concat unflatten map]. rewrite map_app.
  rewrite firstn_length_app, skipn_length_app by now rewrite length_map.
  now rewrite IH.
Qed.

Ltac run_bucket :=
  let bucket := fresh "bucket" in
  let Hne := fresh "Hne" in
  intros bucket Hne; unfold allreduce_bucket, float, py_div;
  rewrite (flatten_nonempty bucket Hne); clear Hne;
  repeat match goal with E : _ = _ |- _ => rewrite E; clear E end;
  destruct (allreduce_always_fp32 _); cbn [rbind negb];
  unfold mul_, div_, all_reduce; rewrite ?map_map; reflexivity.

Lemma allreduce_bucket_action (e : DeepSpeedLight) : bucket_action e.
Proof.
  pose (f := gradient_predivide_factor (_config e)).
  pose (W := inject_Z (dp_world_size e)).
  pose (pre := map (fun v : Q => v * (1 / f))).
  pose (sum_all := fun x : Elem => repeat (sum_ranks x) (length x)).
  pose (post := map (fun v : Q => v * (f / W))).
  destruct (postscale_gradients e) eqn:Epost.
  - destruct (Qeq_bool (gradient_predivide_factor (_config e)) 1) eqn:Ef1.
    + destruct (gradient_average e) eqn:Eavg.
      * destruct (Qeq_bool (gradient_predivide_factor (_config e))
                           (inject_Z (dp_world_size e))) eqn:EfW.
        -- apply (Elementwise e sum_all). subst f W pre sum_all post.
           run_bucket.
        -- destruct (Qeq_bool (inject_Z (dp_world_size e)) 0) eqn:EW0.
           ++ apply (Fails e ZeroDivisionError). run_bucket.
           ++ apply (Elementwise e (fun x => post (sum_all x))).
              subst f W pre sum_all post. run_bucket.
      * apply (Elementwise e sum_all). subst f W pre sum_all post.
        run_bucket.
    + destruct (Qeq_bool (gradient_predivide_factor (_config e)) 0) eqn:Ef0.
      * apply (Fails e ZeroDivisionError). run_bucket.
      * destruct (gradient_average e) eqn:Eavg.
        -- destruct (Qeq_bool (gradient_predivide_factor (_config e))
                              (inject_Z (dp_world_size e))) eqn:EfW.
           ++ apply (Elementwise e (fun x => sum_all (pre x))).
              subst f W pre sum_all post. run_bucket.
           ++ destruct (Qeq_bool (inject_Z (dp_world_size e)) 0) eqn:EW0.
              ** apply (Fails e ZeroDivisionError). run_bucket.
              ** apply (Elementwise e (fun x => post (sum_all (pre x)))).
                 subst f W pre sum_all post. run_bucket.
        -- apply (Elementwise e (fun x => sum_all (pre x))).
           subst f W pre sum_all post. run_bucket.
  - apply (Elementwise e
             (fun x => sum_all (map (fun v : Q => v / W) x))).
    subst f W pre sum_all post. run_bucket.
Qed.

Lemma loop_is_reduce_each (e : DeepSpeedLight) (bucket small_bucket : list Tensor)
    (n npb : Z) :
  allreduce_no_retain_from e bucket small_bucket n npb
  = reduce_each e (flushes_from bucket small_bucket n npb).
Proof.
  revert small_bucket n.
  induction bucket as [|t rest IH]; intros small_bucket n.
  - cbn [allreduce_no_retain_from flushes_from].
    destruct (0 <? length small_bucket)%nat; [| reflexivity].
    cbn [reduce_each].
    destruct (allreduce_and_copy e small_bucket); [| reflexivity].
    cbn [rbind]. now rewrite app_nil_r.
  - cbn [allreduce_no_retain_from flushes_from].
    destruct (npb <? n + numel t)%Z.
    + cbn [reduce_each]. now rewrite IH.
    + apply IH.
Qed.

Lemma flushes_partition (bucket small_bucket : list Tensor) (n npb : Z) :
  concat (flushes_from bucket small_bucket n npb) = small_bucket ++ bucket.
Proof.
  revert small_bucket n.
  induction bucket as [|t rest IH]; intros small_bucket n.
  - cbn [flushes_from]. rewrite app_nil_r.
    destruct small_bucket; [reflexivity |]. cbn. now rewrite app_nil_r.
  - cbn [flushes_from].
    destruct (npb <? n + numel t)%Z.
    + cbn [concat]. rewrite IH. cbn [app]. now rewrite <- app_assoc.
    + rewrite IH. now rewrite <- app_assoc.
Qed.

Lemma flushes_nonempty (bucket small_bucket : list Tensor) (n npb : Z) :
  Forall (fun g => g <> []) (flushes_from bucket small_bucket n npb).
Proof.
  revert small_bucket n.
  induction bucket as [|t rest IH]; intros small_bucket n.
  - cbn [flushes_from]. destruct small_bucket; cbn; constructor;
      [discriminate | constructor].
  - cbn [flushes_from].
    destruct (npb <? n + numel t)%Z; [| apply IH].
    constructor; [| apply IH]. now destruct small_bucket.
Qed.

Lemma allreduce_and_copy_elementwise (e : DeepSpeedLight) (g : Elem -> Elem) :
  (forall bucket, bucket <> [] ->
     allreduce_bucket e bucket = Return (map g (concat bucket))) ->
  forall small_bucket,
    small_bucket <> [] ->
    allreduce_and_copy e small_bucket = Return (map (map g) small_bucket).
Proof.
  intros Hg small_bucket Hne. unfold allreduce_and_copy.
  rewrite (Hg _ Hne). cbn [rbind]. now rewrite unflatten_map_flatten.
Qed.

Lemma reduce_each_elementwise (e : DeepSpeedLight) (g : Elem -> Elem) :
  (forall bucket, bucket <> [] ->
     allreduce_bucket e bucket = Return (map g (concat bucket))) ->
  forall groups,
    Forall (fun sb => sb <> []) groups ->
    reduce_each e groups = Return (map (map g) (concat groups)).
Proof.
  intros Hg groups Hne. induction Hne as [|sb later Hsb Hlater IH];
    [reflexivity |].
  cbn [reduce_each concat].
  rewrite (allreduce_and_copy_elementwise e g Hg sb Hsb), IH. cbn [rbind].
  now rewrite map_app.
Qed.

Lemma reduce_each_fails (e : DeepSpeedLight) (ex : exn) :
  (forall bucket, bucket <> [] -> allreduce_bucket e bucket = Raise ex) ->
  forall groups,
    Forall (fun sb => sb <> []) groups ->
    groups <> [] -> reduce_each e groups = Raise ex.
Proof.
  intros Hex groups Hall Hne.
  destruct Hall as [|sb later Hsb _]; [now elim Hne |].
  cbn [reduce_each]. unfold allreduce_and_copy. now rewrite (Hex _ Hsb).
Qed.

Lemma singletons_partition (bucket : list Tensor) :
  concat (map (fun t => [t]) bucket) = bucket.
Proof. induction bucket as [|t rest IH]; [reflexivity |]. cbn. now rewrite IH. Qed.

Lemma naive_is_reduce_each (e : DeepSpeedLight) (bucket : list Tensor) :
  naive_allreduce e bucket = reduce_each e (map (fun t => [t]) bucket).
Proof.
  induction bucket as [|t rest IH]; [reflexivity |].
  cbn [naive_allreduce map reduce_each]. now rewrite IH.
Qed.

(** Two groupings of the same tensors reduce to the same values. *)
Lemma grouping_is_immaterial (e : DeepSpeedLight)
    (groups groups' : list (list Tensor)) :
  concat groups = concat groups' ->
  Forall (fun g => g <> []) groups -> Forall (fun g => g <> []) groups' ->
  reduce_each e groups = reduce_each e groups'.
Proof.
  intros Hsame Hne Hne'.
  destruct (allreduce_bucket_action e) as [ex Hex|g Hg].
  - destruct groups as [|sb later], groups' as [|sb' later'].
    + reflexivity.
    + exfalso. inversion Hne' as [|? ? Hsb' _]; subst.
      destruct sb'; [now elim Hsb' | discriminate].
    + exfalso. inversion Hne as [|? ? Hsb _]; subst.
      destruct sb; [now elim Hsb | discriminate].
    + now rewrite !(reduce_each_fails e ex Hex) by (assumption || discriminate).
  - now rewrite !(reduce_each_elementwise e g Hg), Hsame by assumption.
Qed.

(** With a predivide factor and a world size that are not zero no division
    in [allreduce_bucket] fails. *)
Lemma allreduce_bucket_returns (e : DeepSpeedLight) (bucket : list Tensor) :
  bucket <> [] ->
  ~ gradient_predivide_factor (_config e) == 0 ->
  dp_world_size e <> 0%Z ->
  returns (allreduce_bucket e bucket) = true.
Proof.
  intros Hne Hf HW.
  assert (Ef : Qeq_bool (gradient_predivide_factor (_config e)) 0 = false).
  { apply not_true_is_false. intros E. apply Hf. now apply Qeq_bool_eq. }
  assert (EW : Qeq_bool (inject_Z (dp_world_size e)) 0 = false).
  { apply not_true_is_false. intros E. apply Qeq_bool_eq in E.
    apply HW. unfold Qeq in E. cbn in E. lia. }
  unfold allreduce_bucket, py_div.
  rewrite (flatten_nonempty bucket Hne), Ef, EW. cbn [rbind].
  destruct (postscale_gradients e),
    (Qeq_bool (gradient_predivide_factor (_config e)) 1),
    (gradient_average e),
    (Qeq_bool (gradient_predivide_factor (_config e))
              (inject_Z (dp_world_size e))); reflexivity.
Qed.

(** C8: for every list of gradient tensors of the group, every threshold and
    every configuration, [allreduce_no_retain] ends exactly as the reduction
    that calls [allreduce_and_copy] once per tensor: the same exception, or the
    same values in every tensor.  The small buckets it flushes are not empty
    and, taken in order, are the list of tensors, so each tensor takes part in
    exactly one collective call; and when neither the predivide factor nor the
    world size is zero the method returns, every tensor holding what a bucket
    made of that tensor alone reduces to. *)
Theorem bucketing_changes_grouping_only (e : DeepSpeedLight)
    (bucket : list Tensor) (numel_per_bucket : Z) :
  let groups := flushes_from bucket [] 0 numel_per_bucket in
  allreduce_no_retain e bucket numel_per_bucket = naive_allreduce e bucket
  /\ allreduce_no_retain e bucket numel_per_bucket = reduce_each e groups
  /\ concat groups = bucket
  /\ Forall (fun g => g <> []) groups
  /\ (~ gradient_predivide_factor (_config e) == 0 ->
      dp_world_size e <> 0%Z ->
      exists out,
        allreduce_no_retain e bucket numel_per_bucket = Return out
        /\ Forall2 (fun t t' => allreduce_bucket e [t] = Return t') bucket out).
Proof.
  intros groups. subst groups. unfold allreduce_no_retain.
  pose proof (flushes_partition bucket [] 0 numel_per_bucket) as Hpart.
  cbn [app] in Hpart.
  pose proof (flushes_nonempty bucket [] 0 numel_per_bucket) as Hne.
  assert (Hsingle : Forall (fun g : list Tensor => g <> [])
                           (map (fun t => [t]) bucket)).
  { apply List.Forall_forall. intros g Hg.
    apply in_map_iff in Hg as (t & <- & _). discriminate. }
  split; [| split; [| split; [| split]]].
  - rewrite loop_is_reduce_each, naive_is_reduce_each.
    apply grouping_is_immaterial; [| exact Hne | exact Hsingle].
    now rewrite Hpart, singletons_partition.
  - apply loop_is_reduce_each.
  - exact Hpart.
  - exact Hne.
  - intros Hf HW. rewrite loop_is_reduce_each.
    destruct (allreduce_bucket_action e) as [ex Hex|g Hg].
    + pose proof (allreduce_bucket_returns e [[]] ltac:(discriminate) Hf HW)
        as Hret.
      now rewrite Hex in Hret by discriminate.
    + rewrite (reduce_each_elementwise e g Hg) by exact Hne. rewrite Hpart.
      eexists; split; [reflexivity |].
      clear Hpart Hne Hsingle.
      induction bucket as [|t rest IH]; constructor; [| exact IH].
      rewrite Hg by discriminate. cbn. now rewrite app_nil_r.
Qed.

Lemma bucketing_changes_grouping_only_witness :
  let e := Sample.engine_of_group 2 4 in
  let bucket := [ [[1; 3]; [2; 4]]; [[10; 20]]; [[5; 5]; [6; 8]; [0; 2]] ] in
  allreduce_no_retain e bucket 2 = naive_allreduce e bucket
  /\ exists out,
       allreduce_no_retain e bucket 2 = Return out
       /\ Forall2 (fun t t' => allreduce_bucket e [t] = Return t') bucket out.
Proof.
  intros e bucket.
  destruct (bucketing_changes_grouping_only e bucket 2)
    as (Hnaive & _ & _ & _ & Hret).
  split; [exact Hnaive |].
  apply Hret.
  - vm_compute. discriminate.
  - vm_compute. discriminate.
Defined.

Example three_tensors_two_flushes :
  let bucket := [ [[1; 3]; [2; 4]]; [[10; 20]]; [[5; 5]; [6; 8]; [0; 2]] ] in
  flushes_from bucket [] 0 2
    = [ [ [[1; 3]; [2; 4]]; [[10; 20]] ]; [ [[5; 5]; [6; 8]; [0; 2]] ] ]
  /\ allreduce_no_retain (Sample.engine_of_group 2 4) bucket 2
     = naive_allreduce (Sample.engine_of_group 2 4) bucket
  /\ allreduce_no_retain (Sample.engine_of_group 2 0) bucket 2
     = Raise ZeroDivisionError.
Proof. repeat split. Qed.

(** ** The two scaling modes *)

Lemma sum_ranks_mul (c : Q) (e : Elem) :
  sum_ranks (map (fun x => x * c) e) == sum_ranks e * c.
Proof.
  induction e as [|x e IH]; cbn [map sum_ranks fold_right].
  - ring.
  - fold (sum_ranks (map (fun x => x * c) e)). fold (sum_ranks e).
    rewrite IH. ring.
Qed.

Lemma sum_ranks_div (c : Q) (e : Elem) :
  sum_ranks (map (fun x => x / c) e) == sum_ranks e / c.
Proof.
  unfold Qdiv. apply sum_ranks_mul.
Qed.

Lemma Forall2_repeat (a b : Q) (n : nat) :
  a == b -> Forall2 Qeq (repeat a n) (repeat b n).
Proof. intros Hab. induction n; cbn; constructor; assumption. Qed.

Lemma Forall2_map_repeat (k : Q -> Q) (a b : Q) (n : nat) :
  k a == b -> Forall2 Qeq (map k (repeat a n)) (repeat b n).
Proof. intros Hab. induction n; cbn; constructor; assumption. Qed.

Lemma tensor_eq_map (g h : Elem -> Elem) (t : Tensor) :
  (forall x, Forall2 Qeq (g x) (h x)) -> tensor_eq (map g t) (map h t).
Proof.
  intros Hgh. unfold tensor_eq.
  induction t as [|x t IH]; cbn; constructor; [apply Hgh | exact IH].
Qed.

(** The empty bucket fails in [flatten], whatever the configuration. *)
Lemma allreduce_bucket_empty (e : DeepSpeedLight) :
  allreduce_bucket e [] = flatten [].
Proof. reflexivity. Qed.

Lemma allreduce_bucket_postscale (e : DeepSpeedLight) (bucket : list Tensor) :
  let f := gradient_predivide_factor (_config e) in
  let W := inject_Z (dp_world_size e) in
  bucket <> [] ->
  prescale_gradients (_config e) = false -> gradient_average e = true ->
  ~ f == 0 -> ~ W == 0 ->
  allreduce_bucket e bucket
  = Return ((if Qeq_bool f W then fun t => t else mul_ (f / W))
              (all_reduce
                 ((if Qeq_bool f 1 then fun t => t else mul_ (1 / f))
                    (concat bucket)))).
Proof.
  intros f W Hne Hpre Havg Hf HW.
  assert (Ef : Qeq_bool f 0 = false).
  { apply not_true_is_false. intros E. apply Hf. now apply Qeq_bool_eq. }
  assert (EW : Qeq_bool W 0 = false).
  { apply not_true_is_false. intros E. apply HW. now apply Qeq_bool_eq. }
  unfold allreduce_bucket, postscale_gradients, py_div, float.
  rewrite (flatten_nonempty bucket Hne). cbn [rbind].
  fold f W. rewrite Hpre, Havg, Ef, EW. cbn [negb].
  destruct (allreduce_always_fp32 _), (Qeq_bool f 1), (Qeq_bool f W);
    reflexivity.
Qed.

Lemma allreduce_bucket_prescale (e : DeepSpeedLight) (bucket : list Tensor) :
  bucket <> [] ->
  prescale_gradients (_config e) = true ->
  allreduce_bucket e bucket
  = Return (all_reduce (div_ (inject_Z (dp_world_size e)) (concat bucket))).
Proof.
  intros Hne Hpre. unfold allreduce_bucket, postscale_gradients, float.
  rewrite (flatten_nonempty bucket Hne). cbn [rbind].
  rewrite Hpre. cbn [negb]. destruct (allreduce_always_fp32 _); reflexivity.
Qed.

Lemma postscale_elem (f W : Q) :
  ~ f == 0 -> ~ W == 0 ->
  forall t : Tensor,
    tensor_eq
      ((if Qeq_bool f W then fun t => t else mul_ (f / W))
         (all_reduce ((if Qeq_bool f 1 then fun t => t else mul_ (1 / f)) t)))
      (average W t).
Proof.
  intros Hf HW t. unfold average.
  destruct (Qeq_bool f 1) eqn:Ef1, (Qeq_bool f W) eqn:EfW;
    try apply Qeq_bool_eq in Ef1; try apply Qeq_bool_eq in EfW;
    unfold mul_, all_reduce; rewrite ?map_map; apply tensor_eq_map; intros y.
  - apply Forall2_repeat. rewrite <- EfW, Ef1. field.
  - apply Forall2_map_repeat. rewrite Ef1. field. exact HW.
  - rewrite length_map. apply Forall2_repeat.
    rewrite sum_ranks_mul, <- EfW. field. exact Hf.
  - rewrite length_map. apply Forall2_map_repeat.
    rewrite sum_ranks_mul. field. split; assumption.
Qed.

Lemma prescale_elem (W : Q) (t : Tensor) :
  tensor_eq (all_reduce (div_ W t)) (average W t).
Proof.
  unfold average, all_reduce, div_. rewrite map_map.
  apply tensor_eq_map. intros y. rewrite length_map.
  apply Forall2_repeat. apply sum_ranks_div.
Qed.

(** C6: for every dense bucket of the group, every world size W >= 1 and
    every predivide factor f that is not zero, with gradient averaging on,
    [allreduce_bucket] ends in the same way in both modes.  On a bucket that
    holds at least one tensor it returns in both modes, and in both every
    rank holds for every element the sum of the element over the ranks
    divided by W, up to the equality of rationals: postscale mode multiplies
    by 1/f (left out when f is 1), sums, and multiplies by f/W, which it
    leaves out exactly when f equals W; prescale mode divides by W, then
    sums.  On the empty list, which has no element to average and which the
    engine never hands to the method, both modes end with the exception of
    [flatten]. *)
Theorem allreduce_bucket_averages_in_both_modes (e : DeepSpeedLight)
    (bucket : list Tensor) :
  let f := gradient_predivide_factor (_config e) in
  let W := inject_Z (dp_world_size e) in
  (1 <= dp_world_size e)%Z -> ~ f == 0 -> gradient_average e = true ->
  (bucket <> [] ->
   exists post pre : Tensor,
     allreduce_bucket (with_prescale false e) bucket = Return post
     /\ allreduce_bucket (with_prescale true e) bucket = Return pre
     /\ tensor_eq post (average W (concat bucket))
     /\ tensor_eq pre (average W (concat bucket))
     /\ post = (if Qeq_bool f W then fun t => t else mul_ (f / W))
                 (all_reduce
                    ((if Qeq_bool f 1 then fun t => t else mul_ (1 / f))
                       (concat bucket)))
     /\ pre = all_reduce (div_ W (concat bucket)))
  /\ (bucket = [] ->
      allreduce_bucket (with_prescale false e) bucket = flatten []
      /\ allreduce_bucket (with_prescale true e) bucket = flatten []
      /\ returns (flatten []) = false).
Proof.
  intros f W HW1 Hf Havg.
  assert (HW : ~ W == 0).
  { unfold W, Qeq. cbn. lia. }
  split.
  - intros Hne. eexists. eexists.
    split; [apply (allreduce_bucket_postscale (with_prescale false e) bucket);
            [exact Hne | reflexivity | exact Havg | exact Hf | exact HW] |].
    split; [apply (allreduce_bucket_prescale (with_prescale true e) bucket);
            [exact Hne | reflexivity] |].
    cbn [with_prescale _config gradient_predivide_factor dp_world_size].
    fold f W.
    split; [now apply postscale_elem |].
    split; [apply prescale_elem |].
    split; reflexivity.
  - intros ->. rewrite !allreduce_bucket_empty. repeat split.
Qed.

Lemma allreduce_bucket_averages_in_both_modes_witness :
  let e := Sample.engine_of_group 2 4 in
  let bucket := [ [[1; 3]; [2; 4]]; [[10; 20]] ] in
  exists post pre : Tensor,
    allreduce_bucket (with_prescale false e) bucket = Return post
    /\ allreduce_bucket (with_prescale true e) bucket = Return pre
    /\ tensor_eq post (average 2 (concat bucket))
    /\ tensor_eq pre (average 2 (concat bucket))
    /\ post = mul_ (4 / 2) (all_reduce (mul_ (1 / 4) (concat bucket)))
    /\ pre = all_reduce (div_ 2 (concat bucket)).
Proof.
  intros e bucket.
  apply (allreduce_bucket_averages_in_both_modes e bucket).
  - vm_compute. discriminate.
  - vm_compute. discriminate.
  - reflexivity.
  - discriminate.
Defined.

(** The two scaling modes on a bucket of two tensors in a group of two, and
    on no tensor at all. *)
Example allreduce_bucket_on_two_ranks :
  let e := Sample.engine_of_group 2 4 in
  allreduce_bucket (with_prescale true e) [ [[1; 3]; [2; 4]]; [[10; 20]] ]
    = Return [[1 / 2 + (3 / 2 + 0); 1 / 2 + (3 / 2 + 0)];
              [2 / 2 + (4 / 2 + 0); 2 / 2 + (4 / 2 + 0)];
              [10 / 2 + (20 / 2 + 0); 10 / 2 + (20 / 2 + 0)]]
  /\ allreduce_bucket (with_prescale true e) []
     = Raise (RuntimeError "flatten: expected a non-empty list of tensors")
  /\ allreduce_bucket (with_prescale false e) []
     = Raise (RuntimeError "flatten: expected a non-empty list of tensors").
Proof. repeat split. Qed.

End Reduce.

(** * Sparse gradients: the all-gather of rows *)

Module Sparse.
Local Open Scope nat_scope.

(** [f] on every item, in order, up to the first exception. *)
Fixpoint for_all {A B} (f : A -> result B) (l : list A) : result (list B) :=
  match l with
  | [] => Return []
  | x :: rest =>
      rbind (f x) (fun y => rbind (for_all f rest) (fun ys => Return (y :: ys)))
  end.

(** [dist.all_gather(tensor_list, value)] seen from the group: the ranks
    contribute [contributions], in rank order, and every rank has made
    [slots] places to receive them; each rank ends with the contributions.
    The call is invalid when the places are not one per rank. *)
Definition all_gather {A} (slots : nat) (contributions : list A)
    : result (list A) :=
  if slots =? length contributions then Return contributions
  else Raise (RuntimeError "all_gather: tensor_list does not match the group").

(** [torch.cat(all_sizes).max()] *)
Definition max_size_of (all_sizes : list nat) : result nat :=
  match all_sizes with
  | [] => Raise (RuntimeError "max of an empty tensor")
  | s :: rest => Return (fold_left Nat.max rest s)
  end.

Section Rows.

(** A tensor is the list of its slices along dimension 0: numbers for a
    tensor of dimension 1, rows of numbers for one of dimension 2, the two
    dimensions the method accepts.  Its two branches differ in the shape of
    the zeros they make, which is [zero_row] here: the ranks gather slices of
    one parameter, of one row shape. *)
Context {Row : Type} (zero_row : Row).

Definition new_zeros (n : nat) : list Row := repeat zero_row n.

(** [t.index_select(0, index)] *)
Definition index_select (t : list Row) (index : list nat) : result (list Row) :=
  for_all (fun i => match nth_error t i with
                    | Some row => Return row
                    | None => Raise IndexError
                    end) index.

(** What a rank sends: its value, padded to the maximal size. *)
Definition pad (max_size : nat) (value : list Row) : list Row :=
  let my_size := length value in
  let fill_size := max_size - my_size in
  if 0 <? fill_size then value ++ new_zeros fill_size else value.

(** [csr_all_gather], for the whole group: [values] holds the [value] of
    each rank, in rank order; the result is the list [tensors] each rank
    returns. *)
Definition csr_all_gather (dp_world_size : nat) (values : list (list Row))
    : result (list (list Row)) :=
  let my_sizes := map (fun value => length value) values in
  rbind (all_gather dp_world_size my_sizes) (fun all_sizes =>
  rbind (max_size_of all_sizes) (fun max_size =>
  let sent := map (pad max_size) values in
  rbind (if forallb (fun v => length v =? max_size) sent
         then all_gather dp_world_size sent
         else Raise (RuntimeError "all_gather: sizes differ")) (fun tensor_list =>
  for_all (fun '(dev_idx, t) =>
             match nth_error all_sizes dev_idx with
             | Some size => index_select t (seq 0 size)
             | None => Raise IndexError
             end)
          (combine (seq 0 (length tensor_list)) tensor_list)))).

End Rows.

(** A sparse gradient, with the two attributes of [CSRTensor] that
    [csr_allreduce] reads and writes: the indices of its rows and the rows.
    The class is defined in [deepspeed_csr_tensor.py]. *)
Record CSRTensor : Type := {
  indices : list Z;
  values : list (list Q)
}.

(** [csr.values.div_(self.dp_world_size)] *)
Definition div_rows (W : Q) (rows : list (list Q)) : list (list Q) :=
  map (map (fun x => (x / W)%Q)) rows.

(** [torch.cat(tensors)] along dimension 0 *)
Definition cat {Row : Type} (tensors : list (list Row)) : result (list Row) :=
  match tensors with
  | [] => Raise (RuntimeError "cat of an empty list")
  | _ :: _ => Return (concat tensors)
  end.

(** [csr_allreduce], for the whole group: [csrs] holds the tensor of each
    rank, in rank order, with rows of [width] numbers; the result is the
    tensor every rank returns. *)
Definition csr_allreduce (dp_world_size : nat) (width : nat)
    (csrs : list CSRTensor) : result CSRTensor :=
  let W := inject_Z (Z.of_nat dp_world_size) in
  let divided := map (fun csr => div_rows W (values csr)) csrs in
  rbind (csr_all_gather 0%Z dp_world_size (map indices csrs))
    (fun indices_device_list =>
  rbind (csr_all_gather (repeat 0%Q width) dp_world_size divided)
    (fun values_device_list =>
  rbind (cat indices_device_list) (fun all_indices =>
  rbind (cat values_device_list) (fun all_values =>
  Return {| indices := all_indices; values := all_values |})))).

(** ** Padding and stripping *)

Section RowFacts.
Context {Row : Type} (zero_row : Row).

Lemma fold_max_bounds (rest : list nat) (s : nat) :
  s <= fold_left Nat.max rest s
  /\ Forall (fun x => x <= fold_left Nat.max rest s) rest.
Proof.
  revert s. induction rest as [|x rest IH]; intros s; cbn [fold_left].
  - split; [lia | constructor].
  - destruct (IH (Nat.max s x)) as [Hs Hrest]. split; [lia |].
    constructor; [lia | exact Hrest].
Qed.

Lemma max_size_bounds (all_sizes : list nat) (m : nat) :
  max_size_of all_sizes = Return m -> Forall (fun x => x <= m) all_sizes.
Proof.
  destruct all_sizes as [|s rest]; [discriminate |].
  cbn [max_size_of]. intros [= <-].
  destruct (fold_max_bounds rest s) as [Hs Hrest].
  constructor; assumption.
Qed.

Lemma pad_length (m : nat) (value : list Row) :
  length value <= m -> length (pad zero_row m value) = m.
Proof.
  intros Hle. unfold pad, new_zeros.
  destruct (Nat.ltb_spec 0 (m - length value)).
  - rewrite length_app, repeat_length. lia.
  - lia.
Qed.

Lemma pad_is_value_then_zeros (m : nat) (value : list Row) :
  pad zero_row m value = value ++ repeat zero_row (m - length value).
Proof.
  unfold pad, new_zeros.
  destruct (Nat.ltb_spec 0 (m - length value)) as [H|H]; [reflexivity |].
  replace (m - length value) with 0 by lia. cbn. now rewrite app_nil_r.
Qed.

(** Selecting the first rows of a tensor gives back exactly those rows. *)
Lemma index_select_window (before rows after : list Row) :
  index_select (before ++ rows ++ after) (seq (length before) (length rows))
  = Return rows.
Proof.
  unfold index_select. revert before.
  induction rows as [|r rows IH]; intros before; [reflexivity |].
  cbn [length seq for_all].
  rewrite nth_error_app2 by lia. rewrite Nat.sub_diag. cbn [app nth_error rbind].
  specialize (IH (before ++ [r])).
  rewrite <- app_assoc in IH. cbn [app] in IH.
  rewrite length_app in IH. cbn [length] in IH.
  rewrite Nat.add_1_r in IH. now rewrite IH.
Qed.

Lemma index_select_strips_padding (m : nat) (value : list Row) :
  index_select (pad zero_row m value) (seq 0 (length value)) = Return value.
Proof.
  rewrite pad_is_value_then_zeros.
  exact (index_select_window [] value _).
Qed.

(** The loop over the gathered tensors, from device [length before] on. *)
Lemma strip_all (m : nat) (before contributions : list (list Row)) :
  for_all (fun '(dev_idx, t) =>
             match nth_error (map (fun value => length value)
                                  (before ++ contributions)) dev_idx with
             | Some size => index_select t (seq 0 size)
             | None => Raise IndexError
             end)
          (combine (seq (length before) (length contributions))
                   (map (pad zero_row m) contributions))
  = Return contributions.
Proof.
  revert before.
  induction contributions as [|value rest IH]; intros before; [reflexivity |].
  cbn [length seq map combine for_all].
  assert (Hnth : nth_error (map (fun value0 : list Row => length value0)
                                (before ++ value :: rest)) (length before)
                  = Some (length value)).
  { rewrite List.map_app, nth_error_app2 by (rewrite List.length_map; lia).
    now rewrite List.length_map, Nat.sub_diag. }
  rewrite Hnth, index_select_strips_padding. cbn [rbind].
  specialize (IH (before ++ [value])).
  rewrite <- app_assoc in IH. cbn [app] in IH.
  rewrite length_app in IH. cbn [length] in IH.
  rewrite Nat.add_1_r in IH. now rewrite IH.
Qed.

Lemma csr_all_gather_returns_contributions (dp_world_size : nat)
    (contributions : list (list Row)) :
  1 <= dp_world_size -> length contributions = dp_world_size ->
  exists max_size,
    max_size_of (map (fun value => length value) contributions) = Return max_size
    /\ Forall (fun value => length (pad zero_row max_size value) = max_size)
              contributions
    /\ csr_all_gather zero_row dp_world_size contributions
       = Return contributions.
Proof.
  intros HW Hlen. unfold csr_all_gather, all_gather.
  rewrite !List.length_map, Hlen, Nat.eqb_refl. cbn [rbind].
  destruct (max_size_of _) as [m|ex] eqn:Hmax.
  2:{ destruct contributions; [cbn in Hlen; lia | discriminate]. }
  exists m. split; [reflexivity |].
  pose proof (max_size_bounds _ _ Hmax) as Hbound.
  assert (Hpad : Forall (fun value => length (pad zero_row m value) = m)
                        contributions).
  { apply List.Forall_forall. intros value Hin. apply pad_length.
    rewrite List.Forall_forall in Hbound. apply Hbound.
    apply in_map_iff. now exists value. }
  split; [exact Hpad |]. cbn [rbind].
  assert (Hall : forallb (fun v => length v =? m)
                         (map (pad zero_row m) contributions) = true).
  { apply forallb_forall. intros v Hv.
    apply in_map_iff in Hv as (value & <- & Hin).
    rewrite List.Forall_forall in Hpad. rewrite (Hpad value Hin).
    apply Nat.eqb_refl. }
  rewrite Hall, List.length_map, Hlen, Nat.eqb_refl. cbn [rbind].
  rewrite List.length_map.
  exact (strip_all m [] contributions).
Qed.

End RowFacts.

(** C7: in a group of [dp_world_size >= 1] ranks, whatever the lengths of
    the contributions.  [csr_all_gather] pads what each rank sends to the
    maximal length and returns, on every rank, the contributions of the ranks
    as they were, in rank order: the padding is gone and no row is lost.
    [csr_allreduce] then returns the concatenation of the indices of all ranks
    and the concatenation of their rows, each value divided by the world size
    before the exchange; as multisets these are the unions of the
    contributions. *)
Theorem sparse_all_gather_is_exact_concatenation (dp_world_size : nat) :
  1 <= dp_world_size ->
  (forall (Row : Type) (zero_row : Row) (contributions : list (list Row)),
     length contributions = dp_world_size ->
     exists max_size,
       max_size_of (map (fun value => length value) contributions)
         = Return max_size
       /\ Forall (fun value => length (pad zero_row max_size value) = max_size)
                 contributions
       /\ csr_all_gather zero_row dp_world_size contributions
          = Return contributions
       /\ rbind (csr_all_gather zero_row dp_world_size contributions) cat
          = Return (concat contributions))
  /\ (forall (width : nat) (csrs : list CSRTensor),
        length csrs = dp_world_size ->
        let W := inject_Z (Z.of_nat dp_world_size) in
        exists out,
          csr_allreduce dp_world_size width csrs = Return out
          /\ indices out = concat (map indices csrs)
          /\ values out = concat (map (fun csr => div_rows W (values csr)) csrs)
          /\ Permutation (indices out) (concat (map indices csrs))
          /\ Permutation (values out)
               (concat (map (fun csr => div_rows W (values csr)) csrs))).
Proof.
  intros HW. split.
  - intros Row zero_row contributions Hlen.
    destruct (csr_all_gather_returns_contributions zero_row dp_world_size
                contributions HW Hlen) as (m & Hmax & Hpad & Hrun).
    exists m. repeat split; try assumption.
    rewrite Hrun. cbn [rbind]. unfold cat.
    destruct contributions; [cbn in Hlen; lia | reflexivity].
  - intros width csrs Hlen W. unfold csr_allreduce. fold W.
    destruct (csr_all_gather_returns_contributions 0%Z dp_world_size
                (map indices csrs) HW) as (_ & _ & _ & ->);
      [now rewrite List.length_map |].
    destruct (csr_all_gather_returns_contributions (repeat 0%Q width)
                dp_world_size
                (map (fun csr => div_rows W (values csr)) csrs) HW)
      as (_ & _ & _ & ->); [now rewrite List.length_map |].
    destruct csrs as [|csr rest]; [cbn in Hlen; lia |].
    cbn [rbind map cat]. eexists. split; [reflexivity |].
    cbn [indices values]. repeat split; apply Permutation_refl.
Qed.

Lemma sparse_all_gather_is_exact_concatenation_witness :
  csr_all_gather 0%Z 3 [[4; 1; 9]; []; [7]]%Z
    = Return [[4; 1; 9]; []; [7]]%Z
  /\ (exists out,
        csr_allreduce 2 2
          [ {| indices := [4; 1]%Z; values := [[2; 4]; [6; 8]]%Q |};
            {| indices := [1]%Z; values := [[10; 20]]%Q |} ] = Return out
        /\ indices out = [4; 1; 1]%Z
        /\ values out = [[2 / 2; 4 / 2]; [6 / 2; 8 / 2]; [10 / 2; 20 / 2]]%Q).
Proof.
  split.
  - destruct (proj1 (sparse_all_gather_is_exact_concatenation 3 ltac:(lia))
                Z 0%Z [[4; 1; 9]; []; [7]]%Z eq_refl)
      as (m & _ & _ & Hrun & _).
    exact Hrun.
  - destruct (proj2 (sparse_all_gather_is_exact_concatenation 2 ltac:(lia)) 2
                [ {| indices := [4; 1]%Z; values := [[2; 4]; [6; 8]]%Q |};
                  {| indices := [1]%Z; values := [[10; 20]]%Q |} ] eq_refl)
      as (out & Hrun & Hi & Hv & _).
    exists out. repeat split; assumption.
Defined.

End Sparse.

(** * Checkpoints *)

Module Checkpoint.
Local Open Scope string_scope.
Local Open Scope Z_scope.

(** ** Dictionaries *)

(** [d[key]] *)
Fixpoint dict_get (key : string) (d : list (string * PyVal)) : result PyVal :=
  match d with
  | [] => Raise (KeyError key)
  | (k, v) :: rest => if String.eqb k key then Return v else dict_get key rest
  end.

(** [d[key] = v]: a key keeps its place, a new key goes last. *)
Fixpoint dict_set (key : string) (v : PyVal) (d : list (string * PyVal))
    : list (string * PyVal) :=
  match d with
  | [] => [(key, v)]
  | (k, v') :: rest =>
      if String.eqb k key then (k, v) :: rest
      else (k, v') :: dict_set key v rest
  end.

(** [d.update(other)] *)
Definition dict_update (d other : list (string * PyVal))
    : list (string * PyVal) :=
  fold_left (fun acc kv => dict_set (fst kv) (snd kv) acc) other d.

(** [obj[key]] on a loaded object. *)
Definition subscript (obj : PyVal) (key : string) : result PyVal :=
  match obj with
  | PyDict items => dict_get key items
  | _ => Raise (TypeError "object is not subscriptable")
  end.

(** The engine keeps its counters as integers and the names of its sparse
    parameters as strings.  A checkpoint that holds anything else under these
    keys is outside the model: Python would store the object and fail where
    it is next used; here the load fails. *)
Definition as_int (v : PyVal) : result Z :=
  match v with
  | PyInt n => Return n
  | _ => Raise (TypeError "an integer is required")
  end.

Fixpoint as_names (items : list PyVal) : result (list string) :=
  match items with
  | [] => Return []
  | PyStr s :: rest => rbind (as_names rest) (fun l => Return (s :: l))
  | _ :: _ => Raise (TypeError "a name is required")
  end.

Definition as_name_set (v : PyVal) : result (list string) :=
  match v with
  | PyList items => as_names items
  | _ => Raise (TypeError "a set of names is required")
  end.

(** ** The file system *)

(** [os.path.exists(p)] *)
Definition exists_in (f : FileSystem) (p : string) : bool :=
  negb (String.eqb p "")
  && (bool_decide (p ∈ dirs f) || bool_decide (is_Some (files f !! p))).

Definition os_path_exists (p : string) : M bool :=
  f <- get_fs ;; ret (exists_in f p).

Definition is_file (f : FileSystem) (p : string) : bool :=
  bool_decide (is_Some (files f !! p)).

Definition is_dir (f : FileSystem) (p : string) : bool :=
  bool_decide (p ∈ dirs f).

(** The path has a directory part other than itself, which must lead to a
    directory for the path to be created. *)
Definition has_parent (p : string) : bool :=
  negb (String.eqb (PosixPath.dirname p) "")
  && negb (String.eqb (PosixPath.dirname p) p).

(** [os.mkdir(name)]: the directory is made in a directory that exists. *)
Definition os_mkdir (name : string) : M unit :=
  f <- get_fs ;;
  let parent := PosixPath.dirname name in
  if String.eqb name "" then raise (FileNotFoundError name)
  else if exists_in f name then raise (FileExistsError name)
  else if has_parent name && is_file f parent
  then raise (NotADirectoryError name)
  else if has_parent name && negb (is_dir f parent)
  then raise (FileNotFoundError name)
  else if bool_decide (name ∈ denied f) then raise (PermissionError name)
  else set_fs (fun f => {| files := files f; dirs := {[ name ]} ∪ dirs f;
                           denied := denied f |}).

(** The directories above [p], the nearest first. *)
Fixpoint ancestors_upto (fuel : nat) (p : string) : list string :=
  match fuel with
  | O => []
  | S fuel' =>
      let d := PosixPath.dirname p in
      if String.eqb d "" || String.eqb d p then []
      else d :: ancestors_upto fuel' d
  end.

Definition ancestors (p : string) : list string :=
  ancestors_upto (String.length p) p.

(** [os.makedirs(name)]: the missing directories above [name] are made
    first, from the top, then [name] itself. *)
Definition os_makedirs (name : string) : M unit :=
  if String.eqb name "" then raise (FileNotFoundError name)
  else
    for_each (rev (ancestors name))
      (fun d => f <- get_fs ;; when (negb (exists_in f d)) (os_mkdir d)) ;;;
    os_mkdir name.

(** [torch.save(obj, path)]: the file is opened for writing, which needs
    its directory part to be a directory and the path not to be one; a path
    without a directory part is written where the process runs.  The
    exceptions are those of [open(path, 'wb')], which [torch.save] calls;
    versions of torch that write through their own zip writer raise
    [RuntimeError] in its place. *)
Definition torch_save (obj : PyVal) (path : string) : M unit :=
  f <- get_fs ;;
  let d := PosixPath.dirname path in
  if String.eqb path "" then raise (FileNotFoundError path)
  else if negb (String.eqb d "") && is_file f d
  then raise (NotADirectoryError path)
  else if negb (String.eqb d "" || is_dir f d)
  then raise (FileNotFoundError path)
  else if is_dir f path then raise (IsADirectoryError path)
  else set_fs (fun f => {| files := <[ path := obj ]> (files f);
                           dirs := dirs f; denied := denied f |}).

(** [torch.load(path)] *)
Definition torch_load (path : string) : M PyVal :=
  f <- get_fs ;;
  match files f !! path with
  | Some obj => ret obj
  | None => raise (FileNotFoundError path)
  end.

Definition _ensure_directory_exists (filename : string) : M unit :=
  let dirname := PosixPath.dirname filename in
  b <- os_path_exists dirname ;;
  when (negb b) (os_makedirs dirname).

(** [range(n)] *)
Definition range (n : Z) : list Z := map Z.of_nat (seq 0 (Z.to_nat n)).

Section WithCollaborators.
Context `{Collaborators}.

(** ** Calls on the collaborators *)

Definition load_module_state_dict (state_dict : PyVal) (strict : bool) : M unit :=
  e <- get_self ;;
  m <- lift (module_load_state_dict (module e) state_dict strict) ;;
  set_self (set_module m) ;;;
  emit (CallModuleLoad strict).

(** [self.optimizer.load_state_dict(...)]: the attribute is looked up, the
    arguments are evaluated, the method is called. *)
Definition call_optimizer_load (args : M OptimizerLoad) : M unit :=
  e <- get_self ;;
  match optimizer e with
  | None => raise (AttributeError "load_state_dict")
  | Some o =>
      a <- args ;;
      o' <- lift (optimizer_load_state_dict o a) ;;
      set_self (set_optimizer (Some o')) ;;;
      emit (CallOptimizerLoad a)
  end.

Definition call_lr_scheduler_load (sch : LRScheduler) (state_dict : PyVal)
    : M unit :=
  sch' <- lift (lr_scheduler_load_state_dict sch state_dict) ;;
  set_self (set_lr_scheduler (Some sch')) ;;;
  emit CallLRSchedulerLoad.

(** ** Loading *)

Definition deepspeed_states : list string :=
  [ "module"; "optimizer"; "lr_scheduler"; "csr_tensor_module_names";
    "skipped_steps"; "global_steps"; "dp_world_size"; "mp_world_size" ].

(** [{key: value for key, value in checkpoint.items()
      if not key in deepspeed_states}] *)
Definition client_state_of (checkpoint : PyVal) : result (list (string * PyVal)) :=
  match checkpoint with
  | PyDict items =>
      Return (List.filter
                (fun kv => negb (existsb (String.eqb (fst kv)) deepspeed_states))
                items)
  | _ => Raise (AttributeError "items")
  end.

Definition not_found_message : string :=
  "Client provided checkpoint load path: {} does not exist ... skip checkpoint load".

Definition _load_checkpoint (load_dir : string) (tag : Py.tag)
    (load_module_strict load_optimizer_states load_lr_scheduler_states : bool)
    : M (option string * option (list (string * PyVal))) :=
  e <- get_self ;;
  let load_path := Naming._get_ckpt_name e load_dir tag in
  found <- os_path_exists load_path ;;
  if negb found then
    log_via "logger" Warning not_found_message [load_path] ;;;
    ret (None, None)
  else
    log_via "logger" Info "Loading checkpoint: {}" [load_path] ;;;
    checkpoint <- torch_load load_path ;;
    sd <- lift (subscript checkpoint "module") ;;
    load_module_state_dict sd load_module_strict ;;;
    when (negb (zero_enabled (_config e)))
      (if fp16_enabled (_config e)
       then call_optimizer_load
              (sd <- lift (subscript checkpoint "optimizer") ;;
               ret (LoadFp16 sd load_optimizer_states))
       else call_optimizer_load
              (sd <- lift (subscript checkpoint "optimizer") ;;
               ret (LoadPlain sd))) ;;;
    e1 <- get_self ;;
    match lr_scheduler e1 with
    | Some sch =>
        when load_lr_scheduler_states
          (sd <- lift (subscript checkpoint "lr_scheduler") ;;
           call_lr_scheduler_load sch sd)
    | None => ret tt
    end ;;;
    names <- lift (rbind (subscript checkpoint "csr_tensor_module_names")
                         as_name_set) ;;
    set_self (set_csr_tensor_module_names names) ;;;
    gs <- lift (rbind (subscript checkpoint "global_steps") as_int) ;;
    set_self (set_global_steps gs) ;;;
    ss <- lift (rbind (subscript checkpoint "skipped_steps") as_int) ;;
    set_self (set_skipped_steps ss) ;;;
    mp <- lift (rbind (subscript checkpoint "mp_world_size") as_int) ;;
    set_self (set_loaded_checkpoint_mp_world_size (Some mp)) ;;;
    dp <- lift (rbind (subscript checkpoint "dp_world_size") as_int) ;;
    set_self (set_loaded_checkpoint_dp_world_size (Some dp)) ;;;
    client_state <- lift (client_state_of checkpoint) ;;
    ret (Some load_path, Some client_state).

Definition _get_mp_rank_zero_checkpoint_names (load_dir : string)
    (tag : Py.tag) (mp_rank dp_world_size : Z) : list string :=
  map (fun dp_rank =>
         Naming._get_rank_zero_ckpt_name load_dir tag mp_rank dp_rank)
      (range dp_world_size).

(** [for ckpt_name in zero_ckpt_names: if not os.path.exists(ckpt_name):
    invalid_zero_ckpt_paths.append(ckpt_name)] *)
Definition missing_paths (f : FileSystem) (zero_ckpt_names : list string)
    : list string :=
  List.filter (fun ckpt_name => negb (exists_in f ckpt_name)) zero_ckpt_names.

(** [for x in xs: out.append(body x)] *)
Fixpoint collect {A B} (xs : list A) (body : A -> M B) : M (list B) :=
  match xs with
  | [] => ret []
  | x :: xs' => y <- body x ;; ys <- collect xs' body ;; ret (y :: ys)
  end.

Definition _get_all_zero_checkpoints (load_dir : string) (tag : Py.tag)
    : M (option (list PyVal)) :=
  e <- get_self ;;
  let mp_rank := Naming.mp_rank_of e in
  match loaded_checkpoint_dp_world_size e with
  | None => raise (TypeError "'NoneType' object cannot be interpreted as an integer")
  | Some dp_world_size =>
      let zero_ckpt_names :=
        _get_mp_rank_zero_checkpoint_names load_dir tag mp_rank dp_world_size in
      f <- get_fs ;;
      let invalid_zero_ckpt_paths := missing_paths f zero_ckpt_names in
      if (0 <? length invalid_zero_ckpt_paths)%nat then
        log_via "logging" Warning
          "Client provided zero checkpoint load paths: {} does not exist"
          invalid_zero_ckpt_paths ;;;
        ret None
      else
        zero_sd_list <- collect zero_ckpt_names torch_load ;;
        zero_optimizer_sd <-
          collect zero_sd_list
            (fun sd => lift (subscript sd "optimizer_state_dict")) ;;
        print "successfully loaded {} ZeRO state_dicts for rank {}"
          [Py.str_int (Z.of_nat (length zero_optimizer_sd));
           Py.str_int (global_rank e)] ;;;
        ret (Some zero_optimizer_sd)
  end.

Definition _load_zero_checkpoint (load_dir : string) (tag : Py.tag)
    (load_optimizer_states : bool) : M unit :=
  zero_sd_list <- _get_all_zero_checkpoints load_dir tag ;;
  match zero_sd_list with
  | None => ret tt
  | Some sds =>
      e <- get_self ;;
      call_optimizer_load
        (ret (LoadZero sds load_optimizer_states
                (load_from_fp32_weights (zero_config (_config e))))) ;;;
      print "loading {} zero partition checkpoints for rank {}"
        [Py.str_int (Z.of_nat (length sds)); Py.str_int (global_rank e)]
  end.

Definition load_checkpoint (load_dir : string) (tag : Py.tag)
    (load_module_strict load_optimizer_states load_lr_scheduler_states : bool)
    : M (option string * option (list (string * PyVal))) :=
  loaded <- _load_checkpoint load_dir tag load_module_strict
              load_optimizer_states load_lr_scheduler_states ;;
  let '(load_path, client_states) := loaded in
  e <- get_self ;;
  when (zero_enabled (_config e)
        && match load_path with Some _ => true | None => false end)
    (_load_zero_checkpoint load_dir tag load_optimizer_states) ;;;
  ret (load_path, client_states).

(** ** Saving *)

Definition _create_checkpoint_file (save_dir : string) (tag : Py.tag)
    (zero_checkpoint : bool) : M bool :=
  e <- get_self ;;
  let name_function :=
    if zero_checkpoint
    then fun d t => lift (Naming._get_zero_ckpt_name e d t)
    else fun d t => ret (Naming._get_ckpt_name e d t) in
  try_except
    (checkpoint_name <- name_function save_dir tag ;;
     _ensure_directory_exists checkpoint_name ;;;
     ret true)
    (log_via "logger" Error
       "Failed Saving model checkpoint to {} with tag {}"
       [save_dir; Py.str tag] ;;;
     ret false).

(** The loop of [_create_zero_checkpoint_files] over the remaining ranks. *)
Fixpoint create_zero_files_from (ranks : list Z) (save_dir : string)
    (tag : Py.tag) (success : bool) : M bool :=
  match ranks with
  | [] => ret success
  | rank :: rest =>
      e <- get_self ;;
      success' <- (if rank =? global_rank e
                   then _create_checkpoint_file save_dir tag true
                   else ret success) ;;
      emit Barrier ;;;
      create_zero_files_from rest save_dir tag success'
  end.

Definition _create_zero_checkpoint_files (save_dir : string) (tag : Py.tag)
    : M bool :=
  e <- get_self ;;
  create_zero_files_from (range (world_size e)) save_dir tag true.

Definition _save_checkpoint (save_dir : string) (tag : Py.tag)
    (client_state : list (string * PyVal)) : M unit :=
  e <- get_self ;;
  let save_path := Naming._get_ckpt_name e save_dir tag in
  let state :=
    [ ("module", module_state_dict (module e));
      ("optimizer",
       match optimizer e with
       | Some o => if negb (zero_enabled (_config e))
                   then optimizer_state_dict o else PyNone
       | None => PyNone
       end);
      ("lr_scheduler",
       match lr_scheduler e with
       | Some sch => lr_scheduler_state_dict sch
       | None => PyNone
       end);
      ("csr_tensor_module_names",
       PyList (map PyStr (csr_tensor_module_names e)));
      ("skipped_steps", PyInt (skipped_steps e));
      ("global_steps", PyInt (global_steps e));
      ("dp_world_size", PyInt (dp_world_size e));
      ("mp_world_size", PyInt (mp_world_size e)) ] in
  let state := dict_update state client_state in
  log_via "logger" Info "Saving model checkpoint: {}" [save_path] ;;;
  torch_save (PyDict state) save_path.

Definition _save_zero_checkpoint (save_path : string) (tag : Py.tag) : M unit :=
  e <- get_self ;;
  zero_checkpoint_name <- lift (Naming._get_zero_ckpt_name e save_path tag) ;;
  match optimizer e with
  | None => raise (AttributeError "state_dict")
  | Some o =>
      let zero_sd := PyDict [("optimizer_state_dict", optimizer_state_dict o)] in
      torch_save zero_sd zero_checkpoint_name ;;;
      log_via "logger" Info "zero checkpoint saved {}" [zero_checkpoint_name]
  end.

Definition save_checkpoint (save_dir : string) (tag : Py.tag)
    (client_state : list (string * PyVal)) : M bool :=
  e <- get_self ;;
  when (save_non_zero_checkpoint e)
    (_create_checkpoint_file save_dir tag false ;;;
     _save_checkpoint save_dir tag client_state) ;;;
  when (save_zero_checkpoint e)
    (_create_zero_checkpoint_files save_dir tag ;;;
     _save_zero_checkpoint save_dir tag) ;;;
  ret true.

End WithCollaborators.

(** ** A sharded checkpoint to evaluate the methods on *)

(** The engine of data-parallel rank [rank] in a ZeRO group of four. *)
Definition zero_rank_engine (rank : Z) : DeepSpeedLight :=
  let e := Sample.engine0 in
  Build_DeepSpeedLight (ZeroOptimizer.config_with 1 true 1) None (module e)
    (Some {| overflow := Some false; param_groups := [];
             optimizer_state_dict := PyDict [("shard", PyInt rank)];
             dp_process_group_rank := rank |})
    (lr_scheduler e) rank 4 4 1 120 240 3 (sample_count e)
    (gradient_average e) (csr_tensor_module_names e) None None
    (rank =? 0) true.

(** The files left by [save_checkpoint("ckpt", "T")] on the given ranks. *)
Definition saved_by (ranks : list Z) : FileSystem :=
  fold_left
    (fun f rank =>
       fs (snd (save_checkpoint "ckpt" (Py.TagStr "T") []
                  {| self := zero_rank_engine rank; fs := f; trace := [] |})))
    ranks Sample.fs0.

(** A fresh engine of rank 0 in front of those files. *)
Definition fresh_engine : DeepSpeedLight :=
  let e := zero_rank_engine 0 in
  set_global_steps 0 (set_micro_steps 0 (set_skipped_steps 0 e)).

Definition world_after_save (ranks : list Z) : World :=
  {| self := fresh_engine; fs := saved_by ranks; trace := [] |}.


Definition is_zero_load (ev : event) : bool :=
  match ev with
  | CallOptimizerLoad (LoadZero _ _ _) => true
  | _ => false
  end.

Definition is_warning (ev : event) : bool :=
  match ev with
  | Log Warning _ _ => true
  | _ => false
  end.

(** ** Loading when files are missing *)

Section LoadFacts.
Context `{Collaborators}.

(** C9: when the model-state file of the engine's model-parallel rank does
    not exist, [load_checkpoint] returns [(None, None)] without raising and
    leaves the engine and the files as they are: the module, the optimizer,
    the scheduler, [global_steps] and [skipped_steps] are untouched, no
    collaborator is called, and the only trace is the warning that names the
    missing path. *)
Theorem load_without_model_states_changes_nothing (w : World)
    (load_dir : string) (tag : Py.tag)
    (load_module_strict load_optimizer_states load_lr_scheduler_states : bool) :
  let load_path := Naming._get_ckpt_name (self w) load_dir tag in
  exists_in (fs w) load_path = false ->
  load_checkpoint load_dir tag load_module_strict load_optimizer_states
    load_lr_scheduler_states w
  = (Return (None, None),
     {| self := self w; fs := fs w;
        trace := trace w ++ [Log Warning not_found_message [load_path]] |}).
Proof.
  intros load_path Habsent.
  unfold load_checkpoint, _load_checkpoint, os_path_exists.
  unfold bind, get_self, get_fs, ret. cbn [self fs].
  fold load_path. rewrite Habsent. cbn [negb].
  rewrite log_via_logger_run. cbn [self].
  rewrite andb_false_r. reflexivity.
Qed.

(** C2, what the code does: when a shard file that is expected for the
    recorded data-parallel world size does not exist,
    [_load_zero_checkpoint] raises [NameError] at [logging.warn], a name the
    module never binds, before the list of missing paths is formatted; the
    world is left as it is, so nothing is reported and the optimizer is not
    restored from the shards that are there. *)
Theorem zero_load_with_missing_shard_raises_name_error (w : World)
    (load_dir : string) (tag : Py.tag) (load_optimizer_states : bool)
    (dp : Z) :
  loaded_checkpoint_dp_world_size (self w) = Some dp ->
  missing_paths (fs w)
    (_get_mp_rank_zero_checkpoint_names load_dir tag
       (Naming.mp_rank_of (self w)) dp) <> [] ->
  _load_zero_checkpoint load_dir tag load_optimizer_states w
  = (Raise (NameError "logging"), w).
Proof.
  intros Hdp Hmissing.
  unfold _load_zero_checkpoint, _get_all_zero_checkpoints.
  unfold bind, get_self, get_fs. cbn [self fs]. rewrite Hdp.
  destruct (missing_paths _ _) as [|p ps]; [now elim Hmissing |].
  reflexivity.
Qed.

End LoadFacts.

Lemma load_without_model_states_changes_nothing_witness :
  @load_checkpoint Sample.toy "ckpt" (Py.TagStr "T") true true true
    Sample.world0
  = (Return (None, None),
     {| self := Sample.engine0; fs := Sample.fs0;
        trace := [Log Warning not_found_message
                    ["ckpt/T/mp_rank_00_model_states.pt"]] |}).
Proof.
  apply (@load_without_model_states_changes_nothing Sample.toy Sample.world0
           "ckpt" (Py.TagStr "T") true true true).
  vm_compute. reflexivity.
Defined.

(** The failing load: the model-state file records four shards, the file of
    data-parallel rank 3 is absent. *)
Lemma zero_load_with_missing_shard_raises_name_error_witness :
  let w := {| self := set_loaded_checkpoint_dp_world_size (Some 4) fresh_engine;
              fs := saved_by [0; 1; 2]; trace := [] |} in
  @_load_zero_checkpoint Sample.toy "ckpt" (Py.TagStr "T") true w
  = (Raise (NameError "logging"), w).
Proof.
  intros w.
  apply (@zero_load_with_missing_shard_raises_name_error Sample.toy w "ckpt"
           (Py.TagStr "T") true 4).
  - reflexivity.
  - vm_compute. discriminate.
Defined.

(** The same load through [load_checkpoint]: the weights, the schedule and
    the counters of the model-state file are in place when the exception
    leaves the method; no warning was written and the optimizer was not
    given any shard. *)
Example load_checkpoint_with_three_of_four_shards :
  let out := @load_checkpoint Sample.toy "ckpt" (Py.TagStr "T") true true true
               (world_after_save [0; 1; 2]) in
  fst out = Raise (NameError "logging")
  /\ missing_paths (saved_by [0; 1; 2])
       (_get_mp_rank_zero_checkpoint_names "ckpt" (Py.TagStr "T") 0 4)
     = ["ckpt/T/zero_pp_rank_3_mp_rank_00optim_states.pt"]
  /\ existsb is_warning (trace (snd out)) = false
  /\ existsb is_zero_load (trace (snd out)) = false
  /\ optimizer (self (snd out)) = optimizer fresh_engine
  /\ global_steps (self (snd out)) = 120.
Proof. vm_compute. repeat split. Qed.

Example load_checkpoint_with_all_shards :
  let out := @load_checkpoint Sample.toy "ckpt" (Py.TagStr "T") true true true
               (world_after_save [0; 1; 2; 3]) in
  fst out = Return (Some "ckpt/T/mp_rank_00_model_states.pt", Some [])
  /\ existsb is_zero_load (trace (snd out)) = true.
Proof. vm_compute. repeat split. Qed.

(** ** What [save_checkpoint] returns *)





(** A save into the directory the process runs in: the directory part of the
    path is empty, creating it fails, and the save returns [True]. *)
Example save_in_working_directory_hides_the_failure :
  fst (_create_checkpoint_file "" (Py.TagStr "") false Sample.world0)
    = Return false
  /\ fst (save_checkpoint "" (Py.TagStr "") [] Sample.world0) = Return true.
Proof. vm_compute. repeat split. Qed.

Example save_creates_directory_and_file :
  let out := save_checkpoint "ckpt" (Py.TagStr "T") [] Sample.world0 in
  fst out = Return true
  /\ exists_in (fs (snd out)) "ckpt/T" = true
  /\ exists_in (fs (snd out)) "ckpt/T/mp_rank_00_model_states.pt" = true.
Proof. vm_compute. repeat split. Qed.

End Checkpoint.

(** * The set of checkpoint files *)

Module FileNames.
Local Open Scope string_scope.
Local Open Scope Z_scope.

(** [_get_all_zero_checkpoint_names]: the shard names of every
    model-parallel rank, one rank after the other. *)
Definition _get_all_zero_checkpoint_names (load_dir : string) (tag : Py.tag)
    (mp_world_size dp_world_size : Z) : list string :=
  concat
    (map (fun mp_rank =>
            Checkpoint._get_mp_rank_zero_checkpoint_names load_dir tag mp_rank
              dp_world_size)
         (Checkpoint.range mp_world_size)).

(** What [os.path.join] puts in front of a last component that does not
    start with a separator. *)
Definition joined_prefix (path : string) : string :=
  if String.eqb path "" || PosixPath.endswith_sep path then path
  else path +:+ "/".

(** The model-state name of model-parallel rank [mp_rank]. *)
Definition model_states_name (dir : string) (tag : Py.tag) (mp_rank : Z)
    : string :=
  PosixPath.join dir
    [ Py.str tag;
      "mp_rank_" +:+ Py.format_0d 2 mp_rank +:+ "_model_states.pt" ].

(** Every file a save of the whole job writes under a tag: one model-state
    file per model-parallel rank, one shard per pair of ranks. *)
Definition checkpoint_file_set (dir : string) (tag : Py.tag)
    (mp_world_size dp_world_size : Z) : list string :=
  map (model_states_name dir tag) (Checkpoint.range mp_world_size)
  ++ _get_all_zero_checkpoint_names dir tag mp_world_size dp_world_size.

Fixpoint has_char (c : ascii) (s : string) : bool :=
  match s with
  | EmptyString => false
  | String x r => Ascii.eqb x c || has_char c r
  end.

(** Reading back the decimal text [str] writes. *)
Definition read_int (s : string) : option Z :=
  option_map Z.of_int (NilZero.int_of_string s).

(** ** Cancellation in strings *)

Lemma append_cancel_l (a x y : string) : a +:+ x = a +:+ y -> x = y.
Proof.
  induction a as [|c a IH]; intros Heq; [exact Heq |].
  rewrite !Naming.append_cons in Heq. injection Heq as Heq. now apply IH.
Qed.

Lemma length_append (a b : string) :
  String.length (a +:+ b) = (String.length a + String.length b)%nat.
Proof.
  induction a as [|c a IH]; [reflexivity |].
  rewrite Naming.append_cons. cbn. now rewrite IH.
Qed.

Lemma append_cancel_r (x y c : string) : x +:+ c = y +:+ c -> x = y.
Proof.
  revert y. induction x as [|a x IH]; intros y Heq.
  - destruct y as [|b y]; [reflexivity |]. exfalso.
    apply (f_equal String.length) in Heq.
    rewrite Naming.append_nil, length_append in Heq. cbn in Heq. lia.
  - destruct y as [|b y].
    + exfalso. apply (f_equal String.length) in Heq.
      rewrite Naming.append_nil, length_append in Heq. cbn in Heq. lia.
    + rewrite !Naming.append_cons in Heq. injection Heq as -> Heq.
      f_equal. now apply IH.
Qed.

(** Two texts without the delimiter, each followed by the delimiter. *)
Lemma split_at_delimiter (c : ascii) (x y s t : string) :
  has_char c x = false -> has_char c y = false ->
  x +:+ String c s = y +:+ String c t -> x = y /\ s = t.
Proof.
  revert y. induction x as [|a x IH]; intros y Hx Hy Heq.
  - destruct y as [|b y].
    + rewrite !Naming.append_nil in Heq. injection Heq as ->. now split.
    + exfalso. rewrite Naming.append_nil, Naming.append_cons in Heq.
      injection Heq as <- _. cbn in Hy. now rewrite Ascii.eqb_refl in Hy.
  - destruct y as [|b y].
    + exfalso. rewrite Naming.append_nil, Naming.append_cons in Heq.
      injection Heq as -> _. cbn in Hx. now rewrite Ascii.eqb_refl in Hx.
    + rewrite !Naming.append_cons in Heq. injection Heq as -> Heq.
      cbn in Hx, Hy. apply orb_false_iff in Hx as [_ Hx].
      apply orb_false_iff in Hy as [_ Hy].
      destruct (IH y Hx Hy Heq) as [-> ->]. now split.
Qed.

(** ** The text of a rank *)

Lemma to_int_is_written (n : Z) :
  Z.to_int n <> Decimal.Pos Decimal.Nil
  /\ Z.to_int n <> Decimal.Neg Decimal.Nil.
Proof.
  destruct n as [|p|p]; cbn; split; try discriminate;
    intros [= Hnil]; now apply (Unsigned.to_uint_nonnil p).
Qed.

Lemma read_str_int (n : Z) : read_int (Py.str_int n) = Some n.
Proof.
  unfold read_int, Py.str_int.
  destruct (to_int_is_written n) as [Hpos Hneg].
  rewrite (NilZero.isi _ Hpos Hneg). cbn. now rewrite DecimalZ.of_to.
Qed.

Lemma str_int_injective (n n' : Z) : Py.str_int n = Py.str_int n' -> n = n'.
Proof.
  intros Heq. apply (f_equal read_int) in Heq.
  rewrite !read_str_int in Heq. now injection Heq.
Qed.

Lemma digits_have_no_underscore (d : Decimal.uint) :
  has_char "_" (NilEmpty.string_of_uint d) = false.
Proof. induction d; cbn; try assumption; reflexivity. Qed.

Lemma str_int_has_no_underscore (n : Z) : has_char "_" (Py.str_int n) = false.
Proof.
  unfold Py.str_int.
  assert (Huint : forall d, has_char "_" (NilZero.string_of_uint d) = false).
  { intros d. destruct d; cbn; try reflexivity; apply digits_have_no_underscore. }
  destruct (Z.to_int n) as [d|d]; cbn; apply Huint.
Qed.

Lemma str_int_length (n : Z) : (1 <= String.length (Py.str_int n))%nat.
Proof.
  unfold Py.str_int.
  assert (Huint : forall d, (1 <= String.length (NilZero.string_of_uint d))%nat).
  { intros d. destruct d; cbn; lia. }
  destruct (Z.to_int n) as [d|d]; cbn; [apply Huint | lia].
Qed.

Lemma digits_have_no_minus (d : Decimal.uint) :
  has_char "-" (NilEmpty.string_of_uint d) = false.
Proof. induction d; cbn; try assumption; reflexivity. Qed.

(** The text of a number that is not negative: its digits, which read back
    as the number. *)
Lemma str_int_nonneg (n : Z) :
  0 <= n ->
  exists u, Py.str_int n = NilEmpty.string_of_uint u
            /\ u <> Decimal.Nil /\ Z.of_uint u = n.
Proof.
  intros Hn. unfold Py.str_int.
  pose proof (DecimalZ.of_to n) as Hof.
  destruct n as [|p|p]; [| | lia].
  - exists (Decimal.D0 Decimal.Nil). repeat split. discriminate.
  - exists (Pos.to_uint p). cbn in Hof |- *.
    pose proof (Unsigned.to_uint_nonnil p) as Hnil.
    repeat split; [| exact Hnil | exact Hof].
    destruct (Pos.to_uint p); [now elim Hnil | reflexivity ..].
Qed.

(** Zeros in front of digits do not change the number read. *)
Lemma read_zeros_digits (k : nat) (n : Z) :
  0 <= n -> read_int (Py.zeros k +:+ Py.str_int n) = Some n.
Proof.
  intros Hn. destruct (str_int_nonneg n Hn) as (u & -> & Hnil & Hu).
  assert (Hread : exists d,
             NilEmpty.uint_of_string (Py.zeros k +:+ NilEmpty.string_of_uint u)
             = Some d /\ Z.of_uint d = n).
  { induction k as [|k (d & Hd & Hn')].
    - exists u. split; [apply NilEmpty.usu | exact Hu].
    - exists (Decimal.D0 d). cbn [Py.zeros]. rewrite Naming.append_cons.
      cbn. rewrite Hd. split; [reflexivity | exact Hn']. }
  destruct Hread as (d & Hd & Hn').
  assert (Hminus : has_char "-" (Py.zeros k +:+ NilEmpty.string_of_uint u)
                   = false).
  { clear Hd. induction k as [|k IH]; [apply digits_have_no_minus |].
    cbn [Py.zeros]. rewrite Naming.append_cons. cbn. exact IH. }
  unfold read_int, NilZero.int_of_string, NilZero.uint_of_string.
  destruct (Py.zeros k +:+ NilEmpty.string_of_uint u) as [|c s] eqn:Es.
  - exfalso.
    destruct k;
      [| cbn [Py.zeros] in Es; rewrite Naming.append_cons in Es; discriminate].
    cbn in Es. destruct u; (now elim Hnil) || discriminate.
  - cbn in Hminus. apply orb_false_iff in Hminus as [Hc _].
    rewrite Hc, Hd. cbn. now rewrite Hn'.
Qed.

Lemma read_format_02d (n : Z) : read_int (Py.format_0d 2 n) = Some n.
Proof.
  unfold Py.format_0d. destruct (Z.ltb_spec n 0) as [Hneg|Hpos].
  - pose proof (str_int_length (Z.abs n)) as Hlen.
    replace (2 - String.length "-" - String.length (Py.str_int (Z.abs n)))%nat
      with 0%nat by (cbn; lia).
    cbn [Py.zeros]. rewrite Naming.append_nil.
    replace ("-" +:+ Py.str_int (Z.abs n)) with (Py.str_int n);
      [apply read_str_int |].
    destruct n as [|p|p]; try lia. reflexivity.
  - rewrite Naming.append_nil. rewrite Z.abs_eq by exact Hpos.
    now apply read_zeros_digits.
Qed.

Lemma format_02d_injective (n n' : Z) :
  Py.format_0d 2 n = Py.format_0d 2 n' -> n = n'.
Proof.
  intros Heq. apply (f_equal read_int) in Heq.
  rewrite !read_format_02d in Heq. now injection Heq.
Qed.

(** ** Names and ranks *)

Lemma join_last (dir T name : string) :
  PosixPath.startswith_sep name = false ->
  PosixPath.join dir [T; name]
  = joined_prefix (PosixPath.join_step dir T) +:+ name.
Proof.
  intros Hname. unfold PosixPath.join. cbn [fold_left].
  unfold PosixPath.join_step at 1. rewrite Hname. unfold joined_prefix.
  destruct (String.eqb _ "" || PosixPath.endswith_sep _); [reflexivity |].
  now rewrite Naming.append_assoc.
Qed.

Lemma model_states_name_of_engine (e : DeepSpeedLight) (dir : string)
    (tag : Py.tag) :
  Naming._get_ckpt_name e dir tag
  = model_states_name dir tag (Naming.mp_rank_of e).
Proof. reflexivity. Qed.

Lemma model_states_names_injective (dir : string) (tag : Py.tag) (mp mp' : Z) :
  model_states_name dir tag mp = model_states_name dir tag mp' -> mp = mp'.
Proof.
  unfold model_states_name. rewrite !join_last by reflexivity.
  intros Heq. apply append_cancel_l in Heq.
  apply (append_cancel_l "mp_rank_") in Heq.
  apply append_cancel_r in Heq. now apply format_02d_injective.
Qed.

Lemma shard_names_injective (dir : string) (tag : Py.tag)
    (mp dp mp' dp' : Z) :
  Naming._get_rank_zero_ckpt_name dir tag mp dp
  = Naming._get_rank_zero_ckpt_name dir tag mp' dp' ->
  mp = mp' /\ dp = dp'.
Proof.
  unfold Naming._get_rank_zero_ckpt_name, Py.format_d.
  rewrite !join_last by reflexivity.
  intros Heq. apply append_cancel_l in Heq.
  rewrite !Naming.append_assoc in Heq.
  apply (append_cancel_l "zero_pp_rank_") in Heq.
  change ("_mp_rank_" +:+ ?x) with (String "_" ("mp_rank_" +:+ x)) in Heq.
  apply split_at_delimiter in Heq as [Hdp Hmp];
    try apply str_int_has_no_underscore.
  apply (append_cancel_l "mp_rank_") in Hmp.
  apply append_cancel_r in Hmp.
  split; [now apply format_02d_injective | now apply str_int_injective].
Qed.

Lemma model_states_name_is_no_shard_name (dir : string) (tag : Py.tag)
    (mp mp' dp : Z) :
  model_states_name dir tag mp
  <> Naming._get_rank_zero_ckpt_name dir tag mp' dp.
Proof.
  unfold model_states_name, Naming._get_rank_zero_ckpt_name.
  rewrite !join_last by reflexivity.
  intros Heq. apply append_cancel_l in Heq.
  rewrite !Naming.append_assoc in Heq. discriminate Heq.
Qed.

(** X1: a checkpoint file name determines the ranks it was made for.  Under
    one directory and tag, two shard names are equal only when both the
    model-parallel and the data-parallel ranks are equal, two model-state
    names only when the model-parallel ranks are equal, and a model-state
    name is never a shard name; this holds for all integers, ranks beyond
    two digits and negative ones included. *)
Theorem checkpoint_names_determine_ranks (dir : string) (tag : Py.tag)
    (mp dp mp' dp' : Z) :
  (Naming._get_rank_zero_ckpt_name dir tag mp dp
   = Naming._get_rank_zero_ckpt_name dir tag mp' dp' ->
   mp = mp' /\ dp = dp')
  /\ (model_states_name dir tag mp = model_states_name dir tag mp' ->
      mp = mp')
  /\ model_states_name dir tag mp
     <> Naming._get_rank_zero_ckpt_name dir tag mp' dp'.
Proof.
  split; [apply shard_names_injective |].
  split; [apply model_states_names_injective |].
  apply model_states_name_is_no_shard_name.
Qed.

Lemma checkpoint_names_determine_ranks_witness :
  (107 = 107 /\ -3 = -3)%Z.
Proof.
  apply (proj1 (checkpoint_names_determine_ranks "ckpt" (Py.TagInt 1200)
                  107 (-3) 107 (-3))).
  reflexivity.
Defined.

Lemma range_NoDup (n : Z) : List.NoDup (Checkpoint.range n).
Proof.
  unfold Checkpoint.range.
  apply Finite.Injective_map_NoDup; [| apply seq_NoDup].
  intros a b. apply Nat2Z.inj.
Qed.

(** A table without repeated rows or columns, written row after row by a
    function that tells its arguments apart, has no repeated entry. *)
Lemma NoDup_rows {A B C} (g : A -> B -> C) (la : list A) (lb : list B) :
  (forall a b a' b', g a b = g a' b' -> a = a' /\ b = b') ->
  List.NoDup la -> List.NoDup lb ->
  List.NoDup (concat (map (fun a => map (g a) lb) la)).
Proof.
  intros Hg Hla Hlb. induction Hla as [|a la Ha Hla IH]; [constructor |].
  cbn [map concat]. apply List.NoDup_app; [| exact IH |].
  - apply Finite.Injective_map_NoDup; [| exact Hlb].
    intros b b' Hb. now destruct (Hg _ _ _ _ Hb).
  - intros x Hx Hx'. apply in_map_iff in Hx as (b & <- & _).
    apply in_concat in Hx' as (row & Hrow & Hin).
    apply in_map_iff in Hrow as (a' & <- & Ha').
    apply in_map_iff in Hin as (b' & Heq & _).
    destruct (Hg _ _ _ _ Heq) as [-> _]. contradiction.
Qed.

Lemma length_rows {A B C} (g : A -> B -> C) (la : list A) (lb : list B) :
  length (concat (map (fun a => map (g a) lb) la))
  = (length la * length lb)%nat.
Proof.
  induction la as [|a la IH]; [reflexivity |].
  cbn [map concat length]. now rewrite List.length_app, IH, List.length_map.
Qed.

(** X2: the files of one checkpoint, for any world sizes: the model-state
    files of the model-parallel ranks and the shards of all pairs of ranks
    are pairwise distinct paths, so no two writers of a save write the same
    file; and there are [dp_world_size] shards per model-parallel rank. *)
Theorem checkpoint_files_are_pairwise_distinct (dir : string) (tag : Py.tag)
    (mp_world_size dp_world_size : Z) :
  List.NoDup (checkpoint_file_set dir tag mp_world_size dp_world_size)
  /\ length (_get_all_zero_checkpoint_names dir tag mp_world_size dp_world_size)
     = (Z.to_nat mp_world_size * Z.to_nat dp_world_size)%nat.
Proof.
  split.
  - unfold checkpoint_file_set. apply List.NoDup_app.
    + apply Finite.Injective_map_NoDup; [| apply range_NoDup].
      intros mp mp'. apply model_states_names_injective.
    + unfold _get_all_zero_checkpoint_names,
        Checkpoint._get_mp_rank_zero_checkpoint_names.
      apply (NoDup_rows (Naming._get_rank_zero_ckpt_name dir tag));
        [| apply range_NoDup | apply range_NoDup].
      intros mp dp mp' dp'. apply shard_names_injective.
    + intros x Hx Hx'. apply in_map_iff in Hx as (mp & <- & _).
      unfold _get_all_zero_checkpoint_names in Hx'.
      apply in_concat in Hx' as (row & Hrow & Hin).
      apply in_map_iff in Hrow as (mp' & <- & _).
      apply in_map_iff in Hin as (dp & Heq & _).
      symmetry in Heq. now apply model_states_name_is_no_shard_name in Heq.
  - unfold _get_all_zero_checkpoint_names,
      Checkpoint._get_mp_rank_zero_checkpoint_names, Checkpoint.range.
    rewrite length_rows, !List.length_map, !length_seq. reflexivity.
Qed.

(** X3: a tag whose text starts with a separator replaces the directory:
    the checkpoint paths are the same under every directory. *)
Theorem absolute_tag_discards_directory (e : DeepSpeedLight)
    (dir dir' : string) (tag : Py.tag) (mp dp : Z) :
  PosixPath.startswith_sep (Py.str tag) = true ->
  Naming._get_ckpt_name e dir tag = Naming._get_ckpt_name e dir' tag
  /\ Naming._get_rank_zero_ckpt_name dir tag mp dp
     = Naming._get_rank_zero_ckpt_name dir' tag mp dp.
Proof.
  intros Habs.
  unfold Naming._get_ckpt_name, Naming._get_rank_zero_ckpt_name.
  now rewrite !(Naming.join_absolute_tag _ _ _ Habs).
Qed.

Lemma absolute_tag_discards_directory_witness :
  Naming._get_ckpt_name Sample.engine0 "runs/a" (Py.TagStr "/tmp/t")
    = Naming._get_ckpt_name Sample.engine0 "runs/b" (Py.TagStr "/tmp/t")
  /\ Naming._get_rank_zero_ckpt_name "runs/a" (Py.TagStr "/tmp/t") 0 1
     = Naming._get_rank_zero_ckpt_name "runs/b" (Py.TagStr "/tmp/t") 0 1.
Proof.
  apply (absolute_tag_discards_directory Sample.engine0 "runs/a" "runs/b"
           (Py.TagStr "/tmp/t") 0 1).
  reflexivity.
Defined.

End FileNames.

(** * What the methods leave untouched *)

Module Frame.
Local Open Scope string_scope.
Local Open Scope Z_scope.
Local Open Scope engine_scope.

(** A method leaves a view [f] of the world unchanged when the view is the
    same after the method as before, whether it returns or raises. *)
Definition unchanged {X A} (f : World -> X) (m : M A) : Prop :=
  forall w, f (snd (m w)) = f w.

(** Views that do not read the trace, the engine, the files. *)
Definition ignores_trace {X} (f : World -> X) : Prop :=
  forall e s t t', f {| self := e; fs := s; trace := t |}
                   = f {| self := e; fs := s; trace := t' |}.

Definition ignores_self {X} (f : World -> X) : Prop :=
  forall e e' s t, f {| self := e; fs := s; trace := t |}
                   = f {| self := e'; fs := s; trace := t |}.

Definition ignores_fs {X} (f : World -> X) : Prop :=
  forall e s s' t, f {| self := e; fs := s; trace := t |}
                   = f {| self := e; fs := s'; trace := t |}.

(** The attributes of the engine that [__init__] and its helpers set and
    that say how and where the engine runs, as opposed to the state of the
    training: the configuration, the ranks and sizes, the flags of the
    checkpoints and what a load recorded. *)
Definition settings (e : DeepSpeedLight) :=
  (_config e, mpu e, global_rank e, world_size e, dp_world_size e,
   mp_world_size e, sample_count e, gradient_average e,
   csr_tensor_module_names e, loaded_checkpoint_mp_world_size e,
   loaded_checkpoint_dp_world_size e, save_non_zero_checkpoint e,
   save_zero_checkpoint e).

(** A view of the engine that the assignments of [load_checkpoint] do not
    change. *)
Record outside_load {X} (g : DeepSpeedLight -> X) : Prop := {
  load_outside_module : forall m e, g (set_module m e) = g e;
  load_outside_optimizer : forall o e, g (set_optimizer (Some o) e) = g e;
  load_outside_lr_scheduler :
    forall s e, g (set_lr_scheduler (Some s) e) = g e;
  load_outside_csr_names :
    forall v e, g (set_csr_tensor_module_names v e) = g e;
  load_outside_global_steps : forall v e, g (set_global_steps v e) = g e;
  load_outside_skipped_steps : forall v e, g (set_skipped_steps v e) = g e;
  load_outside_mp :
    forall v e, g (set_loaded_checkpoint_mp_world_size v e) = g e;
  load_outside_dp :
    forall v e, g (set_loaded_checkpoint_dp_world_size v e) = g e
}.

Section Views.
Context {X : Type} (f : World -> X).

Lemma unchanged_ret {A} (a : A) : unchanged f (ret a).
Proof. intros w; reflexivity. Qed.

Lemma unchanged_raise {A} (e : exn) : unchanged f (@raise A e).
Proof. intros w; reflexivity. Qed.

Lemma unchanged_lift {A} (r : result A) : unchanged f (lift r).
Proof. intros w; reflexivity. Qed.

Lemma unchanged_get_self : unchanged f get_self.
Proof. intros w; reflexivity. Qed.

Lemma unchanged_get_fs : unchanged f get_fs.
Proof. intros w; reflexivity. Qed.

Lemma unchanged_bind {A B} (m : M A) (k : A -> M B) :
  unchanged f m -> (forall a, unchanged f (k a)) -> unchanged f (bind m k).
Proof.
  intros Hm Hk w. unfold bind. specialize (Hm w).
  destruct (m w) as [[a|e] w1]; cbn [snd] in *.
  - now rewrite Hk.
  - exact Hm.
Qed.

Lemma unchanged_when (b : bool) (m : M unit) :
  unchanged f m -> unchanged f (when b m).
Proof. intros Hm. destruct b; [exact Hm | apply unchanged_ret]. Qed.

Lemma unchanged_try_except {A} (body handler : M A) :
  unchanged f body -> unchanged f handler ->
  unchanged f (try_except body handler).
Proof.
  intros Hb Hh w. unfold try_except. specialize (Hb w).
  destruct (body w) as [[a|e] w1]; cbn [snd] in *.
  - exact Hb.
  - now rewrite Hh.
Qed.

Lemma unchanged_for_each {A} (xs : list A) (body : A -> M unit) :
  (forall x, unchanged f (body x)) -> unchanged f (for_each xs body).
Proof.
  intros Hb. induction xs as [|x xs IH]; cbn [for_each].
  - apply unchanged_ret.
  - apply unchanged_bind; [apply Hb | intros _; exact IH].
Qed.

Lemma unchanged_collect {A B} (xs : list A) (body : A -> M B) :
  (forall x, unchanged f (body x)) ->
  unchanged f (Checkpoint.collect xs body).
Proof.
  intros Hb. induction xs as [|x xs IH]; cbn [Checkpoint.collect].
  - apply unchanged_ret.
  - apply unchanged_bind; [apply Hb | intros y].
    apply unchanged_bind; [exact IH | intros ys; apply unchanged_ret].
Qed.

Lemma unchanged_global_name (name : string) : unchanged f (global_name name).
Proof.
  unfold global_name.
  destruct (existsb _ _); [apply unchanged_ret | apply unchanged_raise].
Qed.

Lemma unchanged_emit (ev : event) : ignores_trace f -> unchanged f (emit ev).
Proof. intros Hf [e s t]. apply Hf. Qed.

Lemma unchanged_log_via (obj : string) (l : level) (t : string)
    (args : list string) :
  ignores_trace f -> unchanged f (log_via obj l t args).
Proof.
  intros Hf. apply unchanged_bind; [apply unchanged_global_name |].
  intros _. now apply unchanged_emit.
Qed.

Lemma unchanged_print (t : string) (args : list string) :
  ignores_trace f -> unchanged f (print t args).
Proof. apply unchanged_emit. Qed.

Lemma unchanged_set_fs (g : FileSystem -> FileSystem) :
  ignores_fs f -> unchanged f (set_fs g).
Proof. intros Hf [e s t]. apply Hf. Qed.

Lemma unchanged_set_self (g : DeepSpeedLight -> DeepSpeedLight) :
  ignores_self f -> unchanged f (set_self g).
Proof. intros Hf [e s t]. apply Hf. Qed.

End Views.

(** ** The training step *)

Section StepFrame.
Context `{Collaborators} {X : Type} (f : World -> X).
Hypothesis Htrace : ignores_trace f.
Hypothesis Hoptimizer :
  forall o, unchanged f (set_self (set_optimizer (Some o))).
Hypothesis Hscheduler :
  forall s, unchanged f (set_self (set_lr_scheduler (Some s))).
Hypothesis Hskipped :
  forall h, unchanged f (set_self (fun e => set_skipped_steps (h e) e)).
Hypothesis Hglobal :
  forall h, unchanged f (set_self (fun e => set_global_steps (h e) e)).
Hypothesis Hmicro :
  forall h, unchanged f (set_self (fun e => set_micro_steps (h e) e)).

Lemma unchanged_is_boundary :
  unchanged f StepControl.is_gradient_accumulation_boundary.
Proof using Type.
  apply unchanged_bind; [apply unchanged_get_self | intros e].
  apply unchanged_bind; [apply unchanged_lift | intros r; apply unchanged_ret].
Qed.

Lemma unchanged_get_optimizer_param (name : string) :
  unchanged f (StepControl._get_optimizer_param name).
Proof using Type.
  apply unchanged_bind; [apply unchanged_get_self | intros e].
  destruct (optimizer e); apply unchanged_ret.
Qed.

Lemma unchanged_report_progress (n : Z) :
  unchanged f (StepControl._report_progress n).
Proof using Htrace.
  apply unchanged_bind; [apply unchanged_get_self | intros e].
  apply unchanged_bind; [apply unchanged_get_optimizer_param | intros lr].
  apply unchanged_bind; [apply unchanged_get_optimizer_param | intros mom].
  now apply unchanged_log_via.
Qed.

Lemma unchanged_call_optimizer (ev : event) (g : Optimizer -> Optimizer) :
  unchanged f (StepControl.call_optimizer ev g).
Proof using Htrace Hoptimizer.
  apply unchanged_bind; [apply unchanged_get_self | intros e].
  destruct (optimizer e) as [o|]; [| apply unchanged_raise].
  apply unchanged_bind; [apply Hoptimizer | intros _].
  now apply unchanged_emit.
Qed.

Lemma unchanged_step_lr_scheduler : unchanged f StepControl.step_lr_scheduler.
Proof using Htrace Hscheduler.
  apply unchanged_bind; [apply unchanged_get_self | intros e].
  destruct (lr_scheduler e) as [sch|]; [| apply unchanged_ret].
  apply unchanged_bind; [apply Hscheduler | intros _].
  now apply unchanged_emit.
Qed.

Lemma unchanged_take_model_step (rp : bool) :
  unchanged f (StepControl.take_model_step rp).
Proof using Htrace Hoptimizer Hscheduler Hskipped Hglobal.
  apply unchanged_bind; [apply unchanged_get_self | intros e].
  apply unchanged_bind.
  { apply unchanged_when.
    destruct (negb (fp16_enabled _) && negb (amp_enabled _)).
    - apply unchanged_bind; [apply unchanged_get_self | intros e'].
      now apply unchanged_emit.
    - destruct (amp_enabled _); [now apply unchanged_emit | apply unchanged_ret]. }
  intros _. apply unchanged_bind; [apply unchanged_call_optimizer | intros _].
  apply unchanged_bind.
  { destruct (negb (zero_enabled _) && _ && _);
      [now apply unchanged_emit | apply unchanged_call_optimizer]. }
  intros _. apply unchanged_bind; [apply unchanged_get_self | intros e1].
  apply unchanged_bind; [| intros _; apply Hglobal].
  destruct (match optimizer e1 with Some _ => _ | None => _ end);
    [apply Hskipped |].
  apply unchanged_bind; [apply unchanged_step_lr_scheduler | intros _].
  apply unchanged_bind; [apply unchanged_get_self | intros e2].
  destruct rp; [| apply unchanged_ret].
  apply unchanged_bind; [apply unchanged_lift | intros r].
  apply unchanged_when, unchanged_report_progress.
Qed.

Lemma unchanged_step_prologue : unchanged f StepControl.step_prologue.
Proof using Htrace.
  apply unchanged_bind; [apply unchanged_get_self | intros e].
  apply unchanged_bind.
  - apply unchanged_when.
    apply unchanged_bind; [| intros _]; now apply unchanged_emit.
  - intros _. destruct (optimizer e); [apply unchanged_ret | apply unchanged_raise].
Qed.

Lemma unchanged_step_epilogue (rp : bool) :
  unchanged f (StepControl.step_epilogue rp).
Proof using Htrace Hmicro.
  apply unchanged_bind; [apply unchanged_get_self | intros e].
  apply unchanged_bind; [now apply unchanged_emit | intros _].
  apply unchanged_bind.
  { apply unchanged_when.
    apply unchanged_bind; [apply unchanged_is_boundary | intros b].
    apply unchanged_when.
    apply unchanged_bind; [apply unchanged_get_optimizer_param | intros lr].
    destruct lr; [apply unchanged_raise |].
    apply unchanged_bind; [| intros _]; now apply unchanged_emit. }
  intros _. apply unchanged_bind; [| intros _; apply Hmicro].
  apply unchanged_when.
  repeat (apply unchanged_bind; [now apply unchanged_emit | intros _]).
  apply unchanged_bind; [apply unchanged_is_boundary | intros b].
  apply unchanged_bind.
  { apply unchanged_when.
    apply unchanged_bind; [| intros _; now apply unchanged_emit].
    apply unchanged_for_each. intros x. now apply unchanged_emit. }
  intros _. apply unchanged_when. now apply unchanged_emit.
Qed.

Lemma unchanged_step : unchanged f StepControl.step.
Proof using Type*.
  apply unchanged_bind; [apply unchanged_step_prologue | intros _].
  apply unchanged_bind; [apply unchanged_get_self | intros e].
  apply unchanged_bind; [apply unchanged_is_boundary | intros b].
  apply unchanged_bind; [| intros _; apply unchanged_step_epilogue].
  apply unchanged_when, unchanged_take_model_step.
Qed.

End StepFrame.

Lemma engine_view_ignores_trace {X} (g : DeepSpeedLight -> X) :
  ignores_trace (fun w => g (self w)).
Proof. intros e s t t'. reflexivity. Qed.

Lemma engine_view_ignores_fs {X} (g : DeepSpeedLight -> X) :
  ignores_fs (fun w => g (self w)).
Proof. intros e s s' t. reflexivity. Qed.

Lemma unchanged_assign {X} (g : DeepSpeedLight -> X)
    (h : DeepSpeedLight -> DeepSpeedLight) :
  (forall e, g (h e) = g e) -> unchanged (fun w => g (self w)) (set_self h).
Proof. intros Hg [e s t]. apply Hg. Qed.

Lemma fs_ignores_trace : ignores_trace fs.
Proof. intros e s t t'. reflexivity. Qed.

Lemma fs_ignores_self : ignores_self fs.
Proof. intros e e' s t. reflexivity. Qed.

Lemma self_ignores_trace : ignores_trace self.
Proof. intros e s t t'. reflexivity. Qed.

Lemma self_ignores_fs : ignores_fs self.
Proof. intros e s s' t. reflexivity. Qed.

(** X4: [step] leaves the settings of the engine alone: the configuration,
    the model-parallel unit, [global_rank], [world_size], [dp_world_size],
    [mp_world_size], [sample_count], [gradient_average], the names of the
    sparse parameters, the world sizes a checkpoint load recorded and the
    two flags that say which checkpoint files the rank writes are the same
    after the call as before, whether the call returns or raises, at a
    boundary or not, with an overflow or not. *)
Theorem step_keeps_the_settings `{Collaborators} (w : World) :
  settings (self (snd (StepControl.step w))) = settings (self w).
Proof.
  apply (unchanged_step (fun w => settings (self w)));
    [apply engine_view_ignores_trace | intros; apply unchanged_assign; intros ..];
    reflexivity.
Qed.

(** ** Loading a checkpoint *)

Section LoadFrame.
Context `{Collaborators} {X : Type} (f : World -> X).
Hypothesis Htrace : ignores_trace f.
Hypothesis Hmodule : forall m, unchanged f (set_self (set_module m)).
Hypothesis Hoptimizer :
  forall o, unchanged f (set_self (set_optimizer (Some o))).
Hypothesis Hscheduler :
  forall s, unchanged f (set_self (set_lr_scheduler (Some s))).
Hypothesis Hnames :
  forall v, unchanged f (set_self (set_csr_tensor_module_names v)).
Hypothesis Hglobal : forall v, unchanged f (set_self (set_global_steps v)).
Hypothesis Hskipped : forall v, unchanged f (set_self (set_skipped_steps v)).
Hypothesis Hmp :
  forall v, unchanged f (set_self (set_loaded_checkpoint_mp_world_size v)).
Hypothesis Hdp :
  forall v, unchanged f (set_self (set_loaded_checkpoint_dp_world_size v)).

Lemma unchanged_os_path_exists (p : string) :
  unchanged f (Checkpoint.os_path_exists p).
Proof using Type.
  apply unchanged_bind; [apply unchanged_get_fs | intros s; apply unchanged_ret].
Qed.

Lemma unchanged_torch_load (p : string) : unchanged f (Checkpoint.torch_load p).
Proof using Type.
  apply unchanged_bind; [apply unchanged_get_fs | intros s].
  destruct (files s !! p); [apply unchanged_ret | apply unchanged_raise].
Qed.

Lemma unchanged_call_optimizer_load (args : M OptimizerLoad) :
  unchanged f args -> unchanged f (Checkpoint.call_optimizer_load args).
Proof using Type*.
  intros Hargs.
  apply unchanged_bind; [apply unchanged_get_self | intros e].
  destruct (optimizer e) as [o|]; [| apply unchanged_raise].
  apply unchanged_bind; [exact Hargs | intros a].
  apply unchanged_bind; [apply unchanged_lift | intros o'].
  apply unchanged_bind; [apply Hoptimizer | intros _].
  now apply unchanged_emit.
Qed.

Lemma unchanged_subscript_then {A} (obj : PyVal) (key : string)
    (k : PyVal -> M A) :
  (forall v, unchanged f (k v)) ->
  unchanged f (bind (lift (Checkpoint.subscript obj key)) k).
Proof using Type.
  intros Hk. apply unchanged_bind; [apply unchanged_lift | exact Hk].
Qed.

Lemma unchanged_load_checkpoint_file (load_dir : string) (tag : Py.tag)
    (strict lo ls : bool) :
  unchanged f (Checkpoint._load_checkpoint load_dir tag strict lo ls).
Proof using Type*.
  apply unchanged_bind; [apply unchanged_get_self | intros e].
  apply unchanged_bind; [apply unchanged_os_path_exists | intros found].
  destruct (negb found).
  { apply unchanged_bind; [now apply unchanged_log_via | intros _].
    apply unchanged_ret. }
  apply unchanged_bind; [now apply unchanged_log_via | intros _].
  apply unchanged_bind; [apply unchanged_torch_load | intros checkpoint].
  apply unchanged_subscript_then. intros sd.
  apply unchanged_bind.
  { apply unchanged_bind; [apply unchanged_get_self | intros e'].
    apply unchanged_bind; [apply unchanged_lift | intros m].
    apply unchanged_bind; [apply Hmodule | intros _].
    now apply unchanged_emit. }
  intros _. apply unchanged_bind.
  { apply unchanged_when.
    destruct (fp16_enabled _); apply unchanged_call_optimizer_load;
      apply unchanged_subscript_then; intros v; apply unchanged_ret. }
  intros _. apply unchanged_bind; [apply unchanged_get_self | intros e1].
  apply unchanged_bind.
  { destruct (lr_scheduler e1) as [sch|]; [| apply unchanged_ret].
    apply unchanged_when, unchanged_subscript_then. intros v.
    apply unchanged_bind; [apply unchanged_lift | intros sch'].
    apply unchanged_bind; [apply Hscheduler | intros _].
    now apply unchanged_emit. }
  intros _.
  apply unchanged_bind; [apply unchanged_lift | intros names].
  apply unchanged_bind; [apply Hnames | intros _].
  apply unchanged_bind; [apply unchanged_lift | intros gs].
  apply unchanged_bind; [apply Hglobal | intros _].
  apply unchanged_bind; [apply unchanged_lift | intros ss].
  apply unchanged_bind; [apply Hskipped | intros _].
  apply unchanged_bind; [apply unchanged_lift | intros mp].
  apply unchanged_bind; [apply Hmp | intros _].
  apply unchanged_bind; [apply unchanged_lift | intros dp].
  apply unchanged_bind; [apply Hdp | intros _].
  apply unchanged_bind; [apply unchanged_lift | intros cs].
  apply unchanged_ret.
Qed.

Lemma unchanged_get_all_zero_checkpoints (load_dir : string) (tag : Py.tag) :
  unchanged f (Checkpoint._get_all_zero_checkpoints load_dir tag).
Proof using Type*.
  apply unchanged_bind; [apply unchanged_get_self | intros e].
  destruct (loaded_checkpoint_dp_world_size e) as [dp|];
    [| apply unchanged_raise].
  apply unchanged_bind; [apply unchanged_get_fs | intros s].
  cbv beta zeta. destruct (Nat.ltb 0 _).
  { apply unchanged_bind; [now apply unchanged_log_via | intros _].
    apply unchanged_ret. }
  apply unchanged_bind;
    [apply unchanged_collect; intros p; apply unchanged_torch_load |].
  intros sds. apply unchanged_bind;
    [apply unchanged_collect; intros sd; apply unchanged_lift |].
  intros osds. apply unchanged_bind; [now apply unchanged_print | intros _].
  apply unchanged_ret.
Qed.

Lemma unchanged_load_zero_checkpoint (load_dir : string) (tag : Py.tag)
    (lo : bool) :
  unchanged f (Checkpoint._load_zero_checkpoint load_dir tag lo).
Proof using Type*.
  apply unchanged_bind; [apply unchanged_get_all_zero_checkpoints |].
  intros [sds|]; [| apply unchanged_ret].
  apply unchanged_bind; [apply unchanged_get_self | intros e].
  apply unchanged_bind; [| intros _; now apply unchanged_print].
  apply unchanged_call_optimizer_load, unchanged_ret.
Qed.

Lemma unchanged_load_checkpoint (load_dir : string) (tag : Py.tag)
    (strict lo ls : bool) :
  unchanged f (Checkpoint.load_checkpoint load_dir tag strict lo ls).
Proof using Type*.
  apply unchanged_bind; [apply unchanged_load_checkpoint_file |].
  intros [load_path client_states].
  apply unchanged_bind; [apply unchanged_get_self | intros e].
  apply unchanged_bind; [| intros _; apply unchanged_ret].
  apply unchanged_when, unchanged_load_zero_checkpoint.
Qed.

End LoadFrame.

(** X5: [load_checkpoint] reads files and writes none: the file system is
    the same after the call, whether it returns or raises.  Of the engine it
    assigns the module, the optimizer, the scheduler, the names of the
    sparse parameters, [global_steps], [skipped_steps] and the two recorded
    world sizes; everything else -- [micro_steps], which no checkpoint
    holds, the configuration, the engine's own world sizes -- is the same
    after the call. *)
Theorem load_checkpoint_writes_no_file `{Collaborators} {X : Type}
    (g : DeepSpeedLight -> X) (w : World) (load_dir : string) (tag : Py.tag)
    (strict lo ls : bool) :
  outside_load g ->
  let w' := snd (Checkpoint.load_checkpoint load_dir tag strict lo ls w) in
  fs w' = fs w /\ g (self w') = g (self w).
Proof.
  intros [H1 H2 H3 H4 H5 H6 H7 H8]. cbv zeta. split.
  - apply (unchanged_load_checkpoint fs);
      [apply fs_ignores_trace | intros; apply unchanged_set_self, fs_ignores_self ..].
  - apply (unchanged_load_checkpoint (fun w => g (self w)));
      [apply engine_view_ignores_trace | intros; apply unchanged_assign; intros ..];
      [apply H1 | apply H2 | apply H3 | apply H4 | apply H5 | apply H6
      | apply H7 | apply H8].
Qed.

Lemma load_checkpoint_writes_no_file_witness :
  let w := Checkpoint.world_after_save [0; 1; 2; 3] in
  let w' := snd (@Checkpoint.load_checkpoint Sample.toy "ckpt" (Py.TagStr "T")
                   true true true w) in
  fs w' = fs w /\ micro_steps (self w') = micro_steps (self w).
Proof.
  apply (@load_checkpoint_writes_no_file Sample.toy _ micro_steps
           (Checkpoint.world_after_save [0; 1; 2; 3]) "ckpt" (Py.TagStr "T")
           true true true).
  split; reflexivity.
Defined.

(** ** Saving a checkpoint *)

Section SaveFrame.
Context {X : Type} (f : World -> X).
Hypothesis Htrace : ignores_trace f.
Hypothesis Hfs : ignores_fs f.

Lemma unchanged_os_mkdir (name : string) :
  unchanged f (Checkpoint.os_mkdir name).
Proof using Hfs.
  apply unchanged_bind; [apply unchanged_get_fs | intros s].
  cbv zeta.
  repeat match goal with
         | |- unchanged f (if ?c then _ else _) =>
             destruct c; [apply unchanged_raise |]
         end.
  now apply unchanged_set_fs.
Qed.

Lemma unchanged_os_makedirs (name : string) :
  unchanged f (Checkpoint.os_makedirs name).
Proof using Hfs.
  unfold Checkpoint.os_makedirs.
  destruct (String.eqb name ""); [apply unchanged_raise |].
  apply unchanged_bind; [| intros _; apply unchanged_os_mkdir].
  apply unchanged_for_each. intros d.
  apply unchanged_bind; [apply unchanged_get_fs | intros s].
  apply unchanged_when, unchanged_os_mkdir.
Qed.

Lemma unchanged_torch_save (obj : PyVal) (path : string) :
  unchanged f (Checkpoint.torch_save obj path).
Proof using Hfs.
  apply unchanged_bind; [apply unchanged_get_fs | intros s].
  cbv beta zeta.
  repeat match goal with
         | |- unchanged f (if ?c then _ else _) =>
             destruct c; [apply unchanged_raise |]
         end.
  now apply unchanged_set_fs.
Qed.

Lemma unchanged_ensure_directory_exists (filename : string) :
  unchanged f (Checkpoint._ensure_directory_exists filename).
Proof using Hfs.
  apply unchanged_bind; [| intros b; apply unchanged_when, unchanged_os_makedirs].
  apply unchanged_bind; [apply unchanged_get_fs | intros s; apply unchanged_ret].
Qed.

Lemma unchanged_create_checkpoint_file (save_dir : string) (tag : Py.tag)
    (zero_checkpoint : bool) :
  unchanged f (Checkpoint._create_checkpoint_file save_dir tag zero_checkpoint).
Proof using Type*.
  apply unchanged_bind; [apply unchanged_get_self | intros e].
  apply unchanged_try_except.
  - apply unchanged_bind.
    + destruct zero_checkpoint; [apply unchanged_lift | apply unchanged_ret].
    + intros name.
      apply unchanged_bind; [apply unchanged_ensure_directory_exists |].
      intros _; apply unchanged_ret.
  - apply unchanged_bind; [now apply unchanged_log_via |].
    intros _; apply unchanged_ret.
Qed.

Lemma unchanged_create_zero_files_from (ranks : list Z) (save_dir : string)
    (tag : Py.tag) (success : bool) :
  unchanged f (Checkpoint.create_zero_files_from ranks save_dir tag success).
Proof using Type*.
  revert success. induction ranks as [|rank rest IH]; intros success;
    cbn [Checkpoint.create_zero_files_from]; [apply unchanged_ret |].
  apply unchanged_bind; [apply unchanged_get_self | intros e].
  apply unchanged_bind.
  - destruct (rank =? global_rank e);
      [apply unchanged_create_checkpoint_file | apply unchanged_ret].
  - intros success'.
    apply unchanged_bind; [now apply unchanged_emit | intros _; apply IH].
Qed.

Lemma unchanged_save_checkpoint (save_dir : string) (tag : Py.tag)
    (client_state : list (string * PyVal)) :
  unchanged f (Checkpoint.save_checkpoint save_dir tag client_state).
Proof using Type*.
  apply unchanged_bind; [apply unchanged_get_self | intros e].
  apply unchanged_bind.
  { apply unchanged_when.
    apply unchanged_bind; [apply unchanged_create_checkpoint_file | intros _].
    apply unchanged_bind; [apply unchanged_get_self | intros e'].
    apply unchanged_bind; [now apply unchanged_log_via | intros _].
    apply unchanged_torch_save. }
  intros _. apply unchanged_bind; [| intros _; apply unchanged_ret].
  apply unchanged_when.
  apply unchanged_bind.
  { apply unchanged_bind; [apply unchanged_get_self | intros e'].
    apply unchanged_create_zero_files_from. }
  intros _. apply unchanged_bind; [apply unchanged_get_self | intros e'].
  apply unchanged_bind; [apply unchanged_lift | intros name].
  destruct (optimizer e'); [| apply unchanged_raise].
  apply unchanged_bind; [apply unchanged_torch_save | intros _].
  now apply unchanged_log_via.
Qed.

End SaveFrame.

(** X6: [save_checkpoint] does not change the engine: every attribute, the
    counters, the optimizer and the module among them, is the same after the
    call, whether the save returns or raises and whatever the client state
    holds. *)
Theorem save_checkpoint_leaves_engine_unchanged (w : World)
    (save_dir : string) (tag : Py.tag) (client_state : list (string * PyVal)) :
  self (snd (Checkpoint.save_checkpoint save_dir tag client_state w)) = self w.
Proof.
  apply (unchanged_save_checkpoint self);
    [apply self_ignores_trace | apply self_ignores_fs].
Qed.

End Frame.

(** * Sequences of training steps *)

Module StepSequences.
Local Open Scope string_scope.
Local Open Scope Z_scope.
Local Open Scope engine_scope.

(** The calls [step] makes on the model, the optimizer and the scheduler. *)
Definition is_collaborator_call (ev : event) : bool :=
  match ev with
  | ClipGradNorm _ _ | CallOptimizerStep | CallOptimizerZeroGrad
  | CallModuleZeroGrad | CallLRSchedulerStep => true
  | _ => false
  end.

Definition collaborator_calls (w : World) : list event :=
  List.filter is_collaborator_call (trace w).

(** An engine on which [step] cannot fail: it has an optimizer, it writes no
    summaries, it accumulates over at least one micro step and, where it
    reports progress, it does so every [steps_per_print] steps with
    [steps_per_print] not zero. *)
Definition ready (w : World) : Prop :=
  optimizer (self w) <> None
  /\ tensorboard_enabled (_config (self w)) = false
  /\ 1 <= gradient_accumulation_steps (_config (self w))
  /\ (StepControl.report_progress_of (self w) = false
      \/ steps_per_print (_config (self w)) <> 0).

(** What happens between two calls of [step] -- the forward and backward
    passes -- as far as the counters are concerned: it returns, it may
    change the optimizer but does not remove it, and it does not call the
    scheduler. *)
Definition quiet (between : M unit) : Prop :=
  forall w, exists w',
    between w = (Return tt, w')
    /\ StepControl.same_but_optimizer (self w') (self w)
    /\ (optimizer (self w) <> None -> optimizer (self w') <> None)
    /\ StepControl.lr_scheduler_steps w' = StepControl.lr_scheduler_steps w.

Section Loop.
Context `{Collaborators}.

(** [for _ in range(n): between(); engine.step()] *)
Fixpoint train_loop (between : M unit) (n : nat) : M unit :=
  match n with
  | O => ret tt
  | S n' => between ;;; StepControl.step ;;; train_loop between n'
  end.

End Loop.

(** Optimizer steps that were not skipped and scheduler steps go together:
    the difference below does not move. *)
Definition balance (w : World) : Z :=
  global_steps (self w) - skipped_steps (self w)
  - Z.of_nat (StepControl.lr_scheduler_steps w).

(** How many of the micro steps [m + 1 .. m + n] close an accumulation cycle
    of length [K]. *)
Definition boundaries_between (K m n : Z) : Z := (m + n) / K - m / K.

Section StepFacts.
Context `{Collaborators}.

Lemma filter_snoc_other (tr : list event) (ev : event) :
  is_collaborator_call ev = false ->
  List.filter is_collaborator_call (tr ++ [ev])
  = List.filter is_collaborator_call tr.
Proof.
  intros Hev. rewrite List.filter_app. cbn [List.filter].
  now rewrite Hev, app_nil_r.
Qed.

(** The end of [step] when no summary is written. *)
Lemma step_epilogue_run (rp : bool) (w : World) :
  (tensorboard_enabled (_config (self w)) = false
   \/ fst (StepControl.is_gradient_accumulation_boundary w) = Return false) ->
  gradient_accumulation_steps (_config (self w)) <> 0 ->
  exists w',
    StepControl.step_epilogue rp w = (Return tt, w')
    /\ self w' = set_micro_steps (micro_steps (self w) + 1) (self w)
    /\ fs w' = fs w
    /\ collaborator_calls w' = collaborator_calls w
    /\ StepControl.lr_scheduler_steps w' = StepControl.lr_scheduler_steps w.
Proof.
  intros Hquiet Hgas.
  assert (Hb : exists b, forall w1, self w1 = self w ->
            StepControl.is_gradient_accumulation_boundary w1 = (Return b, w1)
            /\ b && tensorboard_enabled (_config (self w)) = false).
  { exists ((micro_steps (self w) + 1)
              mod gradient_accumulation_steps (_config (self w)) =? 0).
    intros w1 Hw1. rewrite StepControl.is_boundary_run, Hw1.
    unfold Py.modulo. apply Z.eqb_neq in Hgas. rewrite Hgas. cbn [rbind].
    split; [reflexivity |].
    destruct Hquiet as [-> | Hq]; [apply andb_false_r |].
    rewrite StepControl.is_boundary_run in Hq. unfold Py.modulo in Hq.
    rewrite Hgas in Hq. cbn in Hq. injection Hq as ->. reflexivity. }
  destruct Hb as [b Hb].
  cut (exists w',
    StepControl.step_epilogue rp w = (Return tt, w')
    /\ self w' = set_micro_steps (micro_steps (self w) + 1) (self w)
    /\ fs w' = fs w
    /\ collaborator_calls w' = collaborator_calls w).
  { intros (w' & Hrun & Hself & Hfs & Hcalls). exists w'.
    repeat split; try assumption.
    pose proof (StepControl.keeps_step_epilogue rp w) as Hk.
    rewrite Hrun in Hk. unfold StepControl.progress in Hk. cbn [snd] in Hk.
    now injection Hk. }
  unfold StepControl.step_epilogue.
  unfold bind at 1. cbn [get_self].
  unfold bind at 1. cbn [emit].
  set (w1 := {| self := self w; fs := fs w;
                trace := trace w ++ [TputTimerStop rp] |}).
  assert (Htb :
    when (tensorboard_enabled (_config (self w)))
      (b <- StepControl.is_gradient_accumulation_boundary ;;
       when (b && (global_rank (self w) =? 0))
         (lr <- StepControl.get_lr ;;
          match lr with
          | [] => raise IndexError
          | _ :: _ => emit (SummaryScalar "Train/Samples/lr") ;;; emit SummaryFlush
          end)) w1 = (Return tt, w1)).
  { destruct (tensorboard_enabled _) eqn:Etb; [| reflexivity].
    cbn [when]. destruct (Hb w1 eq_refl) as [Hrun Hoff].
    rewrite (bind_return _ _ _ _ _ Hrun).
    rewrite andb_true_r in Hoff. now rewrite Hoff. }
  unfold bind at 1. rewrite Htb.
  destruct (wall_clock_breakdown (_config (self w))); cbn [when].
  - unfold bind at 1. unfold bind at 1. cbn [emit].
    unfold bind at 1. cbn [emit]. unfold bind at 1. cbn [emit].
    unfold bind at 1.
    match goal with
    | |- context [StepControl.is_gradient_accumulation_boundary ?w3] =>
        destruct (Hb w3 eq_refl) as [Hrun Hoff]
    end.
    rewrite Hrun, Hoff. cbn [andb when].
    eexists; split; [reflexivity |]. cbn [self fs trace].
    repeat split.
    unfold collaborator_calls. subst w1. cbn [trace self fs].
    now rewrite !filter_snoc_other by reflexivity.
  - eexists; split; [reflexivity |]. cbn [self fs trace].
    repeat split.
    unfold collaborator_calls. subst w1. cbn [trace self fs].
    now rewrite !filter_snoc_other by reflexivity.
Qed.

(** The head of [step] when there is an optimizer. *)
Lemma step_prologue_runs (w : World) :
  optimizer (self w) <> None ->
  exists w1,
    StepControl.step_prologue w = (Return tt, w1)
    /\ self w1 = self w /\ fs w1 = fs w
    /\ collaborator_calls w1 = collaborator_calls w
    /\ StepControl.lr_scheduler_steps w1 = StepControl.lr_scheduler_steps w.
Proof.
  intros Ho. unfold StepControl.step_prologue, bind, get_self, when.
  destruct (optimizer (self w)) as [o|] eqn:Eo; [| now elim Ho].
  destruct (wall_clock_breakdown _); cbn; rewrite ?Eo;
    (eexists; split; [reflexivity |]); cbn [self fs trace]; repeat split.
  - unfold collaborator_calls. cbn [trace].
    now rewrite !filter_snoc_other by reflexivity.
  - unfold StepControl.lr_scheduler_steps. cbn [trace].
    now rewrite !StepControl.count_snoc_other by reflexivity.
Qed.

(** X7: a call of [step] that does not close an accumulation cycle, on an
    engine with an optimizer: the call returns, also when summaries are
    enabled; it adds 1 to [micro_steps] and assigns nothing else, so
    [global_steps], [skipped_steps], the optimizer and the scheduler are as
    before; it writes no file; and it makes no call on the optimizer, the
    scheduler or the model: no clipping, no [optimizer.step()], no
    [zero_grad()], no [lr_scheduler.step()]. *)
Theorem step_between_boundaries_only_counts (w : World) :
  let m := micro_steps (self w) in
  let K := gradient_accumulation_steps (_config (self w)) in
  optimizer (self w) <> None ->
  K <> 0 ->
  (m + 1) mod K <> 0 ->
  exists w',
    StepControl.step w = (Return tt, w')
    /\ self w' = set_micro_steps (m + 1) (self w)
    /\ fs w' = fs w
    /\ collaborator_calls w' = collaborator_calls w.
Proof.
  intros m K Ho HK Hmod. unfold StepControl.step.
  destruct (step_prologue_runs w Ho) as (w1 & Hpro & Hself1 & Hfs1 & Hcalls1 & _).
  rewrite (bind_return _ _ _ _ _ Hpro).
  rewrite (bind_return get_self _ w1 w1 (self w1)) by reflexivity.
  assert (Hb : StepControl.is_gradient_accumulation_boundary w1
               = (Return false, w1)).
  { rewrite StepControl.is_boundary_run, Hself1. fold m K. unfold Py.modulo.
    apply Z.eqb_neq in HK, Hmod. now rewrite HK; cbn [rbind]; rewrite Hmod. }
  rewrite (bind_return _ _ _ _ _ Hb). cbn [when].
  rewrite (bind_return (ret tt) _ w1 w1 tt) by reflexivity.
  destruct (step_epilogue_run (StepControl.report_progress_of (self w1)) w1)
    as (w' & Hrun & Hself & Hfs & Hcalls & _).
  - right. now rewrite Hb.
  - now rewrite Hself1.
  - exists w'. split; [exact Hrun |].
    rewrite Hself, Hfs, Hcalls, Hself1, Hfs1, Hcalls1. repeat split.
Qed.

(** X8: [step] on an engine without an optimizer raises [AssertionError]
    and leaves the engine, [micro_steps] included, and the files as they
    are; no collaborator is called. *)
Theorem step_without_optimizer_raises (w : World) :
  optimizer (self w) = None ->
  fst (StepControl.step w)
  = Raise (AssertionError
             "must provide optimizer during init in order to use step")
  /\ self (snd (StepControl.step w)) = self w
  /\ fs (snd (StepControl.step w)) = fs w
  /\ collaborator_calls (snd (StepControl.step w)) = collaborator_calls w.
Proof.
  intros Ho.
  unfold StepControl.step, StepControl.step_prologue, bind, get_self, when.
  destruct (wall_clock_breakdown _); cbn; rewrite Ho; cbn; repeat split.
  unfold collaborator_calls. cbn [trace].
  now rewrite !filter_snoc_other by reflexivity.
Qed.

End StepFacts.

Lemma step_between_boundaries_only_counts_witness :
  let w := Sample.world_with (Some false) 2 0 in
  exists w',
    @StepControl.step Sample.toy w = (Return tt, w')
    /\ self w' = set_micro_steps (0 + 1) (self w)
    /\ fs w' = fs w
    /\ collaborator_calls w' = collaborator_calls w.
Proof.
  intros w.
  apply (@step_between_boundaries_only_counts Sample.toy w);
    vm_compute; discriminate.
Defined.

Lemma step_without_optimizer_raises_witness :
  let w := {| self := set_optimizer None Sample.engine0; fs := Sample.fs0;
              trace := [] |} in
  fst (@StepControl.step Sample.toy w)
  = Raise (AssertionError
             "must provide optimizer during init in order to use step")
  /\ self (snd (@StepControl.step Sample.toy w)) = self w
  /\ fs (snd (@StepControl.step Sample.toy w)) = fs w
  /\ collaborator_calls (snd (@StepControl.step Sample.toy w))
     = collaborator_calls w.
Proof.
  intros w. apply (@step_without_optimizer_raises Sample.toy w). reflexivity.
Defined.

Section LoopFacts.
Context `{Collaborators}.

(** ** Counting over a training loop *)

Lemma boundaries_between_one (K m : Z) :
  1 <= K ->
  boundaries_between K m 1 = if (m + 1) mod K =? 0 then 1 else 0.
Proof.
  intros HK. unfold boundaries_between.
  pose proof (Z.div_mod m K ltac:(lia)) as Hm.
  pose proof (Z.mod_pos_bound m K ltac:(lia)) as Hr.
  destruct (Z.eq_dec (m mod K + 1) K) as [Hlast|Hmid].
  - assert (Hq : m + 1 = (m / K + 1) * K) by lia.
    rewrite Hq, Z.div_mul, Z.mod_mul by lia. cbn. lia.
  - assert (Hdiv : (m + 1) / K = m / K).
    { symmetry. apply (Z.div_unique_pos _ _ _ (m mod K + 1)); lia. }
    assert (Hmod : (m + 1) mod K = m mod K + 1).
    { symmetry. apply (Z.mod_unique_pos _ _ (m / K)); lia. }
    rewrite Hdiv, Hmod.
    destruct (Z.eqb_spec (m mod K + 1) 0); lia.
Qed.

Lemma boundaries_between_succ (K m : Z) (n : nat) :
  boundaries_between K m 1 + boundaries_between K (m + 1) (Z.of_nat n)
  = boundaries_between K m (Z.of_nat (S n)).
Proof.
  unfold boundaries_between.
  replace (m + Z.of_nat (S n)) with (m + 1 + Z.of_nat n) by lia. lia.
Qed.

(** What [step] assigns in the boundary block leaves the rest alone. *)
Lemma take_model_step_outside {X} (g : DeepSpeedLight -> X) (rp : bool)
    (w : World) :
  (forall o e, g (set_optimizer (Some o) e) = g e) ->
  (forall s e, g (set_lr_scheduler (Some s) e) = g e) ->
  (forall v e, g (set_skipped_steps v e) = g e) ->
  (forall v e, g (set_global_steps v e) = g e) ->
  g (self (snd (StepControl.take_model_step rp w))) = g (self w).
Proof.
  intros Ho Hs Hk Hg.
  apply (Frame.unchanged_take_model_step (fun w => g (self w)));
    [apply Frame.engine_view_ignores_trace
    | intros; apply Frame.unchanged_assign; intros ..];
    [apply Ho | apply Hs | apply Hk | apply Hg].
Qed.

(** The boundary block replaces the optimizer by what its methods return
    and does not remove it. *)
Lemma take_model_step_keeps_optimizer (rp : bool) (w : World) :
  optimizer (self w) <> None ->
  optimizer (self (snd (StepControl.take_model_step rp w))) <> None.
Proof.
  destruct (optimizer (self w)) as [o|] eqn:Eo; [intros _ | tauto].
  destruct (StepControl.take_model_step_head rp w o Eo)
    as (w3 & Ho3 & _ & _ & ->).
  match goal with
  | |- optimizer (self (snd (?tail w3))) <> None =>
      cut (Frame.unchanged (fun w => optimizer (self w)) tail)
  end.
  { intros Htail. rewrite (Htail w3), Ho3. discriminate. }
  pose proof (Frame.engine_view_ignores_trace optimizer) as Htrace.
  apply Frame.unchanged_bind; [apply Frame.unchanged_get_self | intros e1].
  apply Frame.unchanged_bind;
    [| intros _; now apply Frame.unchanged_assign].
  destruct (match optimizer e1 with Some _ => _ | None => _ end);
    [now apply Frame.unchanged_assign |].
  apply Frame.unchanged_bind.
  { apply Frame.unchanged_step_lr_scheduler; [exact Htrace |].
    intros s. now apply Frame.unchanged_assign. }
  intros _.
  apply Frame.unchanged_bind; [apply Frame.unchanged_get_self | intros e2].
  destruct rp; [| apply Frame.unchanged_ret].
  apply Frame.unchanged_bind; [apply Frame.unchanged_lift | intros r].
  now apply Frame.unchanged_when, Frame.unchanged_report_progress.
Qed.

(** The boundary block, taken or not. *)
Lemma boundary_block_run (b : bool) (w : World) :
  let rp := StepControl.report_progress_of (self w) in
  optimizer (self w) <> None ->
  rp = false \/ steps_per_print (_config (self w)) <> 0 ->
  exists w2,
    when b (StepControl.take_model_step rp) w = (Return tt, w2)
    /\ _config (self w2) = _config (self w)
    /\ global_rank (self w2) = global_rank (self w)
    /\ optimizer (self w2) <> None
    /\ micro_steps (self w2) = micro_steps (self w)
    /\ global_steps (self w2) = global_steps (self w) + (if b then 1 else 0)
    /\ skipped_steps (self w) <= skipped_steps (self w2)
    /\ (lr_scheduler (self w) <> None ->
        lr_scheduler (self w2) <> None /\ balance w2 = balance w).
Proof.
  intros rp Ho Hrp. destruct b; cbn [when].
  2:{ exists w. repeat split; try lia; tauto. }
  pose proof (take_model_step_outside micro_steps rp w
                ltac:(reflexivity) ltac:(reflexivity) ltac:(reflexivity)
                ltac:(reflexivity)) as Hmicro.
  pose proof (take_model_step_outside global_rank rp w
                ltac:(reflexivity) ltac:(reflexivity) ltac:(reflexivity)
                ltac:(reflexivity)) as Hrank.
  pose proof (take_model_step_keeps_optimizer rp w Ho) as Hopt.
  destruct (optimizer (self w)) as [o|] eqn:Eo; [clear Ho | now elim Ho].
  assert (Hcases :
    overflow (StepControl.optimizer_at_overflow_check (_config (self w)) o)
      = Some true
    \/ overflow (StepControl.optimizer_at_overflow_check (_config (self w)) o)
       <> Some true).
  { destruct (overflow _) as [[|]|]; [now left | right | right]; discriminate. }
  destruct Hcases as [Eflag|Eflag].
  - destruct (StepControl.take_model_step_overflow rp w o Eo Eflag)
      as (w2 & Hrun & Hp & Hc).
    rewrite Hrun in Hmicro, Hrank, Hopt. cbn [snd] in Hmicro, Hrank, Hopt.
    unfold StepControl.progress in Hp.
    injection Hp as Hs Hg Hl Hn.
    exists w2. repeat split; try assumption; try lia.
    + now rewrite Hl.
    + unfold balance. rewrite Hs, Hg, Hn. lia.
  - destruct (StepControl.take_model_step_no_overflow rp w o Eo Eflag Hrp)
      as (w2 & Hrun & Hs & Hg & Hc & Hsch).
    rewrite Hrun in Hmicro, Hrank, Hopt. cbn [snd] in Hmicro, Hrank, Hopt.
    exists w2. repeat split; try assumption; try lia;
      destruct (lr_scheduler (self w)) as [sch|]; try tauto;
      destruct Hsch as [Hl Hn].
    + now rewrite Hl.
    + unfold balance. rewrite Hs, Hg, Hn. lia.
Qed.

(** One call of [step] on a ready engine. *)
Lemma step_run (w : World) :
  let K := gradient_accumulation_steps (_config (self w)) in
  ready w ->
  exists w',
    StepControl.step w = (Return tt, w')
    /\ ready w'
    /\ gradient_accumulation_steps (_config (self w')) = K
    /\ micro_steps (self w') = micro_steps (self w) + 1
    /\ global_steps (self w')
       = global_steps (self w) + boundaries_between K (micro_steps (self w)) 1
    /\ skipped_steps (self w) <= skipped_steps (self w')
    /\ (lr_scheduler (self w) <> None ->
        lr_scheduler (self w') <> None /\ balance w' = balance w).
Proof.
  intros K Hready.
  pose proof Hready as (Ho & Htb & HK & Hrp). fold K in HK.
  unfold StepControl.step.
  destruct (step_prologue_runs w Ho) as (w1 & Hpro & Hself1 & _ & _ & Hn1).
  rewrite (bind_return _ _ _ _ _ Hpro).
  rewrite (bind_return get_self _ w1 w1 (self w1)) by reflexivity.
  set (b := (micro_steps (self w) + 1) mod K =? 0).
  assert (Hb : StepControl.is_gradient_accumulation_boundary w1
               = (Return b, w1)).
  { rewrite StepControl.is_boundary_run, Hself1. fold K. unfold Py.modulo.
    destruct (Z.eqb_spec K 0); [lia | reflexivity]. }
  rewrite (bind_return _ _ _ _ _ Hb).
  destruct (boundary_block_run b w1)
    as (w2 & Hrun & Hc2 & Hr2 & Ho2 & Hm2 & Hg2 & Hs2 & Hbal);
    [now rewrite Hself1 | now rewrite Hself1 |].
  rewrite (bind_return _ _ _ _ _ Hrun).
  destruct (step_epilogue_run (StepControl.report_progress_of (self w1)) w2)
    as (w' & Hepi & Hself & _ & _ & Hn).
  { left. now rewrite Hc2, Hself1. }
  { rewrite Hc2, Hself1. fold K. lia. }
  rewrite Hself1 in *.
  exists w'. split; [exact Hepi |].
  assert (Hc : _config (self w') = _config (self w)) by now rewrite Hself.
  split.
  { unfold ready, StepControl.report_progress_of in *. rewrite Hc, Hself.
    cbn. rewrite Hr2. repeat split; assumption. }
  rewrite Hself. cbn.
  rewrite Hc2, Hm2, Hg2, boundaries_between_one by exact HK.
  fold b. repeat split; try reflexivity; try assumption.
  - now apply Hbal.
  - match goal with
    | Hsch : lr_scheduler _ <> None |- _ => destruct (Hbal Hsch) as [_ Hbal2]
    end.
    unfold balance in *. rewrite Hn, Hself. cbn.
    rewrite Hn1, Hself1 in Hbal2. exact Hbal2.
Qed.

(** X9: a training loop of [n] rounds on a ready engine, each round the
    forward and backward passes followed by [step].  The loop returns;
    [micro_steps] goes up by [n]; [global_steps] goes up by the number of
    micro steps among the [n] that close an accumulation cycle,
    [(m + n) // K - m // K] for [m] micro steps before the loop and cycles
    of [K]; the engine is ready for more; [skipped_steps] does not go down;
    and with a scheduler, the steps that were not skipped are the steps of
    the scheduler: [global_steps - skipped_steps] and the number of calls of
    [lr_scheduler.step()] go up by the same amount. *)
Theorem train_loop_counts (between : M unit) (n : nat) (w : World) :
  let K := gradient_accumulation_steps (_config (self w)) in
  let m := micro_steps (self w) in
  quiet between ->
  ready w ->
  exists w',
    train_loop between n w = (Return tt, w')
    /\ ready w'
    /\ micro_steps (self w') = m + Z.of_nat n
    /\ global_steps (self w')
       = global_steps (self w) + boundaries_between K m (Z.of_nat n)
    /\ skipped_steps (self w) <= skipped_steps (self w')
    /\ (lr_scheduler (self w) <> None -> balance w' = balance w).
Proof.
  intros K m Hquiet. subst K m. revert w.
  induction n as [|n IH]; intros w Hready.
  - exists w. split; [reflexivity |]. split; [exact Hready |].
    unfold boundaries_between. rewrite !Z.add_0_r. repeat split; lia.
  - cbn [train_loop].
    destruct (Hquiet w) as (w0 & Hbetween & Hsame & Hopt & Hn0).
    rewrite (bind_return _ _ _ _ _ Hbetween).
    pose proof (f_equal micro_steps Hsame) as Hm0.
    pose proof (f_equal global_rank Hsame) as Hr0.
    apply StepControl.same_but_optimizer_fields in Hsame as (Hs0 & Hg0 & Hl0 & Hc0).
    cbn in Hm0, Hr0.
    assert (Hready0 : ready w0).
    { destruct Hready as (Ho & Htb & HK & Hrp).
      unfold ready, StepControl.report_progress_of in *.
      rewrite Hc0, Hr0. repeat split; auto. }
    destruct (step_run w0 Hready0)
      as (w1 & Hstep & Hready1 & HK1 & Hm1 & Hg1 & Hs1 & Hbal1).
    rewrite (bind_return _ _ _ _ _ Hstep).
    destruct (IH w1 Hready1) as (w' & Hloop & Hready' & Hm' & Hg' & Hs' & Hbal').
    exists w'. split; [exact Hloop |]. split; [exact Hready' |].
    rewrite Hm', Hg', Hm1, Hg1, HK1, Hc0, Hm0, Hg0.
    rewrite <- boundaries_between_succ.
    repeat split; try lia.
    intros Hsch. rewrite <- Hl0 in Hsch.
    destruct (Hbal1 Hsch) as [Hsch1 Hb1].
    rewrite (Hbal' Hsch1), Hb1. unfold balance. now rewrite Hg0, Hs0, Hn0.
Qed.

End LoopFacts.


Lemma quiet_ret : quiet (ret tt).
Proof. intros w. exists w. repeat split. tauto. Qed.

Lemma train_loop_counts_witness :
  let w := Sample.world_with (Some false) 2 1 in
  exists w',
    @train_loop Sample.toy (ret tt) 5 w = (Return tt, w')
    /\ ready w'
    /\ micro_steps (self w') = 1 + 5
    /\ global_steps (self w') = 0 + boundaries_between 2 1 5
    /\ skipped_steps (self w) <= skipped_steps (self w')
    /\ (lr_scheduler (self w) <> None -> balance w' = balance w).
Proof.
  intros w.
  apply (@train_loop_counts Sample.toy (ret tt) 5 w quiet_ret).
  unfold ready. cbn. repeat split; [discriminate | lia | right; discriminate].
Defined.

End StepSequences.

(** * Checkpoints: creation, content, round trip *)

Module CheckpointFacts.
Import Checkpoint.
Local Open Scope string_scope.
Local Open Scope Z_scope.
Local Open Scope engine_scope.

(** [name_function(save_dir, tag)] of [_create_checkpoint_file]. *)
Definition checkpoint_name_of (e : DeepSpeedLight) (save_dir : string)
    (tag : Py.tag) (zero_checkpoint : bool) : result string :=
  if zero_checkpoint then Naming._get_zero_ckpt_name e save_dir tag
  else Return (Naming._get_ckpt_name e save_dir tag).

Definition failure_message (save_dir : string) (tag : Py.tag) : event :=
  Log Error "Failed Saving model checkpoint to {} with tag {}"
    [save_dir; Py.str tag].

(** The world after the message of the [except] branch. *)
Definition logged_failure (save_dir : string) (tag : Py.tag) (w : World)
    : World :=
  {| self := self w; fs := fs w;
     trace := trace w ++ [failure_message save_dir tag] |}.

Definition is_barrier (ev : event) : bool :=
  match ev with
  | Barrier => true
  | _ => false
  end.

(** How often the rank has entered [dist.barrier()]. *)
Definition barriers (w : World) : nat :=
  length (List.filter is_barrier (trace w)).

(** The dictionary [_save_checkpoint] builds from the engine. *)
Definition engine_state (e : DeepSpeedLight) : list (string * PyVal) :=
  [ ("module", module_state_dict (module e));
    ("optimizer",
     match optimizer e with
     | Some o => if negb (zero_enabled (_config e))
                 then optimizer_state_dict o else PyNone
     | None => PyNone
     end);
    ("lr_scheduler",
     match lr_scheduler e with
     | Some sch => lr_scheduler_state_dict sch
     | None => PyNone
     end);
    ("csr_tensor_module_names",
     PyList (map PyStr (csr_tensor_module_names e)));
    ("skipped_steps", PyInt (skipped_steps e));
    ("global_steps", PyInt (global_steps e));
    ("dp_world_size", PyInt (dp_world_size e));
    ("mp_world_size", PyInt (mp_world_size e)) ].

(** [key in deepspeed_states] *)
Definition is_engine_key (key : string) : bool :=
  existsb (String.eqb key) deepspeed_states.

(** [not key in deepspeed_states], on an item of the checkpoint. *)
Definition is_client_item (kv : string * PyVal) : bool :=
  negb (is_engine_key (fst kv)).

(** A client state as a Python dict has it: no key twice. *)
Definition keys (d : list (string * PyVal)) : list string := map fst d.

(** [open(path, 'wb')] succeeds: the path is not empty and not a directory,
    and its directory part, if it has one, is a directory. *)
Definition opens_for_writing (f : FileSystem) (path : string) : bool :=
  let d := PosixPath.dirname path in
  negb (String.eqb path "")
  && (String.eqb d "" || (is_dir f d && negb (is_file f d)))
  && negb (is_dir f path).

(** The file system after [path] was written. *)
Definition written (obj : PyVal) (path : string) (w : World) : World :=
  {| self := self w;
     fs := {| files := <[ path := obj ]> (files (fs w)); dirs := dirs (fs w);
              denied := denied (fs w) |};
     trace := trace w |}.

(** The shard [_save_zero_checkpoint] writes for an optimizer state. *)
Definition zero_shard (sd : PyVal) : PyVal :=
  PyDict [("optimizer_state_dict", sd)].

(** ** Creating the directory *)

Lemma ensure_directory_exists_run (filename : string) (w w' : World) :
  _ensure_directory_exists filename w = (Return tt, w') ->
  exists_in (fs w') (PosixPath.dirname filename) = true.
Proof.
  unfold _ensure_directory_exists, os_path_exists.
  unfold bind at 1. unfold bind at 1. cbn [get_fs ret].
  destruct (exists_in (fs w) (PosixPath.dirname filename)) eqn:E; cbn [negb when].
  { intros [= <-]. exact E. }
  generalize (PosixPath.dirname filename) as d. clear E. intros d.
  unfold os_makedirs. destruct (String.eqb d "") eqn:Ed; [discriminate |].
  unfold bind at 1.
  destruct (for_each _ _ w) as [[[]|ex] w1]; [| discriminate].
  unfold os_mkdir, bind, get_fs. cbv zeta. rewrite Ed.
  repeat match goal with
         | |- (if ?c then _ else _) _ = _ -> _ =>
             destruct c; [discriminate |]
         end.
  intros [= <-]. unfold exists_in. cbn [fs dirs]. rewrite Ed. cbn [negb andb].
  apply orb_true_iff. left. apply bool_decide_eq_true. set_solver.
Qed.

Lemma ensure_directory_exists_is_silent (filename : string) (w : World) :
  self (snd (_ensure_directory_exists filename w)) = self w
  /\ trace (snd (_ensure_directory_exists filename w)) = trace w.
Proof.
  split.
  - apply (Frame.unchanged_ensure_directory_exists self Frame.self_ignores_fs).
  - apply (Frame.unchanged_ensure_directory_exists trace). now intros e s s' t.
Qed.

(** [_create_checkpoint_file] as a function of what the name function and
    [_ensure_directory_exists] do. *)
Lemma create_checkpoint_file_outcome (w : World) (save_dir : string)
    (tag : Py.tag) (zero_checkpoint : bool) :
  _create_checkpoint_file save_dir tag zero_checkpoint w
  = match checkpoint_name_of (self w) save_dir tag zero_checkpoint with
    | Return name =>
        match _ensure_directory_exists name w with
        | (Return _, w1) => (Return true, w1)
        | (Raise _, w1) => (Return false, logged_failure save_dir tag w1)
        end
    | Raise _ => (Return false, logged_failure save_dir tag w)
    end.
Proof.
  unfold _create_checkpoint_file. unfold bind at 1. cbn [get_self].
  unfold try_except.
  assert (Hname : (if zero_checkpoint
                   then fun d t => lift (Naming._get_zero_ckpt_name (self w) d t)
                   else fun d t => ret (Naming._get_ckpt_name (self w) d t))
                    save_dir tag w
                  = (checkpoint_name_of (self w) save_dir tag zero_checkpoint, w)).
  { destruct zero_checkpoint; reflexivity. }
  unfold bind at 1. rewrite Hname.
  destruct (checkpoint_name_of _ _ _ _) as [name|ex].
  - unfold bind at 1.
    destruct (_ensure_directory_exists name w) as [[[]|ex] w1];
      [reflexivity |].
    unfold bind. now rewrite log_via_logger_run.
  - unfold bind. now rewrite log_via_logger_run.
Qed.

(** X10: [_create_checkpoint_file] never raises, for the model-state file
    and for the shard alike: it returns a boolean and leaves the engine as
    it is.  When it returns [True] the name function returned a name, the
    directory of that name exists and nothing was logged; when it returns
    [False] the failure was logged as an error, and that is all it did to
    the trace. *)
Theorem create_checkpoint_file_never_raises (w : World) (save_dir : string)
    (tag : Py.tag) (zero_checkpoint : bool) :
  exists (b : bool) (w' : World),
    _create_checkpoint_file save_dir tag zero_checkpoint w = (Return b, w')
    /\ self w' = self w
    /\ (b = true ->
        trace w' = trace w
        /\ exists name,
             checkpoint_name_of (self w) save_dir tag zero_checkpoint
             = Return name
             /\ exists_in (fs w') (PosixPath.dirname name) = true)
    /\ (b = false ->
        trace w' = (trace w ++ [failure_message save_dir tag])%list).
Proof.
  rewrite create_checkpoint_file_outcome.
  destruct (checkpoint_name_of _ _ _ _) as [name|ex] eqn:Ename.
  - destruct (ensure_directory_exists_is_silent name w) as [Hself Htrace].
    destruct (_ensure_directory_exists name w) as [[[]|ex] w1] eqn:Erun;
      cbn [snd] in Hself, Htrace.
    + exists true, w1. split; [reflexivity |]. split; [exact Hself |].
      split; [| discriminate]. intros _. split; [exact Htrace |].
      exists name. split; [reflexivity |].
      now apply (ensure_directory_exists_run name w).
    + eexists false, _. split; [reflexivity |]. cbn [logged_failure self trace].
      split; [exact Hself |]. split; [discriminate |].
      intros _. now rewrite Htrace.
  - eexists false, _. split; [reflexivity |]. cbn [logged_failure self trace].
    split; [reflexivity |]. split; [discriminate | reflexivity].
Qed.

Lemma create_checkpoint_file_never_raises_witness :
  exists (b : bool) (w' : World),
    _create_checkpoint_file "ckpt" (Py.TagStr "T") false Sample.world0
    = (Return b, w')
    /\ self w' = Sample.engine0
    /\ (b = true ->
        trace w' = []
        /\ exists name,
             checkpoint_name_of Sample.engine0 "ckpt" (Py.TagStr "T") false
             = Return name
             /\ exists_in (fs w') (PosixPath.dirname name) = true)
    /\ (b = false ->
        trace w' = ([] ++ [failure_message "ckpt" (Py.TagStr "T")])%list).
Proof.
  apply (create_checkpoint_file_never_raises Sample.world0 "ckpt"
           (Py.TagStr "T") false).
Defined.

(** ** The barriers of the sequential creation *)

Lemma barriers_snoc (w : World) (ev : event) :
  barriers {| self := self w; fs := fs w; trace := trace w ++ [ev] |}
  = (barriers w + (if is_barrier ev then 1 else 0))%nat.
Proof.
  unfold barriers. cbn [trace]. rewrite List.filter_app, List.length_app.
  cbn [List.filter]. now destruct (is_barrier ev).
Qed.

Lemma create_checkpoint_file_run (w : World) (save_dir : string)
    (tag : Py.tag) (zero_checkpoint : bool) :
  exists (b : bool) (w' : World),
    _create_checkpoint_file save_dir tag zero_checkpoint w = (Return b, w')
    /\ self w' = self w /\ barriers w' = barriers w.
Proof.
  assert (Hlogged : forall w1,
            barriers (logged_failure save_dir tag w1) = barriers w1).
  { intros w1. unfold barriers, logged_failure. cbn [trace].
    rewrite List.filter_app. cbn. now rewrite app_nil_r. }
  rewrite create_checkpoint_file_outcome.
  destruct (checkpoint_name_of _ _ _ _) as [name|ex].
  - destruct (ensure_directory_exists_is_silent name w) as [Hself Htrace].
    destruct (_ensure_directory_exists name w) as [[[]|ex] w1];
      cbn [snd] in Hself, Htrace; eexists; eexists;
      (split; [reflexivity |]); rewrite ?Hlogged;
      (split; [exact Hself |]); unfold barriers; now rewrite Htrace.
  - eexists; eexists. split; [reflexivity |]. rewrite Hlogged.
    split; reflexivity.
Qed.

Lemma create_zero_files_from_run (ranks : list Z) (save_dir : string)
    (tag : Py.tag) (success : bool) (w : World) :
  exists (b : bool) (w' : World),
    create_zero_files_from ranks save_dir tag success w = (Return b, w')
    /\ self w' = self w
    /\ barriers w' = (barriers w + length ranks)%nat
    /\ (~ In (global_rank (self w)) ranks -> b = success).
Proof.
  revert success w. induction ranks as [|rank rest IH]; intros success w;
    cbn [create_zero_files_from].
  - exists success, w. cbn [length]. repeat split. lia.
  - unfold bind at 1. cbn [get_self].
    assert (Hown : exists (s' : bool) (w1 : World),
              (if rank =? global_rank (self w)
               then _create_checkpoint_file save_dir tag true
               else ret success) w = (Return s', w1)
              /\ self w1 = self w /\ barriers w1 = barriers w
              /\ (rank <> global_rank (self w) -> s' = success)).
    { destruct (Z.eqb_spec rank (global_rank (self w))) as [Heq|Hne].
      - destruct (create_checkpoint_file_run w save_dir tag true)
          as (s' & w1 & Hrun & Hself & Hbar).
        exists s', w1. repeat split; try assumption. tauto.
      - exists success, w. repeat split. }
    destruct Hown as (s' & w1 & Hrun & Hself1 & Hbar1 & Hs').
    unfold bind at 1. rewrite Hrun. unfold bind at 1. cbn [emit].
    destruct (IH s' {| self := self w1; fs := fs w1;
                       trace := trace w1 ++ [Barrier] |})
      as (b & w' & Hrest & Hself & Hbar & Hb).
    exists b, w'. split; [exact Hrest |].
    rewrite Hself, Hbar, barriers_snoc, Hbar1. cbn [self is_barrier length].
    split; [exact Hself1 |]. split; [lia |].
    intros Hnot. rewrite Hb, Hs'; [reflexivity | |].
    + intros ->. apply Hnot. now left.
    + rewrite Hself1. intros Hin. apply Hnot. now right.
Qed.

(** X11: [_create_zero_checkpoint_files] never raises and enters the
    barrier exactly [world_size] times, whether the creation of the rank's
    own directory succeeds or fails and also when the rank's number is not
    below [world_size], in which case it creates nothing and returns
    [True]; the engine is left as it is. *)
Theorem create_zero_checkpoint_files_barriers (w : World) (save_dir : string)
    (tag : Py.tag) :
  exists (b : bool) (w' : World),
    _create_zero_checkpoint_files save_dir tag w = (Return b, w')
    /\ self w' = self w
    /\ barriers w' = (barriers w + Z.to_nat (world_size (self w)))%nat
    /\ (~ 0 <= global_rank (self w) < world_size (self w) -> b = true).
Proof.
  unfold _create_zero_checkpoint_files. unfold bind. cbn [get_self].
  destruct (create_zero_files_from_run (range (world_size (self w))) save_dir
              tag true w) as (b & w' & Hrun & Hself & Hbar & Hb).
  exists b, w'. split; [exact Hrun |]. split; [exact Hself |].
  split.
  - rewrite Hbar. unfold range. now rewrite List.length_map, length_seq.
  - intros Hout. apply Hb. unfold range. rewrite in_map_iff.
    intros (k & Hk & Hin). apply in_seq in Hin. lia.
Qed.

Lemma create_zero_checkpoint_files_barriers_witness :
  exists (b : bool) (w' : World),
    _create_zero_checkpoint_files "ckpt" (Py.TagStr "T")
      {| self := zero_rank_engine 2; fs := Sample.fs0; trace := [] |}
    = (Return b, w')
    /\ self w' = zero_rank_engine 2
    /\ barriers w' = (0 + Z.to_nat 4)%nat
    /\ (~ 0 <= 2 < 4 -> b = true).
Proof.
  apply (create_zero_checkpoint_files_barriers
           {| self := zero_rank_engine 2; fs := Sample.fs0; trace := [] |}
           "ckpt" (Py.TagStr "T")).
Defined.

(** ** Dictionaries *)

Lemma dict_get_set_same (k : string) (v : PyVal) (d : list (string * PyVal)) :
  dict_get k (dict_set k v d) = Return v.
Proof.
  induction d as [|[k0 v0] d IH]; cbn [dict_set dict_get].
  - now rewrite String.eqb_refl.
  - destruct (String.eqb k0 k) eqn:E; cbn [dict_get]; now rewrite E.
Qed.

Lemma dict_get_set_other (k k' : string) (v : PyVal)
    (d : list (string * PyVal)) :
  k' <> k -> dict_get k (dict_set k' v d) = dict_get k d.
Proof.
  intros Hne. induction d as [|[k0 v0] d IH]; cbn [dict_set dict_get].
  - apply String.eqb_neq in Hne. now rewrite Hne.
  - destruct (String.eqb k0 k') eqn:E; cbn [dict_get].
    + apply String.eqb_eq in E. subst k0.
      apply String.eqb_neq in Hne. now rewrite Hne.
    + now rewrite IH.
Qed.

Lemma dict_get_absent (k : string) (d : list (string * PyVal)) :
  ~ In k (keys d) -> dict_get k d = Raise (KeyError k).
Proof.
  induction d as [|[k0 v0] d IH]; cbn [dict_get keys map fst In];
    [reflexivity |].
  intros Hnot. destruct (String.eqb_spec k0 k) as [->|Hne]; [tauto |].
  apply IH. tauto.
Qed.

(** [state.update(client_state)]: on every key the client's value wins. *)
Lemma dict_get_update (k : string) (d cs : list (string * PyVal)) :
  List.NoDup (keys cs) ->
  dict_get k (dict_update d cs)
  = match dict_get k cs with
    | Return v => Return v
    | Raise _ => dict_get k d
    end.
Proof.
  unfold dict_update. revert d.
  induction cs as [|[k1 v1] cs IH]; intros d Hnodup; [reflexivity |].
  cbn [fold_left fst snd dict_get]. inversion Hnodup as [|? ? Hk1 Hrest]; subst.
  rewrite (IH _ Hrest).
  destruct (String.eqb_spec k1 k) as [->|Hne].
  - rewrite (dict_get_absent k cs Hk1). apply dict_get_set_same.
  - destruct (dict_get k cs); [reflexivity |].
    now apply dict_get_set_other.
Qed.

Lemma keys_dict_set (k k' : string) (v : PyVal) (d : list (string * PyVal)) :
  In k' (keys (dict_set k v d)) -> In k' (keys d) \/ k' = k.
Proof.
  induction d as [|[k0 v0] d IH]; cbn [dict_set keys map fst In].
  - intros [<-|[]]. now right.
  - destruct (String.eqb k0 k); cbn [map fst In]; [tauto |].
    intros [Hk|Hk]; [tauto |]. destruct (IH Hk); tauto.
Qed.

Lemma dict_set_fresh (k : string) (v : PyVal) (d : list (string * PyVal)) :
  ~ In k (keys d) -> dict_set k v d = (d ++ [(k, v)])%list.
Proof.
  induction d as [|[k0 v0] d IH]; cbn [dict_set keys map fst In app];
    [reflexivity |].
  intros Hnot. destruct (String.eqb_spec k0 k) as [->|Hne]; [tauto |].
  rewrite IH; [reflexivity | tauto].
Qed.

Lemma filter_dict_set_dropped (p : string -> bool) (k : string) (v : PyVal)
    (d : list (string * PyVal)) :
  p k = false ->
  List.filter (fun kv => p (fst kv)) (dict_set k v d)
  = List.filter (fun kv => p (fst kv)) d.
Proof.
  intros Hk. induction d as [|[k0 v0] d IH]; cbn [dict_set List.filter fst].
  - now rewrite Hk.
  - destruct (String.eqb_spec k0 k) as [->|Hne]; cbn [List.filter fst].
    + now rewrite Hk.
    + now rewrite IH.
Qed.

(** The items of the updated dictionary that pass a test on keys, when the
    keys the client shares with the dictionary do not pass it: those of the
    dictionary, then those of the client, in the client's order. *)
Lemma filter_dict_update (p : string -> bool) (d cs : list (string * PyVal)) :
  List.NoDup (keys cs) ->
  (forall k, In k (keys cs) -> In k (keys d) -> p k = false) ->
  List.filter (fun kv => p (fst kv)) (dict_update d cs)
  = (List.filter (fun kv => p (fst kv)) d
     ++ List.filter (fun kv => p (fst kv)) cs)%list.
Proof.
  unfold dict_update. revert d.
  induction cs as [|[k v] cs IH]; intros d Hnodup Hshared.
  - cbn. now rewrite app_nil_r.
  - cbn [fold_left fst snd]. inversion Hnodup as [|? ? Hk Hrest]; subst.
    rewrite (IH _ Hrest).
    + cbn [List.filter fst]. destruct (p k) eqn:Epk.
      * rewrite dict_set_fresh.
        -- rewrite List.filter_app. cbn [List.filter fst]. rewrite Epk.
           now rewrite <- app_assoc.
        -- intros Hin. specialize (Hshared k (or_introl eq_refl) Hin).
           congruence.
      * now rewrite filter_dict_set_dropped.
    + intros k' Hcs Hd. apply keys_dict_set in Hd as [Hd| ->];
        [| contradiction].
      apply Hshared; [now right | exact Hd].
Qed.

Lemma as_names_of_strings (names : list string) :
  as_names (map PyStr names) = Return names.
Proof.
  induction names as [|n names IH]; [reflexivity |].
  cbn [map as_names]. now rewrite IH.
Qed.

(** ** What the model-state file holds *)

Lemma engine_keys_of_state (e : DeepSpeedLight) (k : string) :
  In k (keys (engine_state e)) -> is_engine_key k = true.
Proof.
  cbn. intros Hin.
  repeat (destruct Hin as [<-|Hin]; [reflexivity |]). destruct Hin.
Qed.

Lemma client_items_of_saved_state (e : DeepSpeedLight)
    (cs : list (string * PyVal)) :
  List.NoDup (keys cs) ->
  List.filter is_client_item (dict_update (engine_state e) cs)
  = List.filter is_client_item cs.
Proof.
  intros Hnodup. unfold is_client_item.
  rewrite (filter_dict_update (fun k => negb (is_engine_key k))).
  - reflexivity.
  - exact Hnodup.
  - intros k _ Hin. now rewrite (engine_keys_of_state e k Hin).
Qed.

(** ** Running the save and the load *)

Lemma model_states_name_nonempty (e : DeepSpeedLight) (dir : string) (tag : Py.tag) :
  Naming._get_ckpt_name e dir tag <> "".
Proof.
  rewrite FileNames.model_states_name_of_engine. unfold FileNames.model_states_name.
  rewrite FileNames.join_last by reflexivity.
  destruct (FileNames.joined_prefix _);
    rewrite ?Naming.append_nil, ?Naming.append_cons; discriminate.
Qed.

(** [torch.save] writes exactly when the file can be opened, and changes
    nothing when it cannot. *)
Lemma torch_save_run (obj : PyVal) (path : string) (w : World) :
  if opens_for_writing (fs w) path
  then torch_save obj path w = (Return tt, written obj path w)
  else exists ex, torch_save obj path w = (Raise ex, w).
Proof.
  unfold torch_save, opens_for_writing, bind, get_fs, set_fs, raise, written.
  cbv zeta.
  destruct (String.eqb path ""); cbn [negb andb]; [eauto |].
  destruct (String.eqb (PosixPath.dirname path) ""); cbn [negb andb orb].
  - destruct (is_dir (fs w) path); cbn [negb]; eauto.
  - destruct (is_file (fs w) (PosixPath.dirname path)); cbn [negb andb];
      [rewrite andb_false_r; cbn [andb]; eauto |].
    rewrite andb_true_r.
    destruct (is_dir (fs w) (PosixPath.dirname path)); cbn [negb andb];
      [| eauto].
    destruct (is_dir (fs w) path); cbn [negb]; eauto.
Qed.

Lemma save_checkpoint_file_run (w : World) (save_dir : string)
    (tag : Py.tag) (cs : list (string * PyVal)) :
  let path := Naming._get_ckpt_name (self w) save_dir tag in
  _save_checkpoint save_dir tag cs w
  = torch_save (PyDict (dict_update (engine_state (self w)) cs)) path
      {| self := self w; fs := fs w;
         trace := trace w ++ [Log Info "Saving model checkpoint: {}" [path]] |}.
Proof.
  intros path. unfold _save_checkpoint.
  rewrite (bind_return get_self _ w w (self w)) by reflexivity.
  cbv zeta. fold path. unfold bind at 1.
  now rewrite log_via_logger_run.
Qed.

Lemma save_checkpoint_file_returns (w w' : World) (save_dir : string)
    (tag : Py.tag) (cs : list (string * PyVal)) :
  _save_checkpoint save_dir tag cs w = (Return tt, w') ->
  self w' = self w
  /\ files (fs w') !! Naming._get_ckpt_name (self w) save_dir tag
     = Some (PyDict (dict_update (engine_state (self w)) cs)).
Proof.
  rewrite save_checkpoint_file_run.
  match goal with
  | |- torch_save ?obj ?path ?w1 = _ -> _ =>
      pose proof (torch_save_run obj path w1) as Hrun
  end.
  destruct (opens_for_writing _ _).
  - rewrite Hrun. intros [= <-]. cbn [written self fs files].
    split; [reflexivity | apply lookup_insert_eq].
  - destruct Hrun as [ex ->]. discriminate.
Qed.

Lemma exists_in_file (s : FileSystem) (p : string) (v : PyVal) :
  files s !! p = Some v -> p <> "" -> exists_in s p = true.
Proof.
  intros Hfile Hp. unfold exists_in. apply String.eqb_neq in Hp. rewrite Hp.
  cbn [negb andb]. apply orb_true_iff. right.
  apply bool_decide_eq_true. now rewrite Hfile.
Qed.

(** X12: what [_save_checkpoint] writes, for a client state without a
    repeated key.  When the model-state file can be opened for writing --
    its directory part, if it has one, is a directory, and the path is not
    one -- the method returns and the file holds a dictionary in which every
    key of the client state has the client's value -- also the engine's own
    keys, such as [global_steps], which the client state overrides -- and
    every other key has the engine's value; the items outside the engine's
    eight keys are the client's, in the client's order.  When the file
    cannot be opened the method raises and no file is changed. *)
Theorem saved_state_lets_client_state_win (w : World) (save_dir : string)
    (tag : Py.tag) (cs : list (string * PyVal)) :
  let path := Naming._get_ckpt_name (self w) save_dir tag in
  let out := _save_checkpoint save_dir tag cs w in
  List.NoDup (keys cs) ->
  if opens_for_writing (fs w) path
  then
    exists saved,
      fst out = Return tt
      /\ files (fs (snd out)) !! path = Some (PyDict saved)
      /\ (forall k,
            dict_get k saved
            = match dict_get k cs with
              | Return v => Return v
              | Raise _ => dict_get k (engine_state (self w))
              end)
      /\ List.filter is_client_item saved = List.filter is_client_item cs
  else
    returns (fst out) = false /\ fs (snd out) = fs w.
Proof.
  intros path out Hnodup. subst out.
  rewrite save_checkpoint_file_run. fold path.
  match goal with
  | |- context [torch_save ?obj path ?w1] =>
      pose proof (torch_save_run obj path w1) as Hrun
  end.
  cbn [fs] in Hrun.
  destruct (opens_for_writing (fs w) path).
  - rewrite Hrun. cbn [fst snd written fs files].
    eexists. split; [reflexivity |]. split; [apply lookup_insert_eq |].
    split.
    + intros k. now apply dict_get_update.
    + now apply client_items_of_saved_state.
  - destruct Hrun as [ex ->]. split; reflexivity.
Qed.

Lemma saved_state_lets_client_state_win_witness :
  let w := {| self := Sample.engine0;
              fs := {| files := ∅; dirs := {[ "ckpt/T" ]}; denied := ∅ |};
              trace := [] |} in
  let cs := [("epoch", PyInt 3); ("global_steps", PyInt 7)] in
  let out := _save_checkpoint "ckpt" (Py.TagStr "T") cs w in
  exists saved,
    fst out = Return tt
    /\ files (fs (snd out)) !! "ckpt/T/mp_rank_00_model_states.pt"
       = Some (PyDict saved)
    /\ (forall k,
          dict_get k saved
          = match dict_get k cs with
            | Return v => Return v
            | Raise _ => dict_get k (engine_state Sample.engine0)
            end)
    /\ List.filter is_client_item saved = List.filter is_client_item cs.
Proof.
  intros w cs.
  apply (saved_state_lets_client_state_win w "ckpt" (Py.TagStr "T") cs).
  repeat constructor; cbn; intuition discriminate.
Defined.


(** ** Round trip *)

Section RoundTrip.
Context `{Collaborators}.
Hypothesis module_loads :
  forall m sd strict, exists m', module_load_state_dict m sd strict = Return m'.
Hypothesis optimizer_loads :
  forall o a, exists o', optimizer_load_state_dict o a = Return o'.
Hypothesis scheduler_loads :
  forall s sd, exists s', lr_scheduler_load_state_dict s sd = Return s'.

Lemma saved_lookup (e : DeepSpeedLight) (cs : list (string * PyVal)) (k : string) :
  List.NoDup (keys cs) ->
  List.Forall (fun k => is_engine_key k = false) (keys cs) ->
  is_engine_key k = true ->
  subscript (PyDict (dict_update (engine_state e) cs)) k
  = dict_get k (engine_state e).
Proof.
  intros Hnodup Hfresh Hk. cbn [subscript].
  rewrite dict_get_update by exact Hnodup.
  rewrite dict_get_absent; [reflexivity |].
  intros Hin. rewrite List.Forall_forall in Hfresh.
  specialize (Hfresh k Hin). cbv beta in Hfresh. congruence.
Qed.

Lemma load_module_state_dict_run (sd : PyVal) (strict : bool) (w : World) :
  exists m',
    load_module_state_dict sd strict w
    = (Return tt, {| self := set_module m' (self w); fs := fs w;
                     trace := trace w ++ [CallModuleLoad strict] |}).
Proof using module_loads.
  destruct (module_loads (module (self w)) sd strict) as [m' Hm].
  exists m'. unfold load_module_state_dict, bind, get_self, lift.
  now rewrite Hm.
Qed.

Lemma call_optimizer_load_run (args : M OptimizerLoad) (a : OptimizerLoad)
    (w : World) :
  optimizer (self w) <> None ->
  args w = (Return a, w) ->
  exists o',
    call_optimizer_load args w
    = (Return tt, {| self := set_optimizer (Some o') (self w); fs := fs w;
                     trace := trace w ++ [CallOptimizerLoad a] |}).
Proof using optimizer_loads.
  intros Ho Hargs. destruct (optimizer (self w)) as [o|] eqn:Eo; [| tauto].
  destruct (optimizer_loads o a) as [o' Hload].
  exists o'. unfold call_optimizer_load, bind, get_self, lift.
  now rewrite Eo, Hargs, Hload.
Qed.

Lemma call_lr_scheduler_load_run (sch : LRScheduler) (sd : PyVal) (w : World) :
  exists s',
    call_lr_scheduler_load sch sd w
    = (Return tt, {| self := set_lr_scheduler (Some s') (self w); fs := fs w;
                     trace := trace w ++ [CallLRSchedulerLoad] |}).
Proof using scheduler_loads.
  destruct (scheduler_loads sch sd) as [s' Hs].
  exists s'. unfold call_lr_scheduler_load, bind, lift. now rewrite Hs.
Qed.

Lemma fresh_client_items (cs : list (string * PyVal)) :
  List.Forall (fun k => is_engine_key k = false) (keys cs) ->
  List.filter is_client_item cs = cs.
Proof.
  induction cs as [|[k v] cs IH]; [reflexivity |].
  cbn [keys map fst]. intros Hall. inversion Hall as [|? ? Hk Hrest]; subst.
  cbn [List.filter]. unfold is_client_item at 1. cbn [fst]. rewrite Hk.
  cbn [negb]. now rewrite IH.
Qed.

Lemma load_saved_file_run (e e2 : DeepSpeedLight) (s : FileSystem)
    (tr : list event) (dir : string) (tag : Py.tag)
    (cs : list (string * PyVal)) (strict lo ls : bool) :
  let path := Naming._get_ckpt_name e2 dir tag in
  files s !! path = Some (PyDict (dict_update (engine_state e) cs)) ->
  List.NoDup (keys cs) ->
  List.Forall (fun k => is_engine_key k = false) (keys cs) ->
  zero_enabled (_config e2) = false ->
  optimizer e2 <> None ->
  exists w3,
    _load_checkpoint dir tag strict lo ls {| self := e2; fs := s; trace := tr |}
    = (Return (Some path, Some cs), w3)
    /\ fs w3 = s
    /\ _config (self w3) = _config e2
    /\ global_steps (self w3) = global_steps e
    /\ skipped_steps (self w3) = skipped_steps e
    /\ csr_tensor_module_names (self w3) = csr_tensor_module_names e
    /\ loaded_checkpoint_dp_world_size (self w3) = Some (dp_world_size e)
    /\ loaded_checkpoint_mp_world_size (self w3) = Some (mp_world_size e)
    /\ micro_steps (self w3) = micro_steps e2.
Proof using module_loads optimizer_loads scheduler_loads.
  intros path Hfile Hnodup Hfresh Hzero Hopt.
  unfold _load_checkpoint.
  rewrite (bind_return get_self _ _ _ e2) by reflexivity.
  fold path. rewrite Hzero. cbn [negb when].
  erewrite bind_return.
  2:{ unfold os_path_exists, bind, get_fs, ret. cbn [fs].
      rewrite (exists_in_file s path _ Hfile)
        by apply model_states_name_nonempty.
      reflexivity. }
  cbn [negb].
  unfold bind at 1. rewrite log_via_logger_run.
  erewrite bind_return.
  2:{ unfold torch_load, bind, get_fs. cbn [fs]. rewrite Hfile. reflexivity. }
  rewrite !(saved_lookup e cs _ Hnodup Hfresh) by reflexivity.
  assert (Hclient : client_state_of (PyDict (dict_update (engine_state e) cs))
                    = Return cs).
  { cbn [client_state_of].
    change (List.filter _ (dict_update (engine_state e) cs))
      with (List.filter is_client_item (dict_update (engine_state e) cs)).
    now rewrite client_items_of_saved_state, fresh_client_items. }
  rewrite Hclient.
  change (dict_get "module" (engine_state e))
    with (Return (module_state_dict (module e))).
  change (dict_get "csr_tensor_module_names" (engine_state e))
    with (Return (PyList (map PyStr (csr_tensor_module_names e)))).
  change (dict_get "global_steps" (engine_state e))
    with (Return (PyInt (global_steps e))).
  change (dict_get "skipped_steps" (engine_state e))
    with (Return (PyInt (skipped_steps e))).
  change (dict_get "mp_world_size" (engine_state e))
    with (Return (PyInt (mp_world_size e))).
  change (dict_get "dp_world_size" (engine_state e))
    with (Return (PyInt (dp_world_size e))).
  cbn [rbind as_int as_name_set]. rewrite as_names_of_strings.
  erewrite bind_return by reflexivity.
  match goal with
  | |- context [load_module_state_dict ?sd strict] =>
      match goal with
      | |- exists w3, bind _ _ ?w = _ /\ _ =>
          destruct (load_module_state_dict_run sd strict w) as [m' Hm]
      end
  end.
  rewrite (bind_return _ _ _ _ _ Hm). cbn [self fs trace]. clear Hm.
  assert (exists x, dict_get "optimizer" (engine_state e) = Return x)
    as [sdo Hsdo] by (eexists; reflexivity).
  assert (exists x, dict_get "lr_scheduler" (engine_state e) = Return x)
    as [sds Hsds] by (eexists; reflexivity).
  rewrite Hsdo, Hsds.
  assert (Hoptimizer : exists o' w1,
    (if fp16_enabled (_config e2)
     then call_optimizer_load (sd <- lift (Return sdo) ;; ret (LoadFp16 sd lo))
     else call_optimizer_load (sd <- lift (Return sdo) ;; ret (LoadPlain sd)))
      {| self := set_module m' e2; fs := s;
         trace := (tr ++ [Log Info "Loading checkpoint: {}" [path]])
                  ++ [CallModuleLoad strict] |}
    = (Return tt, {| self := set_optimizer (Some o') (set_module m' e2);
                     fs := s; trace := w1 |})).
  { destruct (fp16_enabled (_config e2));
      match goal with
      | |- exists o' w1, call_optimizer_load ?args ?w = _ =>
          first
            [ destruct (call_optimizer_load_run args (LoadFp16 sdo lo) w Hopt
                          eq_refl) as [o' Ho']
            | destruct (call_optimizer_load_run args (LoadPlain sdo) w Hopt
                          eq_refl) as [o' Ho'] ]
      end; rewrite Ho'; eauto. }
  destruct Hoptimizer as (o' & tr1 & Ho').
  rewrite (bind_return _ _ _ _ _ Ho'). clear Ho'.
  erewrite (bind_return get_self) by reflexivity.
  cbn [self lr_scheduler set_optimizer set_module].
  assert (Hscheduler : exists sch' tr2,
    match lr_scheduler e2 with
    | Some sch =>
        when ls (sd <- lift (Return sds) ;; call_lr_scheduler_load sch sd)
    | None => ret tt
    end {| self := set_optimizer (Some o') (set_module m' e2);
           fs := s; trace := tr1 |}
    = (Return tt,
       {| self := set_lr_scheduler sch'
                    (set_optimizer (Some o') (set_module m' e2));
          fs := s; trace := tr2 |})).
  { destruct (lr_scheduler e2) as [sch|] eqn:Esch.
    - destruct ls; cbn [when].
      + match goal with
        | |- exists sch' tr2, _ ?w = _ =>
            destruct (call_lr_scheduler_load_run sch sds w) as [s' Hs']
        end.
        exists (Some s'). eexists. unfold bind, lift. rewrite Hs'. reflexivity.
      + exists (Some sch). eexists. unfold ret. f_equal.
        destruct e2; cbn in *. now rewrite Esch.
    - exists None. eexists. unfold ret. f_equal.
      destruct e2; cbn in *. now rewrite Esch. }
  destruct Hscheduler as (sch' & tr2 & Hsch).
  rewrite (bind_return _ _ _ _ _ Hsch). clear Hsch.
  eexists. split; [reflexivity |]. cbn. repeat split.
Qed.

(** X13: a checkpoint read back.  An engine without ZeRO saves with
    [save_checkpoint], the save returns, and an engine of the same
    model-parallel rank, with an optimizer and without ZeRO, loads from the
    same directory and tag; the client state has no key twice and none of
    the engine's eight keys, and the collaborators accept what they are
    given.  Then [load_checkpoint] returns the path of the model-state file
    and the client state as it was passed to the save; [global_steps],
    [skipped_steps] and the names of the sparse parameters are those of the
    saving engine, whose world sizes are recorded; [micro_steps] is not part
    of a checkpoint and stays what the loading engine had; no file is
    written. *)
Theorem save_then_load_restores_counters (w w1 : World) (e2 : DeepSpeedLight)
    (tr : list event) (save_dir : string) (tag : Py.tag)
    (cs : list (string * PyVal)) (strict lo ls : bool) :
  save_non_zero_checkpoint (self w) = true ->
  save_zero_checkpoint (self w) = false ->
  save_checkpoint save_dir tag cs w = (Return true, w1) ->
  List.NoDup (keys cs) ->
  List.Forall (fun k => is_engine_key k = false) (keys cs) ->
  Naming.mp_rank_of e2 = Naming.mp_rank_of (self w) ->
  zero_enabled (_config e2) = false ->
  optimizer e2 <> None ->
  exists w3,
    load_checkpoint save_dir tag strict lo ls
      {| self := e2; fs := fs w1; trace := tr |}
    = (Return (Some (Naming._get_ckpt_name (self w) save_dir tag), Some cs), w3)
    /\ fs w3 = fs w1
    /\ global_steps (self w3) = global_steps (self w)
    /\ skipped_steps (self w3) = skipped_steps (self w)
    /\ csr_tensor_module_names (self w3) = csr_tensor_module_names (self w)
    /\ loaded_checkpoint_dp_world_size (self w3) = Some (dp_world_size (self w))
    /\ loaded_checkpoint_mp_world_size (self w3) = Some (mp_world_size (self w))
    /\ micro_steps (self w3) = micro_steps e2.
Proof using module_loads optimizer_loads scheduler_loads.
  intros Hnz Hz Hsave Hnodup Hfresh Hrank Hzero Hopt.
  assert (Hpath : Naming._get_ckpt_name e2 save_dir tag
                  = Naming._get_ckpt_name (self w) save_dir tag).
  { now rewrite !FileNames.model_states_name_of_engine, Hrank. }
  assert (Hfile : files (fs w1) !! Naming._get_ckpt_name e2 save_dir tag
                  = Some (PyDict (dict_update (engine_state (self w)) cs))).
  { rewrite Hpath. unfold save_checkpoint in Hsave.
    unfold bind at 1 in Hsave. cbn [get_self] in Hsave.
    rewrite Hnz, Hz in Hsave. cbn [when] in Hsave.
    destruct (create_checkpoint_file_run w save_dir tag false)
      as (b & w0 & Hcreate & Hself0 & _).
    unfold bind at 1 in Hsave. unfold bind at 1 in Hsave.
    rewrite Hcreate in Hsave.
    destruct (_save_checkpoint save_dir tag cs w0) as [[[]|ex] w0'] eqn:Erun;
      [| discriminate].
    apply save_checkpoint_file_returns in Erun as [_ Hfile].
    rewrite Hself0 in Hfile.
    unfold bind, ret in Hsave. now injection Hsave as <-. }
  destruct (load_saved_file_run (self w) e2 (fs w1) tr save_dir tag cs strict
              lo ls Hfile Hnodup Hfresh Hzero Hopt)
    as (w3 & Hload & Hfs & Hc & Hg & Hs & Hn & Hdp & Hmp & Hmicro).
  exists w3. unfold load_checkpoint. rewrite (bind_return _ _ _ _ _ Hload).
  rewrite (bind_return get_self _ w3 w3 (self w3)) by reflexivity.
  rewrite Hc, Hzero. cbn [andb when]. unfold bind, ret.
  rewrite Hpath. repeat split; assumption.
Qed.

End RoundTrip.

Lemma save_then_load_restores_counters_witness :
  let w := {| self := set_global_steps 7 Sample.engine0; fs := Sample.fs0;
              trace := [] |} in
  let cs := [("epoch", PyInt 3)] in
  let w1 := snd (save_checkpoint "ckpt" (Py.TagStr "T") cs w) in
  exists w3,
    @load_checkpoint Sample.toy "ckpt" (Py.TagStr "T") true true true
      {| self := Sample.engine0; fs := fs w1; trace := [] |}
    = (Return (Some (Naming._get_ckpt_name (self w) "ckpt" (Py.TagStr "T")),
               Some cs), w3)
    /\ fs w3 = fs w1
    /\ global_steps (self w3) = global_steps (self w)
    /\ skipped_steps (self w3) = skipped_steps (self w)
    /\ csr_tensor_module_names (self w3) = csr_tensor_module_names (self w)
    /\ loaded_checkpoint_dp_world_size (self w3) = Some (dp_world_size (self w))
    /\ loaded_checkpoint_mp_world_size (self w3) = Some (mp_world_size (self w))
    /\ micro_steps (self w3) = micro_steps Sample.engine0.
Proof.
  intros w cs w1.
  apply (@save_then_load_restores_counters Sample.toy
           (fun m sd s => ex_intro _ _ eq_refl)
           (fun o a => ex_intro _ _ eq_refl)
           (fun s sd => ex_intro _ _ eq_refl)
           w w1 Sample.engine0 [] "ckpt" (Py.TagStr "T") cs true true true).
  - reflexivity.
  - reflexivity.
  - vm_compute. reflexivity.
  - repeat constructor. cbn. tauto.
  - repeat constructor.
  - reflexivity.
  - reflexivity.
  - discriminate.
Defined.

(** ** Loading the shards *)

Lemma shard_name_nonempty (dir : string) (tag : Py.tag) (mp dp : Z) :
  Naming._get_rank_zero_ckpt_name dir tag mp dp <> "".
Proof.
  unfold Naming._get_rank_zero_ckpt_name.
  rewrite FileNames.join_last by reflexivity.
  destruct (FileNames.joined_prefix _);
    rewrite ?Naming.append_nil, ?Naming.append_cons; discriminate.
Qed.

Lemma in_range (r n : Z) : In r (range n) <-> 0 <= r < n.
Proof.
  unfold range. rewrite in_map_iff. split.
  - intros (k & <- & Hin). apply in_seq in Hin. lia.
  - intros Hr. exists (Z.to_nat r). split; [lia |]. apply in_seq. lia.
Qed.

Section Shards.
Context (name : Z -> string) (sd : Z -> PyVal) (w : World).
Hypothesis name_nonempty : forall r, name r <> "".

Lemma no_missing_paths (l : list Z) :
  (forall r, In r l -> files (fs w) !! name r = Some (zero_shard (sd r))) ->
  missing_paths (fs w) (map name l) = [].
Proof using name_nonempty.
  intros Hall. unfold missing_paths.
  induction l as [|r l IH]; [reflexivity |]. cbn [map List.filter].
  rewrite (exists_in_file (fs w) (name r) _ (Hall r (or_introl eq_refl)))
    by apply name_nonempty.
  cbn [negb]. apply IH. intros r' Hr'. apply Hall. now right.
Qed.

Lemma collect_torch_load (l : list Z) :
  (forall r, In r l -> files (fs w) !! name r = Some (zero_shard (sd r))) ->
  collect (map name l) torch_load w
  = (Return (map (fun r => zero_shard (sd r)) l), w).
Proof using Type.
  intros Hall. induction l as [|r l IH]; [reflexivity |].
  cbn [map collect].
  erewrite bind_return.
  2:{ unfold torch_load, bind, get_fs.
      rewrite (Hall r (or_introl eq_refl)). reflexivity. }
  rewrite (bind_return _ _ _ _ _ (IH (fun r' Hr' => Hall r' (or_intror Hr')))).
  reflexivity.
Qed.

Lemma collect_optimizer_state_dicts (l : list Z) :
  collect (map (fun r => zero_shard (sd r)) l)
    (fun x => lift (subscript x "optimizer_state_dict")) w
  = (Return (map sd l), w).
Proof using Type.
  induction l as [|r l IH]; [reflexivity |].
  cbn [map collect].
  erewrite bind_return by reflexivity.
  rewrite (bind_return _ _ _ _ _ IH). reflexivity.
Qed.

End Shards.

(** X14: when the shard of every data-parallel rank below the recorded
    world size is on disk, as [_save_zero_checkpoint] writes it,
    [_load_zero_checkpoint] returns: the optimizer is handed the optimizer
    states of the shards in the order of the ranks, [0 .. dp - 1], together
    with the flags of the call and of the configuration, and is replaced by
    what its [load_state_dict] returns; no file is written. *)
Theorem zero_shards_load_in_rank_order `{Collaborators} (w : World)
    (load_dir : string) (tag : Py.tag) (lo : bool) (dp : Z) (sd : Z -> PyVal)
    (o o' : Optimizer) :
  let shards := map sd (range dp) in
  let args :=
    LoadZero shards lo (load_from_fp32_weights (zero_config (_config (self w)))) in
  loaded_checkpoint_dp_world_size (self w) = Some dp ->
  (forall r, 0 <= r < dp ->
     files (fs w) !! Naming._get_rank_zero_ckpt_name load_dir tag
                       (Naming.mp_rank_of (self w)) r
     = Some (zero_shard (sd r))) ->
  optimizer (self w) = Some o ->
  optimizer_load_state_dict o args = Return o' ->
  exists w',
    _load_zero_checkpoint load_dir tag lo w = (Return tt, w')
    /\ self w' = set_optimizer (Some o') (self w)
    /\ fs w' = fs w
    /\ In (CallOptimizerLoad args) (trace w').
Proof.
  intros shards args Hdp Hfiles Ho Hload.
  set (name := Naming._get_rank_zero_ckpt_name load_dir tag
                 (Naming.mp_rank_of (self w))).
  assert (Hall : forall r, In r (range dp) ->
            files (fs w) !! name r = Some (zero_shard (sd r))).
  { intros r Hr. apply Hfiles. now apply in_range. }
  assert (Hget : exists tr,
    _get_all_zero_checkpoints load_dir tag w
    = (Return (Some shards), {| self := self w; fs := fs w; trace := tr |})).
  { unfold _get_all_zero_checkpoints.
    rewrite (bind_return get_self _ w w (self w)) by reflexivity.
    rewrite Hdp. unfold _get_mp_rank_zero_checkpoint_names.
    rewrite (bind_return get_fs _ w w (fs w)) by reflexivity.
    cbv zeta. fold name.
    rewrite (no_missing_paths name sd w) by
      (try exact Hall; intros r; apply shard_name_nonempty).
    cbn [length Nat.ltb Nat.leb].
    rewrite (bind_return _ _ _ _ _ (collect_torch_load name sd w _ Hall)).
    rewrite (bind_return _ _ _ _ _
               (collect_optimizer_state_dicts sd w (range dp))).
    unfold bind, print, emit, ret. eexists. reflexivity. }
  destruct Hget as [tr Hget].
  unfold _load_zero_checkpoint. rewrite (bind_return _ _ _ _ _ Hget).
  erewrite (bind_return get_self) by reflexivity. cbn [self].
  unfold call_optimizer_load, bind, get_self, ret, lift, print, emit,
    set_self. cbn [self fs trace].
  rewrite Ho. fold shards. fold args. rewrite Hload.
  eexists. split; [reflexivity |]. cbn [self fs trace].
  repeat split. apply in_or_app. left. apply in_or_app. right. now left.
Qed.

Lemma zero_shards_load_in_rank_order_witness :
  let w := {| self := set_loaded_checkpoint_dp_world_size (Some 4) fresh_engine;
              fs := saved_by [0; 1; 2; 3]; trace := [] |} in
  let sd := fun r => PyDict [("shard", PyInt r)] in
  let args := LoadZero (map sd (range 4)) true true in
  exists w',
    @_load_zero_checkpoint Sample.toy "ckpt" (Py.TagStr "T") true w
    = (Return tt, w')
    /\ self w' = set_optimizer (optimizer (self w)) (self w)
    /\ fs w' = fs w
    /\ In (CallOptimizerLoad args) (trace w').
Proof.
  intros w sd args.
  refine (@zero_shards_load_in_rank_order Sample.toy w "ckpt" (Py.TagStr "T")
            true 4 sd _ _ eq_refl _ eq_refl eq_refl).
  intros r Hr.
  assert (Hcases : r = 0 \/ r = 1 \/ r = 2 \/ r = 3) by lia.
  destruct Hcases as [->|[->|[->| ->]]]; vm_compute; reflexivity.
Defined.

End CheckpointFacts.

(** * Dense reduction: the flag and the threshold *)

Module ReduceFacts.
Import Reduce.
Local Open Scope Q_scope.

(** The elements of a small bucket, counted as the loop counts them. *)
Definition total_numel (small_bucket : list Tensor) : Z :=
  fold_right (fun t acc => (numel t + acc)%Z) 0%Z small_bucket.

(** Every rank holds, for every element, the sum over the ranks divided by
    [c]. *)
Definition sum_over (c : Q) (t : Tensor) : Tensor :=
  map (fun e => repeat (sum_ranks e / c) (length e)) t.

Lemma total_numel_app (a b : list Tensor) :
  total_numel (a ++ b) = (total_numel a + total_numel b)%Z.
Proof.
  unfold total_numel in *.
  induction a as [|t a IH]; cbn [app fold_right]; lia.
Qed.

Lemma total_numel_nonneg (a : list Tensor) : (0 <= total_numel a)%Z.
Proof.
  unfold total_numel.
  induction a as [|t a IH]; cbn [fold_right]; unfold numel in *; lia.
Qed.

Lemma total_numel_removelast (a : list Tensor) :
  (total_numel (removelast a) <= total_numel a)%Z.
Proof.
  induction a as [|t a IH]; [cbn; lia |].
  destruct a as [|t' a].
  - cbn. unfold numel. lia.
  - change (removelast (t :: t' :: a)) with (t :: removelast (t' :: a)).
    unfold total_numel in *. cbn [fold_right] in *. lia.
Qed.

(** The loop of [allreduce_no_retain] with [numel_so_far] the count of the
    bucket being filled, which is within the threshold: a bucket is flushed
    as soon as it exceeds the threshold, and only then. *)
Lemma flushes_bounded (bucket small_bucket : list Tensor) (npb : Z) :
  (0 <= npb)%Z ->
  (total_numel small_bucket <= npb)%Z ->
  let groups := flushes_from bucket small_bucket (total_numel small_bucket) npb in
  Forall (fun g => (total_numel (removelast g) <= npb)%Z) groups
  /\ Forall (fun g => (npb < total_numel g)%Z) (removelast groups).
Proof.
  intros Hnpb. revert small_bucket.
  induction bucket as [|t rest IH]; intros small_bucket Hsmall;
    cbn [flushes_from].
  - destruct (0 <? length small_bucket)%nat; cbn [removelast].
    + split; [| constructor]. constructor; [| constructor].
      pose proof (total_numel_removelast small_bucket). lia.
    + split; constructor.
  - assert (Hcount : (total_numel small_bucket + numel t)%Z
                     = total_numel (small_bucket ++ [t])).
    { rewrite total_numel_app. cbn [total_numel fold_right]. lia. }
    rewrite Hcount.
    destruct (Z.ltb_spec npb (total_numel (small_bucket ++ [t]))) as [Hover|Hin].
    + destruct (IH [] ltac:(cbn; lia)) as [Hfront Hfull].
      change (total_numel []) with 0%Z in Hfront, Hfull. split.
      * constructor; [| exact Hfront]. now rewrite removelast_last.
      * destruct (flushes_from rest [] 0 npb) as [|g gs] eqn:E;
          [constructor |].
        change (removelast ((small_bucket ++ [t]) :: g :: gs))
          with ((small_bucket ++ [t]) :: removelast (g :: gs)).
        constructor; assumption.
    + apply IH. exact Hin.
Qed.

(** X16: the threshold of [allreduce_no_retain], for a threshold that is
    not negative.  The method reduces its tensors in the small buckets
    [flushes_from] lists; every small bucket but the last holds more than
    [numel_per_bucket] elements, and every small bucket without its last
    tensor holds at most that many: a bucket is closed by the first tensor
    that takes it over the threshold, so it can exceed the threshold by
    almost a whole tensor, and only the last bucket can stay below. *)
Theorem small_buckets_close_past_the_threshold (e : DeepSpeedLight)
    (bucket : list Tensor) (numel_per_bucket : Z) :
  let groups := flushes_from bucket [] 0 numel_per_bucket in
  (0 <= numel_per_bucket)%Z ->
  allreduce_no_retain e bucket numel_per_bucket = reduce_each e groups
  /\ Forall (fun g => (total_numel (removelast g) <= numel_per_bucket)%Z) groups
  /\ Forall (fun g => (numel_per_bucket < total_numel g)%Z) (removelast groups).
Proof.
  intros groups Hnpb. split; [apply loop_is_reduce_each |].
  apply (flushes_bounded bucket [] numel_per_bucket Hnpb). cbn. exact Hnpb.
Qed.

Lemma small_buckets_close_past_the_threshold_witness :
  let e := Sample.engine_of_group 2 1 in
  let bucket := [ [[1; 3]; [2; 4]]; [[10; 20]]; [[5; 6]] ] in
  let groups := flushes_from bucket [] 0 2 in
  allreduce_no_retain e bucket 2 = reduce_each e groups
  /\ Forall (fun g => (total_numel (removelast g) <= 2)%Z) groups
  /\ Forall (fun g => (2 < total_numel g)%Z) (removelast groups).
Proof.
  intros e bucket.
  apply (small_buckets_close_past_the_threshold e bucket 2). lia.
Defined.

(** ** Averaging switched off *)

Lemma allreduce_bucket_sum (e : DeepSpeedLight) (bucket : list Tensor) :
  let f := gradient_predivide_factor (_config e) in
  bucket <> [] ->
  prescale_gradients (_config e) = false -> gradient_average e = false ->
  ~ f == 0 ->
  allreduce_bucket e bucket
  = Return (all_reduce
              ((if Qeq_bool f 1 then fun t => t else mul_ (1 / f))
                 (concat bucket))).
Proof.
  intros f Hne Hpre Havg Hf.
  assert (Ef : Qeq_bool f 0 = false).
  { apply not_true_is_false. intros E. apply Hf. now apply Qeq_bool_eq. }
  unfold allreduce_bucket, postscale_gradients, py_div, float.
  rewrite (flatten_nonempty bucket Hne). cbn [rbind].
  fold f. rewrite Hpre, Havg, Ef. cbn [negb].
  destruct (allreduce_always_fp32 _), (Qeq_bool f 1); reflexivity.
Qed.

Lemma predivided_sum (f : Q) (t : Tensor) :
  ~ f == 0 ->
  tensor_eq
    (all_reduce ((if Qeq_bool f 1 then fun t => t else mul_ (1 / f)) t))
    (sum_over f t).
Proof.
  intros Hf. unfold sum_over.
  destruct (Qeq_bool f 1) eqn:Ef1; try apply Qeq_bool_eq in Ef1;
    unfold mul_, all_reduce; rewrite ?map_map; apply tensor_eq_map; intros y.
  - apply Forall2_repeat. rewrite Ef1. field.
  - rewrite List.length_map. apply Forall2_repeat.
    rewrite sum_ranks_mul. field. exact Hf.
Qed.

(** X15: [allreduce_bucket] with [gradient_average] off, on a bucket that
    holds at least one tensor, for a world size W >= 1 and a predivide
    factor f that is not zero.  In postscale mode the division by f before
    the collective is not undone: every rank holds the sum over the ranks
    divided by f, the plain sum only when f is 1.  In prescale mode the flag
    is not read: every rank holds the sum divided by W, the average, as with
    averaging on. *)
Theorem allreduce_bucket_without_averaging (e : DeepSpeedLight)
    (bucket : list Tensor) :
  let f := gradient_predivide_factor (_config e) in
  let W := inject_Z (dp_world_size e) in
  bucket <> [] ->
  (1 <= dp_world_size e)%Z -> ~ f == 0 -> gradient_average e = false ->
  exists post pre : Tensor,
    allreduce_bucket (with_prescale false e) bucket = Return post
    /\ allreduce_bucket (with_prescale true e) bucket = Return pre
    /\ tensor_eq post (sum_over f (concat bucket))
    /\ tensor_eq pre (average W (concat bucket)).
Proof.
  intros f W Hne HW Hf Havg.
  eexists. eexists.
  split; [apply (allreduce_bucket_sum (with_prescale false e) bucket);
          [exact Hne | reflexivity | exact Havg | exact Hf] |].
  split; [apply (allreduce_bucket_prescale (with_prescale true e) bucket);
          [exact Hne | reflexivity] |].
  cbn [with_prescale _config gradient_predivide_factor dp_world_size].
  fold f W. split; [now apply predivided_sum | apply prescale_elem].
Qed.

Lemma allreduce_bucket_without_averaging_witness :
  let e0 := Sample.engine_of_group 2 4 in
  let e := Build_DeepSpeedLight (_config e0) (mpu e0) (module e0)
             (optimizer e0) (lr_scheduler e0) (global_rank e0) (world_size e0)
             (dp_world_size e0) (mp_world_size e0) (global_steps e0)
             (micro_steps e0) (skipped_steps e0) (sample_count e0) false
             (csr_tensor_module_names e0) (loaded_checkpoint_mp_world_size e0)
             (loaded_checkpoint_dp_world_size e0) (save_non_zero_checkpoint e0)
             (save_zero_checkpoint e0) in
  let bucket := [ [[1; 3]; [2; 4]]; [[10; 20]] ] in
  exists post pre : Tensor,
    allreduce_bucket (with_prescale false e) bucket = Return post
    /\ allreduce_bucket (with_prescale true e) bucket = Return pre
    /\ tensor_eq post (sum_over 4 (concat bucket))
    /\ tensor_eq pre (average 2 (concat bucket)).
Proof.
  intros e0 e bucket.
  apply (allreduce_bucket_without_averaging e bucket).
  - discriminate.
  - vm_compute. discriminate.
  - vm_compute. discriminate.
  - reflexivity.
Defined.

End ReduceFacts.

(** * The functions of the module *)

Module ModuleFunctions.
Local Open Scope string_scope.
Local Open Scope Z_scope.
Local Open Scope engine_scope.

Section Split.

(** Tensors are known by the name [t.type()] gives; [csr_type] is
    [CSRTensor.type()], the name the class of [deepspeed_csr_tensor.py]
    gives its instances. *)
Context {T : Type} (type_ : T -> string) (csr_type : string).

Definition dtypes : list string :=
  [ "torch.cuda.HalfTensor"; "torch.cuda.FloatTensor";
    "torch.cuda.DoubleTensor"; csr_type ].

(** [[t for t in tensors if t.type() == dtype]] *)
Definition of_type (dtype : string) (tensors : list T) : list T :=
  List.filter (fun t => String.eqb (type_ t) dtype) tensors.

(** The loop of [split_half_float_double_csr] over the names still to
    visit. *)
Fixpoint buckets_from (names : list string) (tensors : list T)
    : list (string * list T) :=
  match names with
  | [] => []
  | dtype :: rest =>
      let bucket := of_type dtype tensors in
      match bucket with
      | [] => buckets_from rest tensors
      | _ :: _ => (dtype, bucket) :: buckets_from rest tensors
      end
  end.

Definition split_half_float_double_csr (tensors : list T)
    : list (string * list T) :=
  buckets_from dtypes tensors.

(** [t.type()] is one of the four names. *)
Definition is_listed (t : T) : bool :=
  existsb (String.eqb (type_ t)) dtypes.

End Split.

(** [range(a, b)] *)
Definition range_from (a b : Z) : list Z :=
  map (fun k => a + Z.of_nat k) (seq 0 (Z.to_nat (b - a))).

(** [rank in ranks] *)
Definition member (rank : Z) (ranks : list Z) : bool :=
  existsb (Z.eqb rank) ranks.

(** [range(i * parameter_parallel_size, (i + 1) * parameter_parallel_size)] *)
Definition ranks_of (parameter_parallel_size i : Z) : list Z :=
  range_from (i * parameter_parallel_size) ((i + 1) * parameter_parallel_size).

(** The loop of [_initialize_parameter_parallel_groups]: the groups made so
    far, in order, and [my_group]. *)
Definition make_groups (parameter_parallel_size rank : Z) (indices : list Z)
    : list (list Z) * option (list Z) :=
  fold_left
    (fun (state : list (list Z) * option (list Z)) i =>
       let ranks := ranks_of parameter_parallel_size i in
       ((fst state ++ [ranks])%list,
        if member rank ranks then Some ranks else snd state))
    indices ([], None).

(** [_initialize_parameter_parallel_groups], on a rank [rank] of a job of
    [world_size] processes, the two numbers [torch.distributed] answers with.
    A process group is known by its ranks; the result is the list of the
    groups [new_group] was asked for, in order, and the group returned. *)
Definition _initialize_parameter_parallel_groups (world_size rank : Z)
    (parameter_parallel_size : option Z)
    : M (list (list Z) * option (list Z)) :=
  let data_parallel_size := world_size in
  let parameter_parallel_size :=
    match parameter_parallel_size with
    | None => data_parallel_size
    | Some p => p
    end in
  log_via "logger" Info "data_parallel_size: %s, parameter_parallel_size: %s"
    [Py.str_int data_parallel_size; Py.str_int parameter_parallel_size] ;;;
  r <- lift (Py.modulo data_parallel_size parameter_parallel_size) ;;
  if negb (r =? 0)
  then raise (AssertionError
                "world size should be divisible by parameter parallel size")
  else ret (make_groups parameter_parallel_size rank
              (Checkpoint.range (world_size / parameter_parallel_size))).

(** ** Splitting by type *)

Section SplitFacts.
Context {T : Type} (type_ : T -> string) (csr_type : string).

Lemma buckets_from_spec (names : list string) (tensors : list T)
    (dtype : string) (bucket : list T) :
  In (dtype, bucket) (buckets_from type_ names tensors) ->
  In dtype names /\ bucket <> [] /\ bucket = of_type type_ dtype tensors.
Proof.
  induction names as [|d rest IH]; cbn [buckets_from]; [intros [] |].
  destruct (of_type type_ d tensors) as [|t b] eqn:E.
  - intros Hin. destruct (IH Hin) as (H1 & H2 & H3). repeat split; auto.
    now right.
  - intros [[= <- <-]|Hin].
    + repeat split; [now left | discriminate | now rewrite E].
    + destruct (IH Hin) as (H1 & H2 & H3). repeat split; auto. now right.
Qed.

Lemma buckets_from_complete (names : list string) (tensors : list T) (t : T) :
  In t tensors -> In (type_ t) names ->
  In (type_ t, of_type type_ (type_ t) tensors)
     (buckets_from type_ names tensors).
Proof.
  intros Ht. induction names as [|d rest IH]; cbn [buckets_from In];
    [intros [] |].
  intros Hin.
  assert (Hmember : d = type_ t -> In t (of_type type_ d tensors)).
  { intros ->. apply filter_In. split; [exact Ht | apply String.eqb_refl]. }
  destruct (of_type type_ d tensors) as [|t0 b] eqn:E.
  - destruct Hin as [Hd|Hin]; [destruct (Hmember Hd) | now apply IH].
  - destruct (string_dec d (type_ t)) as [Hd|Hd].
    + left. subst d. now rewrite E.
    + right. apply IH. destruct Hin; [contradiction | assumption].
Qed.

Lemma filter_disjoint (p q : T -> bool) (l : list T) :
  (forall x, p x = true -> q x = false) ->
  Permutation (List.filter p l ++ List.filter q l)
              (List.filter (fun x => p x || q x) l).
Proof.
  intros Hpq. induction l as [|x l IH]; [constructor |].
  cbn [List.filter]. destruct (p x) eqn:Ep; cbn [orb].
  - rewrite (Hpq x Ep). cbn [app]. now constructor.
  - destruct (q x); [| exact IH].
    eapply Permutation_trans; [apply Permutation_sym, Permutation_middle |].
    now constructor.
Qed.

Lemma buckets_from_content (names : list string) (tensors : list T) :
  List.NoDup names ->
  Permutation (concat (map snd (buckets_from type_ names tensors)))
              (List.filter (fun t => existsb (String.eqb (type_ t)) names)
                           tensors).
Proof.
  induction names as [|d rest IH]; intros Hnodup.
  - cbn. induction tensors as [|t l IHl]; [constructor | exact IHl].
  - inversion Hnodup as [|? ? Hd Hrest]; subst.
    assert (Hhead : concat (map snd (buckets_from type_ (d :: rest) tensors))
                    = (of_type type_ d tensors
                       ++ concat (map snd (buckets_from type_ rest tensors)))%list).
    { cbn [buckets_from].
      destruct (of_type type_ d tensors) as [|t b]; reflexivity. }
    rewrite Hhead. cbn [existsb].
    eapply Permutation_trans;
      [apply Permutation_app_head, (IH Hrest) |].
    apply (filter_disjoint (fun t => String.eqb (type_ t) d)).
    intros x Hx. apply String.eqb_eq in Hx. subst d.
    apply not_true_is_false. intros Hex. apply Hd.
    apply existsb_exists in Hex as (d' & Hin & Heq).
    apply String.eqb_eq in Heq. now subst d'.
Qed.

(** X17: [split_half_float_double_csr] on any list of tensors.  Every
    bucket it returns is tagged with one of the four names, is not empty and
    holds exactly the tensors of that type, in their order in the list; a
    tensor of the list is in a bucket exactly when its type is one of the
    four, so a tensor of any other type -- a CPU tensor, say -- is in no
    bucket and is left out of the reduction without a word; and when the
    name of the sparse class is not one of the three dense names, the
    buckets together hold each listed tensor once. *)
Theorem split_keeps_listed_types_only (tensors : list T) :
  let buckets := split_half_float_double_csr type_ csr_type tensors in
  (forall dtype bucket,
     In (dtype, bucket) buckets ->
     In dtype (dtypes csr_type) /\ bucket <> []
     /\ bucket = of_type type_ dtype tensors)
  /\ (forall t,
        In t tensors ->
        (is_listed type_ csr_type t = true
         <-> exists dtype bucket, In (dtype, bucket) buckets /\ In t bucket))
  /\ (List.NoDup (dtypes csr_type) ->
      Permutation (concat (map snd buckets))
                  (List.filter (is_listed type_ csr_type) tensors)).
Proof.
  intros buckets. subst buckets. unfold split_half_float_double_csr.
  split; [| split].
  - intros dtype bucket. apply buckets_from_spec.
  - intros t Ht. unfold is_listed. split.
    + intros Hlisted. apply existsb_exists in Hlisted as (d & Hd & Heq).
      apply String.eqb_eq in Heq. subst d.
      exists (type_ t), (of_type type_ (type_ t) tensors). split.
      * now apply buckets_from_complete.
      * apply filter_In. split; [exact Ht | apply String.eqb_refl].
    + intros (dtype & bucket & Hin & Htin).
      apply buckets_from_spec in Hin as (Hd & _ & ->).
      apply filter_In in Htin as [_ Heq].
      apply existsb_exists. exists dtype. split; assumption.
  - apply buckets_from_content.
Qed.

End SplitFacts.

Lemma split_keeps_listed_types_only_witness :
  let tensors := [ "torch.cuda.FloatTensor"; "torch.FloatTensor";
                   "torch.cuda.HalfTensor"; "torch.cuda.FloatTensor" ] in
  Permutation
    (concat (map snd (split_half_float_double_csr (fun t => t)
                        "deepspeed.CSRTensor" tensors)))
    (List.filter (is_listed (fun t => t) "deepspeed.CSRTensor") tensors).
Proof.
  intros tensors.
  apply (proj2 (proj2 (split_keeps_listed_types_only (fun t => t)
                         "deepspeed.CSRTensor" tensors))).
  repeat constructor; cbn; intuition discriminate.
Defined.

(** ** The parameter-parallel groups *)

Lemma in_range_from (r a b : Z) : In r (range_from a b) <-> a <= r < b.
Proof.
  unfold range_from. rewrite in_map_iff. split.
  - intros (k & <- & Hin). apply in_seq in Hin. lia.
  - intros Hr. exists (Z.to_nat (r - a)). split; [lia |]. apply in_seq. lia.
Qed.

Lemma member_range_from (r a b : Z) :
  member r (range_from a b) = (a <=? r) && (r <? b).
Proof.
  unfold member.
  destruct (existsb (Z.eqb r) (range_from a b)) eqn:E.
  - apply existsb_exists in E as (x & Hin & Heq).
    apply Z.eqb_eq in Heq. subst x. apply in_range_from in Hin.
    symmetry. apply andb_true_iff. split; [apply Z.leb_le | apply Z.ltb_lt]; lia.
  - symmetry. apply not_true_is_false. intros Hin.
    apply andb_true_iff in Hin as [Ha Hb].
    apply Z.leb_le in Ha. apply Z.ltb_lt in Hb.
    assert (Hex : existsb (Z.eqb r) (range_from a b) = true).
    { apply existsb_exists. exists r. split; [| apply Z.eqb_refl].
      apply in_range_from. lia. }
    congruence.
Qed.

Lemma length_range_from (a b : Z) : length (range_from a b) = Z.to_nat (b - a).
Proof. unfold range_from. now rewrite List.length_map, length_seq. Qed.

Lemma map_of_nat_seq (s n : nat) :
  map Z.of_nat (seq s n) = map (fun k => Z.of_nat s + Z.of_nat k) (seq 0 n).
Proof.
  revert s. induction n as [|n IH]; intros s; [reflexivity |].
  cbn [seq map]. f_equal; [lia |].
  rewrite IH, <- (seq_shift n 0), map_map. apply map_ext. intros k. lia.
Qed.

Lemma range_then_range_from (a b : Z) :
  0 <= a <= b ->
  (Checkpoint.range a ++ range_from a b)%list = Checkpoint.range b.
Proof.
  intros Hab. unfold Checkpoint.range, range_from.
  replace (Z.to_nat b) with (Z.to_nat a + Z.to_nat (b - a))%nat by lia.
  rewrite seq_app, List.map_app. f_equal. cbn [Nat.add].
  rewrite map_of_nat_seq. apply map_ext. intros k. lia.
Qed.

Section Groups.
Context (p rank : Z).

Lemma groups_cover (k : nat) :
  0 <= p ->
  concat (map (ranks_of p) (map Z.of_nat (seq 0 k)))
  = Checkpoint.range (Z.of_nat k * p).
Proof using Type.
  intros Hp. induction k as [|k IH]; [reflexivity |].
  rewrite seq_S, !List.map_app, concat_app, IH. cbn [Nat.add map concat].
  rewrite app_nil_r. unfold ranks_of. rewrite range_then_range_from by nia.
  f_equal. lia.
Qed.

Lemma member_ranks_of (i : Z) :
  0 < p -> member rank (ranks_of p i) = (i =? rank / p).
Proof using Type.
  intros Hp. unfold ranks_of. rewrite member_range_from.
  destruct (Z.eqb_spec i (rank / p)) as [->|Hne].
  - apply andb_true_iff. split; [apply Z.leb_le | apply Z.ltb_lt].
    + rewrite Z.mul_comm. now apply Z.mul_div_le.
    + rewrite Z.mul_comm, Z.mul_add_distr_l, Z.mul_1_r.
      pose proof (Z.mod_pos_bound rank p Hp).
      pose proof (Z.div_mod rank p ltac:(lia)). lia.
  - apply not_true_is_false. intros Hin. apply Hne.
    apply andb_true_iff in Hin as [Ha Hb].
    apply Z.leb_le in Ha. apply Z.ltb_lt in Hb.
    apply (Z.div_unique_pos rank p i (rank - i * p)); lia.
Qed.

Lemma make_groups_run (indices : list Z) (groups : list (list Z))
    (my_group : option (list Z)) :
  0 < p ->
  fold_left
    (fun (state : list (list Z) * option (list Z)) i =>
       let ranks := ranks_of p i in
       ((fst state ++ [ranks])%list,
        if member rank ranks then Some ranks else snd state))
    indices (groups, my_group)
  = ((groups ++ map (ranks_of p) indices)%list,
     if existsb (Z.eqb (rank / p)) indices
     then Some (ranks_of p (rank / p)) else my_group).
Proof using Type.
  intros Hp. revert groups my_group.
  induction indices as [|i rest IH]; intros groups my_group.
  - cbn. now rewrite app_nil_r.
  - cbn [fold_left fst snd map existsb]. rewrite IH.
    rewrite member_ranks_of by exact Hp.
    rewrite <- app_assoc. cbn [app]. f_equal.
    rewrite (Z.eqb_sym (rank / p) i).
    destruct (Z.eqb_spec i (rank / p)) as [->|Hne]; cbn [orb].
    + now destruct (existsb _ rest).
    + reflexivity.
Qed.

End Groups.

(** X18: [_initialize_parameter_parallel_groups] with a parameter-parallel
    size [p > 0] that divides the world size, on a rank of the job; without
    an argument [p] is the world size.  The function returns; the groups it
    asks [new_group] for have [p] ranks each, there are [world_size // p] of
    them, and one after the other they are the ranks [0 .. world_size - 1]:
    consecutive ranks share a group and every rank is in exactly one.  The
    group returned is the one of index [rank // p], and the rank is in it. *)
Theorem parameter_parallel_groups_partition_the_job (world_size rank : Z)
    (parameter_parallel_size : option Z) (w : World) :
  let p := match parameter_parallel_size with
           | None => world_size
           | Some p => p
           end in
  let mine := ranks_of p (rank / p) in
  0 < p -> (p | world_size) -> 0 <= rank < world_size ->
  exists groups w',
    _initialize_parameter_parallel_groups world_size rank
      parameter_parallel_size w = (Return (groups, Some mine), w')
    /\ self w' = self w /\ fs w' = fs w
    /\ concat groups = Checkpoint.range world_size
    /\ length groups = Z.to_nat (world_size / p)
    /\ Forall (fun g => length g = Z.to_nat p) groups
    /\ In mine groups
    /\ In rank mine.
Proof.
  intros p mine Hp [n Hn] Hrank.
  assert (Hn0 : 0 <= n) by nia.
  assert (Hdiv : world_size / p = n) by (rewrite Hn; apply Z.div_mul; lia).
  assert (Hmod : world_size mod p = 0) by (rewrite Hn; apply Z.mod_mul; lia).
  unfold _initialize_parameter_parallel_groups. fold p.
  unfold bind at 1. rewrite log_via_logger_run.
  unfold bind, lift, Py.modulo.
  assert (Hp0 : (p =? 0) = false) by (apply Z.eqb_neq; lia).
  rewrite Hp0, Hmod, Hdiv. cbn [Z.eqb negb ret].
  unfold make_groups. rewrite (make_groups_run p rank) by exact Hp.
  cbn [app].
  assert (Hin : In (rank / p) (Checkpoint.range n)).
  { apply CheckpointFacts.in_range. split; [apply Z.div_pos; lia |].
    apply Z.div_lt_upper_bound; [lia |]. nia. }
  assert (Hex : existsb (Z.eqb (rank / p)) (Checkpoint.range n) = true).
  { apply existsb_exists. exists (rank / p). split; [exact Hin | apply Z.eqb_refl]. }
  rewrite Hex. eexists. eexists. split; [reflexivity |]. cbn [self fs].
  split; [reflexivity |]. split; [reflexivity |].
  split; [| split; [| split; [| split]]].
  - unfold Checkpoint.range at 1. rewrite (groups_cover p) by lia.
    f_equal. lia.
  - unfold Checkpoint.range. now rewrite !List.length_map, length_seq.
  - apply List.Forall_forall. intros g Hg.
    apply in_map_iff in Hg as (i & <- & _).
    unfold ranks_of. rewrite length_range_from. f_equal. lia.
  - apply in_map_iff. exists (rank / p). split; [reflexivity | exact Hin].
  - apply in_range_from. split.
    + rewrite Z.mul_comm. apply Z.mul_div_le. lia.
    + pose proof (Z.mod_pos_bound rank p Hp).
      pose proof (Z.div_mod rank p ltac:(lia)). lia.
Qed.

Lemma parameter_parallel_groups_partition_the_job_witness :
  exists groups w',
    _initialize_parameter_parallel_groups 8 5 (Some 2) Sample.world0
    = (Return (groups, Some (range_from (5 / 2 * 2) ((5 / 2 + 1) * 2))), w')
    /\ self w' = Sample.engine0 /\ fs w' = Sample.fs0
    /\ concat groups = Checkpoint.range 8
    /\ length groups = Z.to_nat (8 / 2)
    /\ Forall (fun g => length g = Z.to_nat 2) groups
    /\ In (range_from (5 / 2 * 2) ((5 / 2 + 1) * 2)) groups
    /\ In 5 (range_from (5 / 2 * 2) ((5 / 2 + 1) * 2)).
Proof.
  apply (parameter_parallel_groups_partition_the_job 8 5 (Some 2)
           Sample.world0).
  - lia.
  - exists 4. reflexivity.
  - lia.
Defined.

(** X19: the other arguments.  A parameter-parallel size of zero raises
    [ZeroDivisionError] at the remainder, before the assertion; a size that
    does not divide the world size raises [AssertionError]; and a negative
    size that divides the world size passes the assertion, makes no group
    and returns [None]. *)
Theorem parameter_parallel_groups_edge_cases (world_size rank : Z)
    (parameter_parallel_size : option Z) (w : World) :
  let p := match parameter_parallel_size with
           | None => world_size
           | Some p => p
           end in
  let out := fst (_initialize_parameter_parallel_groups world_size rank
                    parameter_parallel_size w) in
  (p = 0 -> out = Raise ZeroDivisionError)
  /\ (p <> 0 -> world_size mod p <> 0 ->
      out = Raise (AssertionError
                     "world size should be divisible by parameter parallel size"))
  /\ (p < 0 -> 0 < world_size -> world_size mod p = 0 ->
      out = Return ([], None)).
Proof.
  intros p out. subst out.
  unfold _initialize_parameter_parallel_groups. fold p.
  unfold bind at 1. rewrite log_via_logger_run.
  unfold bind, lift, Py.modulo.
  split; [| split].
  - intros ->. reflexivity.
  - intros Hp Hmod. apply Z.eqb_neq in Hp, Hmod. now rewrite Hp, Hmod.
  - intros Hp HW Hmod.
    assert (Hp0 : (p =? 0) = false) by (apply Z.eqb_neq; lia).
    rewrite Hp0, Hmod. cbn [Z.eqb negb ret fst].
    assert (Hq : world_size / p < 0).
    { pose proof (Z.div_mod world_size p ltac:(lia)). nia. }
    unfold Checkpoint.range.
    replace (Z.to_nat (world_size / p)) with 0%nat by lia. reflexivity.
Qed.

Lemma parameter_parallel_groups_edge_cases_witness :
  fst (_initialize_parameter_parallel_groups 4 1 (Some (-2)) Sample.world0)
  = Return ([], None).
Proof.
  apply (proj2 (proj2 (parameter_parallel_groups_edge_cases 4 1 (Some (-2))
                         Sample.world0))); [lia | lia | reflexivity].
Defined.

End ModuleFunctions.

(** * Scaling the loss *)

Module LossScaling.
Local Open Scope string_scope.
Local Open Scope engine_scope.

(** [l / self.gradient_accumulation_steps()] on a tensor.  The number of
    accumulation steps is at least 1 where the method is called: [backward]
    calls it when the number is above 1. *)
Definition scale_tensor (K : Z) (elems : list Q) : PyVal :=
  PyTensor (map (fun x => (x / inject_Z K)%Q) elems).

Definition unscaled_message : string :=
  "DeepSpeed unable to scale loss because of type: {}".

(** [_scale_loss].  The attribute [warn_unscaled_loss], which [train] and
    [eval] set, is passed in and handed back with the result; a tuple is
    held as the list of its items. *)
Definition _scale_loss (warn_unscaled_loss : bool) (prescaled_loss : PyVal)
    : M (PyVal * bool) :=
  e <- get_self ;;
  let K := gradient_accumulation_steps (_config e) in
  match prescaled_loss with
  | PyTensor elems => ret (scale_tensor K elems, warn_unscaled_loss)
  | PyList items =>
      ret (PyList (map (fun l => match l with
                                 | PyTensor elems => scale_tensor K elems
                                 | _ => l
                                 end) items),
           warn_unscaled_loss)
  | _ =>
      if warn_unscaled_loss
      then log_via "logger" Warning unscaled_message [] ;;;
           ret (prescaled_loss, false)
      else ret (prescaled_loss, warn_unscaled_loss)
  end.

(** [_scale_loss] on one loss after the other. *)
Fixpoint scale_losses (warn_unscaled_loss : bool) (losses : list PyVal)
    : M (list PyVal * bool) :=
  match losses with
  | [] => ret ([], warn_unscaled_loss)
  | loss :: rest =>
      scaled <- _scale_loss warn_unscaled_loss loss ;;
      later <- scale_losses (snd scaled) rest ;;
      ret (fst scaled :: fst later, snd later)
  end.

(** Neither a tensor nor a tuple or list. *)
Definition is_unscalable (loss : PyVal) : bool :=
  match loss with
  | PyTensor _ | PyList _ => false
  | _ => true
  end.

Definition is_unscaled_warning (ev : event) : bool :=
  match ev with
  | Log Warning _ _ => true
  | _ => false
  end.

Definition warnings (w : World) : nat :=
  length (List.filter is_unscaled_warning (trace w)).

Lemma scale_loss_run (warn : bool) (loss : PyVal) (w : World) :
  exists scaled w',
    _scale_loss warn loss w
    = (Return (scaled, warn && negb (is_unscalable loss)), w')
    /\ self w' = self w /\ fs w' = fs w
    /\ warnings w'
       = (warnings w + if warn && is_unscalable loss then 1 else 0)%nat
    /\ (is_unscalable loss = true -> scaled = loss).
Proof.
  unfold _scale_loss, bind, get_self.
  assert (Hwarned : warnings {| self := self w; fs := fs w;
                                trace := trace w
                                         ++ [Log Warning unscaled_message []] |}
                    = (warnings w + 1)%nat).
  { unfold warnings. cbn [trace].
    now rewrite List.filter_app, List.length_app. }
  destruct loss; cbn [is_unscalable negb andb];
    try (rewrite andb_true_r; eexists; eexists;
         split; [reflexivity |]; repeat split; try discriminate; lia);
    destruct warn; cbn [andb]; rewrite ?log_via_logger_run; cbn [ret];
    eexists; eexists; (split; [reflexivity |]); cbn [self fs];
    repeat split; try exact Hwarned; lia.
Qed.

(** X20: [_scale_loss] called on any losses, one after the other, from any
    value of [warn_unscaled_loss].  Every call returns and leaves the engine
    and the files alone; a loss that is neither a tensor nor a tuple or list
    comes back as it was; and the warning about such a loss is written at
    most once: exactly once if the attribute was set and there is such a
    loss, after which the attribute is off, and not at all otherwise. *)
Theorem unscaled_loss_is_reported_once (warn : bool) (losses : list PyVal)
    (w : World) :
  exists scaled w',
    scale_losses warn losses w
    = (Return (scaled, warn && negb (existsb is_unscalable losses)), w')
    /\ self w' = self w /\ fs w' = fs w
    /\ length scaled = length losses
    /\ warnings w'
       = (warnings w
          + if warn && existsb is_unscalable losses then 1 else 0)%nat
    /\ Forall2 (fun loss out => is_unscalable loss = true -> out = loss)
               losses scaled.
Proof.
  revert warn w. induction losses as [|loss rest IH]; intros warn w.
  - exists [], w. cbn. rewrite andb_true_r, andb_false_r.
    repeat split; try constructor. lia.
  - cbn [scale_losses existsb].
    destruct (scale_loss_run warn loss w)
      as (out & w1 & Hrun & Hself1 & Hfs1 & Hwarn1 & Hout).
    rewrite (bind_return _ _ _ _ _ Hrun). cbn [fst snd].
    destruct (IH (warn && negb (is_unscalable loss)) w1)
      as (outs & w' & Hrest & Hself & Hfs & Hlen & Hwarn & Houts).
    rewrite (bind_return _ _ _ _ _ Hrest). cbn [fst snd ret].
    exists (out :: outs), w'. split.
    { f_equal. f_equal. destruct warn, (is_unscalable loss); reflexivity. }
    rewrite Hself, Hfs, Hwarn, Hwarn1. cbn [length].
    repeat split; try assumption; try lia.
    + destruct warn, (is_unscalable loss), (existsb is_unscalable rest);
        cbn; lia.
    + now constructor.
Qed.

End LossScaling.
